(** * Passive tracers of UWGeodynamics ([UWGeodynamics/_utils.py])

    A shallow embedding of the class [PassiveTracers] (seeding, marker
    identities, advection with the vertical-only mode, the registry of
    tracked fields, the checkpoint writer) and of the function
    [rotateTensor2D], followed by the properties proved about them.

    Python objects that are mutated in place (numpy arrays, the swarm, the
    velocity field, the instance itself) live in explicit state; a Python
    exception is an outcome [Raise e] that leaves the state as it was when
    the exception was raised. *)

From Stdlib Require Import ZArith Reals Lra Lia Ascii String.
From stdpp Require Import gmap strings list fin_maps pretty.

(** ** Numbers

    Array elements are IEEE doubles in the source.  The model is parametric
    in the element type and its operations and assumes no algebraic law
    about them. *)

Class FloatOps (F : Type) := {
  f0 : F;                      (* the literal [0.] *)
  f2 : F;                      (* the literal [2] in [2*theta] *)
  fadd : F → F → F;
  fsub : F → F → F;
  fmul : F → F → F;
  fsqr : F → F;                (* [x**2] *)
  fcos : F → F;                (* [np.cos] *)
  fsin : F → F                 (* [np.sin] *)
}.

(** The real numbers, used to run the model on concrete inputs. *)
#[export] Instance R_ops : FloatOps R := {|
  f0 := 0%R; f2 := 2%R;
  fadd := Rplus; fsub := Rminus; fmul := Rmult;
  fsqr := λ x, (x * x)%R;
  fcos := cos; fsin := sin
|}.

(** ** Outcomes of Python code *)

Inductive exn : Set :=
| ValueError
| TypeError
| IndexError
| AttributeError
| OverflowError
| ZeroDivisionError
| RuntimeError
| IOError
| CollaboratorError (tag : nat).   (* raised inside an Underworld call *)

Inductive res (A : Type) : Type :=
| Ok (a : A)
| Raise (e : exn).
Arguments Ok {A} a.
Arguments Raise {A} e.

(** Statements over a state [S]: the state after the statement is returned
    also when it raises. *)
Definition M (S A : Type) : Type := S → res A * S.

Definition ret {S A : Type} (a : A) : M S A := λ s, (Ok a, s).

Definition bind {S A B : Type} (m : M S A) (k : A → M S B) : M S B :=
  λ s, match m s with
       | (Ok a, s') => k a s'
       | (Raise e, s') => (Raise e, s')
       end.

Definition raise {S A : Type} (e : exn) : M S A := λ s, (Raise e, s).

Definition lift_res {S A : Type} (r : res A) : M S A := λ s, (r, s).

Definition gets {S A : Type} (f : S → A) : M S A := λ s, (Ok (f s), s).

Definition modify {S : Type} (f : S → S) : M S unit := λ s, (Ok tt, f s).

(** A statement that only reads the state. *)
Definition readonly {S A : Type} (m : M S A) : Prop := ∀ s, (m s).2 = s.

(** stdpp's monad notations [x ← m; k] and [m ;; k] for statements. *)
#[export] Instance M_ret {S : Type} : MRet (M S) := λ A, ret.
#[export] Instance M_bind {S : Type} : MBind (M S) := λ A B k m, bind m k.

(** ** numpy arrays

    A two-dimensional array is its number of columns and its rows; the
    number of columns is kept apart so that an array with no row still has
    a shape. *)

Record Arr (F : Type) : Type := mkArr { ncols : nat; rows : list (list F) }.
Arguments mkArr {F} ncols rows.
Arguments ncols {F} a.
Arguments rows {F} a.

Definition nrows {F : Type} (a : Arr F) : nat := length (rows a).

(** [a[:, lo:hi]]: a view shares the memory of its base array. *)
Record View : Set := mkView { v_base : nat; v_lo : nat; v_hi : nat }.

(** The arrays in memory, by address; [alloc] places a new array after the
    existing ones. *)
Abbreviation Heap F := (list (Arr F)).

Section Numpy.
Context {F : Type} {ops : FloatOps F}.

(** [np.zeros((n, w))] *)
Definition zeros (n w : nat) : Arr F := mkArr w (replicate n (replicate w f0)).

Definition deref (h : Heap F) (l : nat) : Arr F := default (mkArr 0 []) (h !! l).

Definition alloc (a : Arr F) : M (Heap F) nat := λ h, (Ok (length h), h ++ [a]).

(** Width and contents seen through a view. *)
Definition view_ncols (a : Arr F) (v : View) : nat :=
  (v_hi v `min` ncols a) - v_lo v.

Definition view_arr (a : Arr F) (v : View) : Arr F :=
  mkArr (view_ncols a v)
        (map (λ r, take (view_ncols a v) (drop (v_lo v) r)) (rows a)).

Definition read_view (t : View) : M (Heap F) (Arr F) :=
  gets (λ h, view_arr (deref h (v_base t)) t).

(** [a[:, j]] as a value: IndexError when the array has no column [j]. *)
Definition col (a : Arr F) (j : nat) : res (list F) :=
  if decide (j < ncols a)
  then Ok (map (λ r, default f0 (r !! j)) (rows a))
  else Raise IndexError.

Definition view_col (t : View) (j : nat) : M (Heap F) (list F) :=
  a ← read_view t; lift_res (col a j).

(** A binary ufunc on two operands that numpy broadcasts against each other
    along their one varying axis: equal lengths pair up, a length-one
    operand is repeated, anything else is a ValueError. *)
Definition bop (op : F → F → F) (x y : list F) : res (list F) :=
  if decide (length x = length y) then Ok (zip_with op x y)
  else if decide (length y = 1) then Ok (map (λ a, op a (default f0 (head y))) x)
  else if decide (length x = 1) then Ok (map (λ b, op (default f0 (head x)) b) y)
  else Raise ValueError.

Definition set_col (a : Arr F) (j : nat) (v : list F) : Arr F :=
  mkArr (ncols a) (zip_with (λ r x, <[j := x]> r) (rows a) v).

(** [a[:, j] = v] where [v] has shape [(1, K)]: the value is broadcast to
    the column. *)
Definition assign_col (a : Arr F) (j : nat) (v : list F) : res (Arr F) :=
  if decide (length v = nrows a) then Ok (set_col a j v)
  else if decide (length v = 1)
       then Ok (set_col a j (replicate (nrows a) (default f0 (head v))))
  else Raise ValueError.

Definition store_col (l j : nat) (v : list F) : M (Heap F) unit :=
  λ h, match assign_col (deref h l) j v with
       | Ok a' => (Ok tt, <[l := a']> h)
       | Raise e => (Raise e, h)
       end.

(** *** [rotateTensor2D(t, theta)] (lines 638-660)

    [t] is the array object the caller passes (in [integrate], the view
    [obj.data[:, 0:3]]); [theta] is the one row of an angle array of shape
    [(1, M)].  The three right-hand sides are evaluated left to right, as
    Python does. *)

(** [t[:,0]*np.cos(theta)**2 + t[:,1]*np.sin(theta)**2
     + t[:,2]*np.sin(2*theta[:])] *)
Definition rotated_xx (t : View) (theta : list F) : M (Heap F) (list F) :=
  c0 ← view_col t 0;
  p0 ← lift_res (bop fmul c0 (map (λ x, fsqr (fcos x)) theta));
  c1 ← view_col t 1;
  p1 ← lift_res (bop fmul c1 (map (λ x, fsqr (fsin x)) theta));
  s1 ← lift_res (bop fadd p0 p1);
  c2 ← view_col t 2;
  p2 ← lift_res (bop fmul c2 (map (λ x, fsin (fmul f2 x)) theta));
  lift_res (bop fadd s1 p2).

(** [t[:,0]*np.sin(theta)**2 + t[:,1]*np.cos(theta)**2
     - t[:,2]*np.sin(2*theta[:])] *)
Definition rotated_yy (t : View) (theta : list F) : M (Heap F) (list F) :=
  c0 ← view_col t 0;
  p0 ← lift_res (bop fmul c0 (map (λ x, fsqr (fsin x)) theta));
  c1 ← view_col t 1;
  p1 ← lift_res (bop fmul c1 (map (λ x, fsqr (fcos x)) theta));
  s1 ← lift_res (bop fadd p0 p1);
  c2 ← view_col t 2;
  p2 ← lift_res (bop fmul c2 (map (λ x, fsin (fmul f2 x)) theta));
  lift_res (bop fsub s1 p2).

(** [( t[:,1] - t[:,0] ) *np.cos(theta[:])*np.sin(theta[:])
     + t[:,2]*np.cos(2*theta[:])] *)
Definition rotated_xy (t : View) (theta : list F) : M (Heap F) (list F) :=
  c1 ← view_col t 1;
  c0 ← view_col t 0;
  d ← lift_res (bop fsub c1 c0);
  p0 ← lift_res (bop fmul d (map fcos theta));
  p1 ← lift_res (bop fmul p0 (map fsin theta));
  c2 ← view_col t 2;
  p2 ← lift_res (bop fmul c2 (map (λ x, fcos (fmul f2 x)) theta));
  lift_res (bop fadd p1 p2).

(** The function returns the address of the array [t_]. *)
Definition rotateTensor2D (t : View) (theta : list F) : M (Heap F) nat :=
  (* t_ = t.copy() *)
  a ← read_view t;
  t_ ← alloc a;
  (* t_[:,0] = ... *)
  v ← rotated_xx t theta;
  store_col t_ 0 v;;
  (* t_[:,1] = ... *)
  v ← rotated_yy t theta;
  store_col t_ 1 v;;
  (* t_[:,2] = ... *)
  v ← rotated_xy t theta;
  store_col t_ 2 v;;
  (* return t_ *)
  ret t_.

(** What the three assignments compute for one marker, whose row is
    [xx; yy; xy; ...] and whose angle is [θ]. *)
Definition rot_xx (r : list F) (θ : F) : F :=
  fadd (fadd (fmul (default f0 (r !! 0)) (fsqr (fcos θ)))
             (fmul (default f0 (r !! 1)) (fsqr (fsin θ))))
       (fmul (default f0 (r !! 2)) (fsin (fmul f2 θ))).

Definition rot_yy (r : list F) (θ : F) : F :=
  fsub (fadd (fmul (default f0 (r !! 0)) (fsqr (fsin θ)))
             (fmul (default f0 (r !! 1)) (fsqr (fcos θ))))
       (fmul (default f0 (r !! 2)) (fsin (fmul f2 θ))).

Definition rot_xy (r : list F) (θ : F) : F :=
  fadd (fmul (fmul (fsub (default f0 (r !! 1)) (default f0 (r !! 0)))
                   (fcos θ))
             (fsin θ))
       (fmul (default f0 (r !! 2)) (fcos (fmul f2 θ))).

Definition rotate_row (r : list F) (θ : F) : list F :=
  <[2 := rot_xy r θ]> (<[1 := rot_yy r θ]> (<[0 := rot_xx r θ]> r)).

(** The rotation law on every row. *)
Definition rotated (a : Arr F) (theta : list F) : Arr F :=
  mkArr (ncols a) (zip_with rotate_row (rows a) theta).

End Numpy.

(** ** Marker identities

    [__init__] builds one structured element [(rank, index)] of two int32
    fields per marker and stores [pairs.view(np.int64)]: the eight bytes of
    the pair read as one signed 64-bit integer, in the byte order of the
    machine. *)

Inductive byteorder : Set := LittleEndian | BigEndian.

(** The [w] low bytes of [z] in two's complement, least significant
    first. *)
Fixpoint le_bytes (w : nat) (z : Z) : list Z :=
  match w with
  | O => []
  | S w' => (z mod 256)%Z :: le_bytes w' (z / 256)%Z
  end.

Fixpoint le_unsigned (bs : list Z) : Z :=
  match bs with
  | [] => 0%Z
  | b :: bs' => (b + 256 * le_unsigned bs')%Z
  end.

Definition to_bytes (bo : byteorder) (w : nat) (z : Z) : list Z :=
  match bo with
  | LittleEndian => le_bytes w z
  | BigEndian => reverse (le_bytes w z)
  end.

Definition signed (w : nat) (u : Z) : Z :=
  if (u <? 2 ^ (8 * Z.of_nat w - 1))%Z then u else (u - 2 ^ (8 * Z.of_nat w))%Z.

Definition of_bytes (bo : byteorder) (bs : list Z) : Z :=
  signed (length bs)
         (le_unsigned (match bo with
                       | LittleEndian => bs
                       | BigEndian => reverse bs
                       end)).

(** One element of [dtype=[("a", np.int32), ("b", np.int32)]] viewed as
    [np.int64]. *)
Definition view_int64 (bo : byteorder) (a b : Z) : Z :=
  of_bytes bo (to_bytes bo 4 a ++ to_bytes bo 4 b).

(** The values [__init__] stores in [global_index.data[:, 0]] on partition
    [rank] holding [n] local markers, once the pairs are built (see
    [fits_int32]). *)
Definition global_index_values (bo : byteorder) (rank : Z) (n : nat)
  : list Z :=
  let indices := Z.of_nat <$> seq 0 n in           (* np.arange(n) *)
  let ranks := replicate n rank in                 (* np.repeat(rank, n) *)
  let pairs := zip ranks indices in
  (λ p, view_int64 bo p.1 p.2) <$> pairs.


(** The pair as one 64-bit word: the first field is the low half on a
    little-endian machine and the high half on a big-endian one. *)
Definition word_of_pair (bo : byteorder) (a b : Z) : Z :=
  match bo with
  | LittleEndian => (a mod 2 ^ 32 + 2 ^ 32 * (b mod 2 ^ 32))%Z
  | BigEndian => (b mod 2 ^ 32 + 2 ^ 32 * (a mod 2 ^ 32))%Z
  end.

(** The range of an int32 field. *)
Definition int32 (z : Z) : Prop := (- 2 ^ 31 ≤ z < 2 ^ 31)%Z.

#[export] Instance int32_dec (z : Z) : Decision (int32 z).
Proof. unfold int32. apply _. Defined.

(** [list(zip(ranks, indices))] for [n] local markers. *)
Definition identity_pairs (rank : Z) (n : nat) : list (Z * Z) :=
  zip (replicate n rank) (Z.of_nat <$> seq 0 n).

(** [np.array(pairs, dtype=[("a", np.int32), ("b", np.int32)])] takes the
    pairs whose two values are in the range of their fields; it raises
    OverflowError for any other. *)
Definition fits_int32 (pairs : list (Z * Z)) : Prop :=
  Forall (λ p, int32 p.1 ∧ int32 p.2) pairs.

#[export] Instance fits_int32_dec (pairs : list (Z * Z)) :
  Decision (fits_int32 pairs).
Proof. unfold fits_int32. apply _. Defined.


(** ** The state of a tracer set

    Underworld functions are compared by identity ([value == field["value"]]);
    [AngularVelocity] is the function [__init__] builds from the velocity
    gradient, [UserFn] a function of the caller. *)

Inductive Fn : Set :=
| AngularVelocity
| UserFn (id : nat).

#[export] Instance Fn_eq_dec : EqDecision Fn.
Proof. solve_decision. Defined.

(** The argument [value] of [add_tracked_field]: an Underworld function or
    any other object. *)
Inductive pyvalue : Set :=
| PyFunction (f : Fn)
| PyObject.

(** A swarm variable: its metadata and the address of its [data] array. *)
Record SwarmVariable : Set :=
  mkVar { var_dataType : string; var_count : nat; var_data : nat }.

(** An entry of [self.tracked_field], a dict with these five keys. *)
Record Field : Set := mkField {
  field_value : Fn;
  field_name : string;
  field_units : string;
  field_timeIntegration : bool;
  field_dataType : string
}.

(** Files: an HDF5 container is the length of each of its datasets. *)
Inductive file : Type :=
| H5File (datasets : gmap string nat)
| TextFile (content : string).

(** Collective and I/O steps, in the order a partition performs them. *)
Inductive event : Set :=
| Barrier
| SwarmSave (path : string)
| VariableSave (path : string)
| OpenRead (path : string)
| WriteText (path content : string).

(** The attributes of the [PassiveTracers] instance.  [mesh] is the
    attribute [self.mesh]: [None] while the instance has no such
    attribute.  [attrs] holds the attributes bound by
    [setattr(self, name, svar)]; the model keeps them apart from the
    attributes the class itself defines, see [own_attributes]. *)
Record Tracers : Type := mkTracers {
  name : string;
  zOnly : bool;
  particleEscape : bool;
  mesh : option nat;
  tracked_field : list Field;
  attrs : gmap string SwarmVariable
}.

(** The swarm: [mesh_dim] is [swarm.mesh.dim], [global_index] the column
    [self.global_index.data[:, 0]], [variables] the variables created by
    [swarm.add_variable] for tracked fields. *)
Record Swarm (F : Type) : Type := mkSwarm {
  mesh_dim : nat;
  particleCoordinates : list (list F);
  global_index : list Z;
  variables : list SwarmVariable
}.
Arguments mkSwarm {F} mesh_dim particleCoordinates global_index variables.
Arguments mesh_dim {F} s.
Arguments particleCoordinates {F} s.
Arguments global_index {F} s.
Arguments variables {F} s.

(** [velocityField] is [self.velocityField.data], the array shared with
    the rest of the program. *)
Record State (F : Type) : Type := mkState {
  self : Tracers;
  velocityField : Arr F;
  swarm : Swarm F;
  heap : Heap F;
  files : gmap string file;
  trace : list event
}.
Arguments mkState {F} self velocityField swarm heap files trace.
Arguments self {F} s.
Arguments velocityField {F} s.
Arguments swarm {F} s.
Arguments heap {F} s.
Arguments files {F} s.
Arguments trace {F} s.

Definition particleLocalCount {F : Type} (sw : Swarm F) : nat :=
  length (particleCoordinates sw).

Definition set_self {F : Type} (f : Tracers → Tracers) (s : State F)
  : State F :=
  mkState (f (self s)) (velocityField s) (swarm s) (heap s) (files s)
          (trace s).

Definition set_velocityField {F : Type} (f : Arr F → Arr F) (s : State F)
  : State F :=
  mkState (self s) (f (velocityField s)) (swarm s) (heap s) (files s)
          (trace s).

Definition set_swarm {F : Type} (f : Swarm F → Swarm F) (s : State F)
  : State F :=
  mkState (self s) (velocityField s) (f (swarm s)) (heap s) (files s)
          (trace s).

Definition set_heap {F : Type} (f : Heap F → Heap F) (s : State F)
  : State F :=
  mkState (self s) (velocityField s) (swarm s) (f (heap s)) (files s)
          (trace s).

Definition set_files {F : Type} (f : gmap string file → gmap string file)
    (s : State F) : State F :=
  mkState (self s) (velocityField s) (swarm s) (heap s) (f (files s))
          (trace s).

(** Events are appended at the end of the trace.  [Barrier] is recorded
    when the partition enters [comm.Barrier()]; the call returns once every
    partition has entered it, which the state of one partition does not
    tell, and the model lets it return. *)
Definition logged {F : Type} (evs : list event) (s : State F) : State F :=
  mkState (self s) (velocityField s) (swarm s) (heap s) (files s)
          (trace s ++ evs).

Definition log {F : Type} (e : event) : M (State F) unit :=
  modify (logged [e]).

(** A statement on arrays run on the arrays of the state. *)
Definition on_heap {F A : Type} (m : M (Heap F) A) : M (State F) A :=
  λ s, let '(r, h') := m (heap s) in (r, set_heap (λ _, h') s).

(** A statement that changes nothing but arrays. *)
Definition heap_only {F A : Type} (m : M (State F) A) : Prop :=
  ∀ s, ∃ h', (m s).2 = set_heap (λ _, h') s.

(** [for x in l: body(x)] *)
Fixpoint for_each {S A : Type} (body : A → M S unit) (l : list A)
  : M S unit :=
  match l with
  | [] => mret tt
  | x :: l' => body x;; for_each body l'
  end.

(** What the advector reads and rewrites of the swarm: the coordinates and
    the data of every variable attached to it. *)
Record SwarmData (F : Type) : Type := mkSwarmData {
  sd_coords : list (list F);
  sd_ids : list Z;
  sd_vars : list (Arr F)
}.
Arguments mkSwarmData {F} sd_coords sd_ids sd_vars.
Arguments sd_coords {F} s.
Arguments sd_ids {F} s.
Arguments sd_vars {F} s.

(** ** Collaborators

    Underworld, the unit scaling, MPI, h5py and the file system are given
    by their interface. *)
Class Externals (F : Type) : Type := {
  (** [comm.rank] *)
  rank : nat;
  (** byte order of the machine *)
  byte_order : byteorder;
  (** [nonDimensionalize], element by element *)
  nd : F → F;
  (** [Swarm.add_particles_with_coordinates] keeps the points that lie in
      the domain of the partition *)
  in_local_domain : list F → bool;
  (** the data types a variable of the swarm can have.  [Swarm] is the
      class of the package's [Underworld_extended], which is not part of
      this file; it adds the type of the identities, which the constructor
      asks for *)
  supported_dataType : string → bool;
  supported_long : supported_dataType "long" = true;
  (** what the memory of a new swarm variable holds before it is written *)
  uninitialised : F;
  (** [SwarmAdvector.integrate(dt)]: reads the velocity field, rewrites the
      swarm, and may raise *)
  advector_integrate : Arr F → F → SwarmData F → option exn * SwarmData F;
  (** [MeshVariable.syncronise()]: the array of this partition after the
      exchange with its neighbours *)
  syncronise : Arr F → Arr F;
  (** [Function.evaluate(self.swarm)]: a function reads the velocity field
      and the swarm *)
  evaluate : Fn → Arr F → SwarmData F → Arr F;
  (** [os.path.join] *)
  path_join : string → string → string;
  (** datasets of the container left by [swarm.save] and by
      [SwarmVariable.save] *)
  swarm_save_datasets : SwarmData F → gmap string nat;
  variable_save_datasets : SwarmData F → string → gmap string nat;
  (** [uw.utils._xdmfheader], [_swarmspacetimeschema], [_swarmvarschema],
      [_xdmffooter]; a save handle is the path it saved to *)
  xdmfheader : string;
  swarmspacetimeschema : string → string → F → string;
  swarmvarschema : string → string → string;
  xdmffooter : string
}.

(** A seed coordinate of one dimension: a scalar or a one-dimensional
    array. *)
Inductive coord (F : Type) : Type :=
| Scalar (x : F)
| Vector (xs : list F).
Arguments Scalar {F} x.
Arguments Vector {F} xs.

(** The names the class itself binds on an instance.  A tracked field
    registered under one of them would make [setattr] replace that
    attribute or method; the model does not follow such a call, and the
    properties of [add_tracked_field] are stated for the other names. *)
Definition own_attributes : list string :=
  ["name"; "velocityField"; "angular_velocity"; "particleEscape"; "zOnly";
   "swarm"; "advector"; "global_index"; "tracked_field"; "mesh";
   "integrate"; "add_tracked_field"; "save"].

(** The attributes of every instance that [setattr] does not bind to a
    swarm variable: [__class__] takes a class and [__dict__] a dictionary
    (TypeError otherwise), [__weakref__] cannot be written
    (AttributeError). *)
Definition setattr_error (nm : string) : option exn :=
  if decide (nm = "__class__") then Some TypeError
  else if decide (nm = "__dict__") then Some TypeError
  else if decide (nm = "__weakref__") then Some AttributeError
  else None.

Definition tab : string := String "009"%char EmptyString.
Definition newline : string := String "010"%char EmptyString.
Definition dquote : string := String "034"%char EmptyString.

Section Tracers.
Context {F : Type} {ops : FloatOps F} {ext : Externals F}.

(** *** [__init__]: seeding and identities (lines 60-94) *)

Definition coord_nd (c : coord F) : coord F :=
  match c with
  | Scalar x => Scalar (nd x)
  | Vector xs => Vector (nd <$> xs)
  end.

(** [np.array(x).size] *)
Definition coord_size (c : coord F) : nat :=
  match c with
  | Scalar _ => 1
  | Vector xs => length xs
  end.

(** The value [points[:, dim] = vertices[dim]] writes in a column of [m]
    rows: numpy broadcasts a scalar or a one-element array and copies an
    array of [m] elements; any other length is a ValueError. *)
Definition column_value (m : nat) (c : coord F) : res (list F) :=
  match c with
  | Scalar x => Ok (replicate m x)
  | Vector xs =>
      if decide (length xs = m) then Ok xs
      else if decide (length xs = 1)
           then Ok (replicate m (default f0 (head xs)))
      else Raise ValueError
  end.

(** [for dim, _ in enumerate(vertices): points[:, dim] = vertices[dim]] *)
Fixpoint fill_points (points : Arr F) (dim : nat) (vertices : list (coord F))
  : res (Arr F) :=
  match vertices with
  | [] => Ok points
  | c :: rest =>
      match column_value (nrows points) c with
      | Ok v => fill_points (set_col points dim v) (S dim) rest
      | Raise e => Raise e
      end
  end.

(** The array [points] handed to [add_particles_with_coordinates].
    [sizes.max()] of an empty [sizes] is a ValueError. *)
Definition seed_points (vertices : list (coord F)) : res (Arr F) :=
  let vertices := coord_nd <$> vertices in
  let sizes := coord_size <$> vertices in
  match sizes with
  | [] => Raise ValueError
  | _ => fill_points (zeros (max_list sizes) (length vertices)) 0 vertices
  end.

(** A dimension that numpy can broadcast to [m] markers. *)
Definition broadcastable (m : nat) (c : coord F) : Prop :=
  coord_size c = m ∨ coord_size c = 1.

#[export] Instance broadcastable_dec (m : nat) (c : coord F) :
  Decision (broadcastable m c).
Proof. unfold broadcastable. apply _. Defined.



(** [PassiveTracers(mesh, velocityField, name, vertices, particleEscape,
    zOnly=zOnly)]: [mesh] is given by its dimension and the velocity field
    by its data.  No attribute [mesh] is bound.  The pairs of partition id
    and slot are built as int32 fields, which raises OverflowError when
    one of them is out of range; the variable of the identities has the
    type long, which the swarm provides ([supported_long]). *)
Definition init (mesh_dimension : nat) (velocity : Arr F) (nm : string)
    (vertices : list (coord F)) (escape zonly : bool) : res (State F) :=
  match seed_points vertices with
  | Raise e => Raise e
  | Ok points =>
      let coords := List.filter in_local_domain (rows points) in
      if decide (fits_int32 (identity_pairs (Z.of_nat rank) (length coords)))
      then
        let ids := global_index_values byte_order (Z.of_nat rank)
                                       (length coords) in
        Ok (mkState (mkTracers nm zonly escape None [] ∅)
                    velocity
                    (mkSwarm mesh_dimension coords ids [])
                    [] ∅ [])
      else Raise OverflowError
  end.

(** *** [add_tracked_field] (lines 120-150) *)

(** What [swarm.add_variable(dataType, count=count)] refuses: a data type
    the swarm does not have is a ValueError and, for a type it has, a
    count below one is a TypeError.  Nothing is attached to the swarm
    then. *)
Definition add_variable_error (dataType : string) (count : nat)
  : option exn :=
  if negb (supported_dataType dataType) then Some ValueError
  else if decide (count < 1) then Some TypeError
  else None.

(** [swarm.add_variable(dataType, count=count)]: a new variable with one
    row per local marker, not yet initialised. *)
Definition add_variable (dataType : string) (count : nat)
  : M (State F) SwarmVariable :=
  λ s, match add_variable_error dataType count with
       | Some e => (Raise e, s)
       | None =>
           let sv := mkVar dataType count (length (heap s)) in
           let a := mkArr count
                          (replicate (particleLocalCount (swarm s))
                                     (replicate count uninitialised)) in
           (Ok sv,
            set_swarm (λ sw, mkSwarm (mesh_dim sw) (particleCoordinates sw)
                                     (global_index sw) (variables sw ++ [sv]))
                      (set_heap (λ h, h ++ [a]) s))
       end.

(** [svar.data[...] = 0.] *)
Definition fill_zero (l : nat) : M (Heap F) unit :=
  modify (λ h, let a := deref h l in
               <[l := mkArr (ncols a) (map (map (λ _, f0)) (rows a))]> h).

(** [setattr(self, name, svar)]: binds the name, unless it is one of the
    three attributes every instance has and that take no swarm variable. *)
Definition setattr (nm : string) (sv : SwarmVariable) : M (State F) unit :=
  match setattr_error nm with
  | Some e => raise e
  | None =>
      modify (set_self (λ t, mkTracers (name t) (zOnly t) (particleEscape t)
                                       (mesh t) (tracked_field t)
                                       (<[nm := sv]> (attrs t))))
  end.

(** [getattr(self, name)] *)
Definition getattr (nm : string) : M (State F) SwarmVariable :=
  λ s, match attrs (self s) !! nm with
       | Some sv => (Ok sv, s)
       | None => (Raise AttributeError, s)
       end.

Definition set_tracked_field (f : list Field → list Field)
  : M (State F) unit :=
  modify (set_self (λ t, mkTracers (name t) (zOnly t) (particleEscape t)
                                   (mesh t) (f (tracked_field t))
                                   (attrs t))).

(** The search of the loop [for field in self.tracked_field]: the index of
    the first entry with [name == field["name"]] or
    [value == field["value"]]. *)
Fixpoint find_tracked (nm : string) (v : Fn) (fields : list Field)
  : option nat :=
  match fields with
  | [] => None
  | field :: rest =>
      if bool_decide (nm = field_name field)
         || bool_decide (v = field_value field)
      then Some 0
      else S <$> find_tracked nm v rest
  end.

Definition add_tracked_field (value : pyvalue) (nm units dataType : string)
    (count : nat) (overwrite timeIntegration : bool) : M (State F) unit :=
  match value with
  | PyObject => raise ValueError
  | PyFunction v =>
      let entry := mkField v nm units timeIntegration dataType in
      fields ← gets (λ s : State F, tracked_field (self s));
      match find_tracked nm v fields with
      | Some i =>
          if negb overwrite then raise ValueError
          else
            set_tracked_field (λ fs, <[i := entry]> fs);;
            svar ← add_variable dataType count;
            on_heap (fill_zero (var_data svar));;
            setattr nm svar
      | None =>
          set_tracked_field (λ fs, fs ++ [entry]);;
          svar ← add_variable dataType count;
          on_heap (fill_zero (var_data svar));;
          setattr nm svar
      end
  end.

(** The state when a registration that leaves [fields] in the registry
    raises in [swarm.add_variable]: the registry is written, nothing
    else. *)
Definition refused (s : State F) (fields : list Field) : State F :=
  mkState (mkTracers (name (self s)) (zOnly (self s))
                     (particleEscape (self s)) (mesh (self s)) fields
                     (attrs (self s)))
          (velocityField s) (swarm s) (heap s) (files s) (trace s).

(** The state when it raises in [setattr]: the new variable, zero
    everywhere, is attached to the swarm and no attribute is bound to
    it. *)
Definition unbound (s : State F) (fields : list Field)
    (dataType : string) (count : nat) : State F :=
  let svar := mkVar dataType count (length (heap s)) in
  mkState (mkTracers (name (self s)) (zOnly (self s))
                     (particleEscape (self s)) (mesh (self s)) fields
                     (attrs (self s)))
          (velocityField s)
          (mkSwarm (mesh_dim (swarm s)) (particleCoordinates (swarm s))
                   (global_index (swarm s)) (variables (swarm s) ++ [svar]))
          (heap s ++ [zeros (particleLocalCount (swarm s)) count])
          (files s) (trace s).

(** The state after a registration that leaves [fields] in the registry:
    one new variable of [count] columns, zero everywhere, attached to the
    swarm and bound to the attribute [nm]. *)
Definition registered (s : State F) (fields : list Field)
    (nm dataType : string) (count : nat) : State F :=
  let svar := mkVar dataType count (length (heap s)) in
  mkState (mkTracers (name (self s)) (zOnly (self s))
                     (particleEscape (self s)) (mesh (self s)) fields
                     (<[nm := svar]> (attrs (self s))))
          (velocityField s)
          (mkSwarm (mesh_dim (swarm s)) (particleCoordinates (swarm s))
                   (global_index (swarm s)) (variables (swarm s) ++ [svar]))
          (heap s ++ [zeros (particleLocalCount (swarm s)) count])
          (files s) (trace s).

(** The outcome of the three statements that end a registration. *)
Definition registration (s : State F) (fields : list Field)
    (nm dataType : string) (count : nat) : res unit * State F :=
  match add_variable_error dataType count with
  | Some e => (Raise e, refused s fields)
  | None =>
      match setattr_error nm with
      | Some e => (Raise e, unbound s fields dataType count)
      | None => (Ok tt, registered s fields nm dataType count)
      end
  end.

(** *** [integrate] (lines 96-118) *)

(** [data[:, :-1] = 0.] *)
Definition zero_nonlast (a : Arr F) : Arr F :=
  mkArr (ncols a)
        (map (λ r, replicate (length r - 1) f0 ++ drop (length r - 1) r)
             (rows a)).

Definition swarm_data (s : State F) : SwarmData F :=
  mkSwarmData (particleCoordinates (swarm s)) (global_index (swarm s))
              ((λ v, deref (heap s) (var_data v)) <$> variables (swarm s)).

(** [fn.evaluate(self.swarm)] in the current state *)
Definition evaluate_on_swarm (fn : Fn) : M (State F) (Arr F) :=
  gets (λ s : State F, evaluate fn (velocityField s) (swarm_data s)).

Definition write_back (locs : list nat) (arrs : list (Arr F)) (h : Heap F)
  : Heap F :=
  foldr (λ la h', <[la.1 := la.2]> h') h (zip locs arrs).

Definition put_swarm_data (sd : SwarmData F) (s : State F) : State F :=
  set_heap (write_back (var_data <$> variables (swarm s)) (sd_vars sd))
    (set_swarm (λ sw, mkSwarm (mesh_dim sw) (sd_coords sd) (sd_ids sd)
                              (variables sw)) s).

(** [self.advector.integrate(dt, **kwargs)] *)
Definition advect (dt : F) : M (State F) unit :=
  λ s, let '(e, sd) := advector_integrate (velocityField s) dt
                                          (swarm_data s) in
       match e with
       | None => (Ok tt, put_swarm_data sd s)
       | Some x => (Raise x, put_swarm_data sd s)
       end.

(** The right-hand side of an assignment to a target of [n] rows and [w]
    columns, after numpy's broadcasting. *)
Definition broadcast_to (n w : nat) (x : Arr F) : res (list (list F)) :=
  if decide ((ncols x = w ∨ ncols x = 1) ∧ (nrows x = n ∨ nrows x = 1))
  then
    let wide := if decide (ncols x = w) then rows x
                else map (λ r, replicate w (default f0 (head r))) (rows x) in
    Ok (if decide (nrows x = n) then wide
        else replicate n (default [] (head wide)))
  else Raise ValueError.

(** [a[:, lo:hi] += x] *)
Definition iadd_view (t : View) (x : Arr F) : M (Heap F) unit :=
  λ h, let a := deref h (v_base t) in
       let w := view_ncols a t in
       match broadcast_to (nrows a) w x with
       | Ok xr =>
           (Ok tt,
            <[v_base t :=
                mkArr (ncols a)
                  (zip_with (λ r xrow,
                               take (v_lo t) r
                               ++ zip_with fadd (take w (drop (v_lo t) r)) xrow
                               ++ drop (v_lo t + w) r)
                            (rows a) xr)]> h)
       | Raise e => (Raise e, h)
       end.

(** [a[...] += x] *)
Definition iadd (l : nat) (x : Arr F) : M (Heap F) unit :=
  λ h, iadd_view (mkView l 0 (ncols (deref h l))) x h.

(** [a[...] = x] *)
Definition assign (l : nat) (x : Arr F) : M (Heap F) unit :=
  λ h, let a := deref h l in
       match broadcast_to (nrows a) (ncols a) x with
       | Ok xr => (Ok tt, <[l := mkArr (ncols a) xr]> h)
       | Raise e => (Raise e, h)
       end.

(** [x * dt] and [dt * x] *)
Definition scale_r (x : Arr F) (dt : F) : Arr F :=
  mkArr (ncols x) (map (map (λ v, fmul v dt)) (rows x)).

(** The array [a] after [a[:, 0:k] += x] for an [x] of the shape of the
    target. *)
Definition add_columns (k : nat) (a x : Arr F) : Arr F :=
  mkArr (ncols a)
        (zip_with (λ r xr, zip_with fadd (take k r) xr ++ drop k r)
                  (rows a) (rows x)).

(** Every variable of the swarm has its array in memory. *)
Definition variables_allocated (s : State F) : Prop :=
  Forall (λ v, var_data v < length (heap s)) (variables (swarm s)).

(** [self.mesh]: AttributeError while the instance has no such attribute. *)
Definition self_mesh : M (State F) nat :=
  λ s, match mesh (self s) with
       | Some d => (Ok d, s)
       | None => (Raise AttributeError, s)
       end.

(** The body of [for field in self.tracked_field] in [integrate]. *)
Definition integrate_field (dt : F) (field : Field) : M (State F) unit :=
  if field_timeIntegration field then
    obj ← getattr (field_name field);
    dim ← self_mesh;
    a ← gets (λ s : State F, deref (heap s) (var_data obj));
    if bool_decide (dim = 2) && bool_decide (2 < ncols a) then
      (* dtheta = dt * ang_vel.evaluate(self.swarm).reshape(1, -1) *)
      ang ← evaluate_on_swarm AngularVelocity;
      let dtheta := map (fmul dt) (concat (rows ang)) in
      (* rotateTensor2D(obj.data[:, 0:3], dtheta) *)
      on_heap (rotateTensor2D (mkView (var_data obj) 0 3) dtheta);;
      (* obj.data[:, 0:3] += field["value"].evaluate(self.swarm) *)
      x ← evaluate_on_swarm (field_value field);
      on_heap (iadd_view (mkView (var_data obj) 0 3) x)
    else
      (* obj.data[...] += field["value"].evaluate(self.swarm) * dt *)
      x ← evaluate_on_swarm (field_value field);
      on_heap (iadd (var_data obj) (scale_r x dt))
  else mret tt.

(** The first statement of [integrate], [if self.zOnly: ... else: ...].
    The saved array and the array of the field have the same shape, that
    of the mesh variable. *)
Definition advection_step (dt : F) : M (State F) unit :=
  zo ← gets (λ s : State F, zOnly (self s));
  if (zo : bool) then
    (* saved_velocities = np.copy(self.velocityField.data) *)
    saved_velocities ← gets velocityField;
    (* self.velocityField.data[:, :-1] = 0. *)
    modify (set_velocityField zero_nonlast);;
    modify (set_velocityField syncronise);;
    advect dt;;
    (* self.velocityField.data[...] = saved_velocities *)
    modify (set_velocityField (λ _, saved_velocities));;
    modify (set_velocityField syncronise)
  else
    advect dt.

Definition integrate (dt : F) : M (State F) unit :=
  advection_step dt;;
  (* Integrate tracked field variables over time *)
  fields ← gets (λ s : State F, tracked_field (self s));
  for_each (integrate_field dt) fields.

(** *** [save] (lines 152-220) *)

(** [self.swarm.save(path, ...)] and [variable.save(path, ...)]: the
    collective write of one container; the handle returned is the path. *)
Definition swarm_save (path : string) : M (State F) string :=
  log (SwarmSave path);;
  modify (λ s : State F,
            set_files (<[path := H5File (swarm_save_datasets (swarm_data s))]>)
                      s);;
  mret path.

Definition variable_save (path : string) : M (State F) string :=
  log (VariableSave path);;
  modify (λ s : State F,
            set_files
              (<[path := H5File (variable_save_datasets (swarm_data s) path)]>)
              s);;
  mret path.

(** [open(filename, "w")], [write], [close] *)
Definition write_text (path content : string) : M (State F) unit :=
  log (WriteText path content);;
  modify (set_files (<[path := TextFile content]>)).

(** The container of one tracked field. *)
Definition field_path (nm outputDir checkpointID : string) (field : Field)
  : string :=
  path_join outputDir
            (nm +:+ "_" +:+ field_name field +:+ "-" +:+ checkpointID)
  +:+ ".h5".

(** The body of [for field in self.tracked_field] in [save]; [text] is
    the variable [string], the descriptor text, which only partition 0
    builds. *)
Definition save_field (outputDir checkpointID : string) (text : string)
    (field : Field) : M (State F) string :=
  nm ← gets (λ s : State F, name (self s));
  obj ← getattr (field_name field);
  (if negb (field_timeIntegration field) then
     (* obj.data[...] = field["value"].evaluate(self.swarm) *)
     x ← evaluate_on_swarm (field_value field);
     on_heap (assign (var_data obj) x)
   else mret tt);;
  handle ← variable_save (field_path nm outputDir checkpointID field);
  mret (if decide (rank = 0)
        then text +:+ swarmvarschema handle (field_name field)
        else text).

Fixpoint save_fields (outputDir checkpointID : string) (text : string)
    (fields : list Field) : M (State F) string :=
  match fields with
  | [] => mret text
  | field :: rest =>
      text' ← save_field outputDir checkpointID text field;
      save_fields outputDir checkpointID text' rest
  end.

(** The coordinates attribute of the descriptor. *)
Definition coordinates_attribute (globalCount dim : nat)
    (swarm_fname : string) : string :=
  tab +:+ "<Attribute Type=" +:+ dquote +:+ "Vector" +:+ dquote
      +:+ " Center=" +:+ dquote +:+ "Node" +:+ dquote
      +:+ " Name=" +:+ dquote +:+ "Coordinates" +:+ dquote +:+ ">"
      +:+ newline
  +:+ tab +:+ tab +:+ tab +:+ "<DataItem Format=" +:+ dquote +:+ "HDF"
      +:+ dquote +:+ " NumberType=" +:+ dquote +:+ " Float" +:+ dquote
      +:+ newline +:+ "                         Precision=" +:+ dquote
      +:+ "8" +:+ dquote +:+ " Dimensions=" +:+ dquote
      +:+ pretty globalCount +:+ " " +:+ pretty dim +:+ dquote +:+ ">"
      +:+ swarm_fname +:+ ":/data</DataItem>" +:+ newline
  +:+ tab +:+ "</Attribute>" +:+ newline.

(** The names [save] derives from the tracer set and the checkpoint. *)
Definition swarm_fname (nm checkpointID : string) : string :=
  nm +:+ "-" +:+ checkpointID +:+ ".h5".

Definition swarm_fpath (nm outputDir checkpointID : string) : string :=
  path_join outputDir (swarm_fname nm checkpointID).

Definition xdmf_filename (nm outputDir checkpointID : string) : string :=
  path_join outputDir (nm +:+ "-" +:+ checkpointID +:+ ".xdmf").

Definition global_index_path (nm outputDir checkpointID : string) : string :=
  path_join outputDir (nm +:+ "_global_index-" +:+ checkpointID) +:+ ".h5".

(** [save] up to the barrier behind the loop over the fields: all the
    datasets are written.  The result is the descriptor text built so
    far. *)
Definition save_datasets (outputDir checkpointID : string) (time : F)
  : M (State F) string :=
  nm ← gets (λ s : State F, name (self s));
  (* Save the swarm *)
  sH ← swarm_save (swarm_fpath nm outputDir checkpointID);
  let text :=
    if decide (rank = 0)
    then xdmfheader
         +:+ swarmspacetimeschema sH (swarm_fname nm checkpointID) time
    else EmptyString in
  log Barrier;;
  (* Save global index *)
  handle ← variable_save (global_index_path nm outputDir checkpointID);
  let text :=
    if decide (rank = 0)
    then text +:+ swarmvarschema handle "global_index"
    else text in
  log Barrier;;
  (* Save each tracked field *)
  fields ← gets (λ s : State F, tracked_field (self s));
  text ← save_fields outputDir checkpointID text fields;
  log Barrier;;
  mret text.

(** The end of [save] on partition 0: reopen the swarm container, read the
    length of its dataset 'data', finish and write the descriptor. *)
Definition finish_descriptor (outputDir checkpointID : string)
    (text : string) : M (State F) unit :=
  nm ← gets (λ s : State F, name (self s));
  log (OpenRead (swarm_fpath nm outputDir checkpointID));;
  fl ← gets files;
  match fl !! swarm_fpath nm outputDir checkpointID with
  | Some (H5File h5f) =>
      match h5f !! "data" with
      | None => raise RuntimeError
      | Some globalCount =>
          dim ← gets (λ s : State F, mesh_dim (swarm s));
          let text :=
            text +:+ coordinates_attribute globalCount dim
                                           (swarm_fname nm checkpointID) in
          let text := text +:+ xdmffooter in
          write_text (xdmf_filename nm outputDir checkpointID) text
      end
  | _ => raise IOError
  end.

(** On the partitions other than 0 the last barrier returns only if
    partition 0 reaches it, that is if it did not raise while finishing
    the descriptor; what is stated about these partitions is their trace,
    not the outcome of the call. *)
Definition save (outputDir checkpointID : string) (time : F)
  : M (State F) unit :=
  text ← save_datasets outputDir checkpointID time;
  (if decide (rank = 0)
   then finish_descriptor outputDir checkpointID text
   else mret tt);;
  log Barrier.

(** The descriptor text after the schema entries of [fields]. *)
Definition with_schemas (nm outputDir checkpointID : string) (text : string)
    (fields : list Field) : string :=
  foldl (λ text field,
           text +:+ swarmvarschema
                      (field_path nm outputDir checkpointID field)
                      (field_name field))
        text fields.

(** The descriptor text before the coordinates attribute, as partition 0
    builds it. *)
Definition descriptor_schemas (nm outputDir checkpointID : string) (time : F)
    (fields : list Field) : string :=
  with_schemas nm outputDir checkpointID
    ((xdmfheader
      +:+ swarmspacetimeschema (swarm_fpath nm outputDir checkpointID)
                               (swarm_fname nm checkpointID) time)
     +:+ swarmvarschema (global_index_path nm outputDir checkpointID)
                        "global_index")
    fields.

(** The events of the part of [save] that writes the datasets. *)
Definition dataset_events (nm outputDir checkpointID : string)
    (written : list Field) : list event :=
  [SwarmSave (swarm_fpath nm outputDir checkpointID); Barrier;
   VariableSave (global_index_path nm outputDir checkpointID); Barrier]
  ++ ((λ f, VariableSave (field_path nm outputDir checkpointID f))
      <$> written).

(** The descriptor partition 0 writes. *)
Definition descriptor (nm outputDir checkpointID : string) (text : string)
    (globalCount dim : nat) : string :=
  (text +:+ coordinates_attribute globalCount dim
                                   (swarm_fname nm checkpointID))
  +:+ xdmffooter.

(** A path that holds an HDF5 container. *)
Definition is_h5 (fl : gmap string file) (p : string) : Prop :=
  ∃ d, fl !! p = Some (H5File d).

(** The events of writing datasets. *)
Definition dataset_event (e : event) : Prop :=
  e = Barrier ∨ ∃ p, e = SwarmSave p ∨ e = VariableSave p.

End Tracers.

(** ** Further operations on doubles

    What the other utilities of the file need besides [FloatOps]; again no
    law is assumed.  [flt] and [fle] are the comparisons [<] and [<=],
    [fsum] is [np.sum]. *)
Class FloatMore (F : Type) := {
  f1 : F;                      (* the literal [1.], the elements of [np.ones] *)
  fhalf : F;                   (* the literal [0.5] *)
  fneg : F → F;
  fdiv : F → F → F;
  fabs : F → F;                (* [np.abs] *)
  flt : F → F → bool;
  fle : F → F → bool;
  feq : F → F → bool;          (* [==] *)
  fsum : list F → F;
  f_of_nat : nat → F;          (* an integer as a double *)
  fradians : F → F;            (* [np.radians] *)
  fsqrt : F → F;               (* [np.sqrt] *)
  (* [np.arange(start, stop, step)], which raises when it cannot work
     out a length from [(stop - start) / step], as for a step of zero *)
  farange : F → F → F → res (list F)
}.

#[export] Instance Rlt_decision (x y : R) : Decision (x < y)%R := Rlt_dec x y.
#[export] Instance Rle_decision (x y : R) : Decision (x <= y)%R := Rle_dec x y.

#[export] Instance Req_decision : EqDecision R := Req_dec_T.

#[export] Instance R_more : FloatMore R := {|
  f1 := 1%R; fhalf := (1 / 2)%R;
  fneg := Ropp; fdiv := Rdiv; fabs := Rabs;
  flt := λ x y, bool_decide (x < y)%R;
  fle := λ x y, bool_decide (x <= y)%R;
  feq := λ x y, bool_decide (x = y);
  fsum := foldr Rplus 0%R;
  f_of_nat := INR;
  fradians := λ x, (x * (PI / 180))%R;
  fsqrt := sqrt;
  farange := λ start stop step,
    if decide (step = 0%R) then Raise ZeroDivisionError
    else Ok ((λ i, start + INR i * step)%R
             <$> seq 0 (Z.to_nat (1 - up (- ((stop - start) / step)))))
|}.

(** ** [Balanced_InflowOutflow] (lines 223-325)

    The attributes [__init__] stores.  [bf_nitmax] is stored and never
    read. *)
Record Balanced_InflowOutflow (F : Type) : Type := mkBalanced {
  bf_vtop : F;
  bf_top : F;
  bf_pt1 : F;
  bf_pt2 : F;
  bf_ynodes : list F;
  bf_tol : F;
  bf_nitmax : Z;
  bf_nitmin : Z;
  bf_default_vel : F
}.
Arguments mkBalanced {F} bf_vtop bf_top bf_pt1 bf_pt2 bf_ynodes bf_tol
  bf_nitmax bf_nitmin bf_default_vel.
Arguments bf_vtop {F} b.
Arguments bf_top {F} b.
Arguments bf_pt1 {F} b.
Arguments bf_pt2 {F} b.
Arguments bf_ynodes {F} b.
Arguments bf_tol {F} b.
Arguments bf_nitmax {F} b.
Arguments bf_nitmin {F} b.
Arguments bf_default_vel {F} b.

Section SideFlow.
Context {F : Type} {ops : FloatOps F} {more : FloatMore F} {ext : Externals F}.

(** A value is NaN when it does not compare equal to itself. *)
Definition fisnan (x : F) : bool := negb (fle x x).

(** [np.argmin]: the index of the first smallest element, of the first
    NaN if there is one; ValueError on an empty array.  [best] is the
    smallest element so far, at index [best_i]; [i] is the index of the
    head of [xs]. *)
Fixpoint argmin_from (best_i : nat) (best : F) (i : nat) (xs : list F)
  : nat :=
  match xs with
  | [] => best_i
  | x :: rest =>
      if fisnan best then best_i
      else if negb (fle best x) then argmin_from i x (S i) rest
      else argmin_from best_i best (S i) rest
  end.

Definition argmin (xs : list F) : res nat :=
  match xs with
  | [] => Raise ValueError
  | x :: rest => Ok (argmin_from 0 x 1 rest)
  end.

(** [np.argmin((y - x)**2)] *)
Definition closest_node (y : list F) (x : F) : res nat :=
  argmin (map (λ yi, fsqr (fsub yi x)) y).

(** [np.diff(y)] *)
Definition diff (y : list F) : list F :=
  zip_with fsub (drop 1 y) (take (length y - 1) y).

(** [0.5 * (velocity[1:] + velocity[:-1]) * dy] *)
Definition side_budget (velocity dy : list F) : list F :=
  zip_with fmul
    (map (fmul fhalf)
         (zip_with fadd (drop 1 velocity)
                        (take (length velocity - 1) velocity)))
    dy.

(** [y[i]] for an index in range. *)
Definition node (y : list F) (i : nat) : F := default f0 (y !! i).

(** The body of [for i, _ in enumerate(y)]: four tests in a row, each of
    which may assign [velocity[i]]. *)
Definition side_flow_node (Vtop Vbot : F) (y : list F)
    (top_idx pt1_idx pt2_idx : nat) (velocity : list F) (i : nat) : list F :=
  let velocity :=
    if decide (top_idx < i) then <[i := f0]> velocity else velocity in
  let velocity :=
    if decide (pt1_idx ≤ i ∧ i ≤ top_idx) then <[i := Vtop]> velocity
    else velocity in
  let velocity :=
    if decide (i ≤ pt2_idx) then <[i := Vbot]> velocity else velocity in
  if decide (i < pt1_idx ∧ pt2_idx < i)
  then <[i := fadd (fmul (fdiv (fsub Vtop Vbot)
                               (fsub (node y pt1_idx) (node y pt2_idx)))
                         (fsub (node y i) (node y pt2_idx)))
                   Vbot]> velocity
  else velocity.

Definition side_flow_pass (Vtop Vbot : F) (y : list F)
    (top_idx pt1_idx pt2_idx : nat) (velocity : list F) : list F :=
  foldl (side_flow_node Vtop Vbot y top_idx pt1_idx pt2_idx) velocity
        (seq 0 (length y)).

(** [velocity[top_idx + 1:] = default_vel] *)
Definition set_above (top_idx : nat) (x : F) (velocity : list F) : list F :=
  take (S top_idx) velocity ++ replicate (length velocity - S top_idx) x.

(** The loop [while True]: [fuel] bounds the number of passes the model
    follows, and [None] is a loop that is still running when the fuel is
    spent.  The result is the array returned and the value stored in
    [self.budget]. *)
Fixpoint side_flow_loop (fuel : nat) (Vtop tol default_vel : F) (nitmin : Z)
    (y dy : list F) (top_idx pt1_idx pt2_idx : nat)
    (Vmin Vmax : F) (N : Z) (prev velocity : list F)
  : option (list F * F) :=
  match fuel with
  | O => None
  | S fuel' =>
      let Vbot := fdiv (fadd Vmin Vmax) f2 in
      let velocity :=
        side_flow_pass Vtop Vbot y top_idx pt1_idx pt2_idx velocity in
      let budget := side_budget velocity dy in
      if flt (fabs (fsub (fsum budget) (fsum prev))) tol
         && bool_decide (nitmin < N)%Z
      then Some (set_above top_idx default_vel velocity, fsum budget)
      else
        let N := (N + 1)%Z in
        let prev := budget in
        let '(Vmin, Vmax) :=
          if flt Vtop f0
          then if flt (fsum budget) f0 then (Vmin, Vbot) else (Vbot, Vmax)
          else if flt f0 (fsum budget) then (Vmin, Vbot) else (Vbot, Vmax) in
        side_flow_loop fuel' Vtop tol default_vel nitmin y dy
                       top_idx pt1_idx pt2_idx Vmin Vmax N prev velocity
  end.

Definition _get_side_flow (fuel : nat) (self : Balanced_InflowOutflow F)
  : option (res (list F * F)) :=
  let Vtop := nd (bf_vtop self) in
  let top := nd (bf_top self) in
  let pt1 := nd (bf_pt1 self) in
  let pt2 := nd (bf_pt2 self) in
  let y := nd <$> bf_ynodes self in
  let tol := bf_tol self in
  let nitmin := bf_nitmin self in
  let default_vel := nd (bf_default_vel self) in
  (* locate index of closest node coordinates *)
  match closest_node y top with
  | Raise e => Some (Raise e)
  | Ok top_idx =>
  match closest_node y pt1 with
  | Raise e => Some (Raise e)
  | Ok pt1_idx =>
  match closest_node y pt2 with
  | Raise e => Some (Raise e)
  | Ok pt2_idx =>
      (* do some initialization *)
      let velocity := map (λ _, fmul f1 Vtop) y in
      let Vmin := fneg Vtop in
      let Vmax := f0 in
      let dy := diff y in
      let budget := side_budget velocity dy in
      let prev := budget in
      Ok <$> side_flow_loop fuel Vtop tol default_vel nitmin y dy
                            top_idx pt1_idx pt2_idx Vmin Vmax 0 prev velocity
  end end end.

(** The value one pass of the loop leaves at node [i]: the last of the
    four tests that holds decides. *)
Definition side_flow_value (Vtop Vbot : F) (y : list F)
    (top_idx pt1_idx pt2_idx : nat) (i : nat) : F :=
  if decide (i < pt1_idx ∧ pt2_idx < i)
  then fadd (fmul (fdiv (fsub Vtop Vbot)
                        (fsub (node y pt1_idx) (node y pt2_idx)))
                  (fsub (node y i) (node y pt2_idx)))
            Vbot
  else if decide (i ≤ pt2_idx) then Vbot
  else if decide (i ≤ top_idx) then Vtop
  else f0.

(** The array the call returns for the bottom velocity [Vbot] of its last
    pass. *)
Definition side_flow_result (Vtop Vbot default_vel : F) (y : list F)
    (top_idx pt1_idx pt2_idx : nat) : list F * F :=
  (map (λ i, if decide (top_idx < i) then default_vel
             else side_flow_value Vtop Vbot y top_idx pt1_idx pt2_idx i)
       (seq 0 (length y)),
   fsum (side_budget
           (map (side_flow_value Vtop Vbot y top_idx pt1_idx pt2_idx)
                (seq 0 (length y)))
           (diff y))).

End SideFlow.

(** ** Points on circles and spheres (lines 418-440) *)

Section Points.
Context {F : Type} {ops : FloatOps F} {more : FloatMore F} {ext : Externals F}.

(** [np.linspace(start, stop, num)] for doubles [start] and [stop]: the
    samples [i * step + start], the last one replaced by [stop]. *)
Definition linspace (start stop : F) (num : nat) : list F :=
  let div := num - 1 in
  let delta := fsub stop start in
  let y := f_of_nat <$> seq 0 num in
  let y :=
    if decide (0 < div) then
      let step := fdiv delta (f_of_nat div) in
      if feq step f0
      then (λ v, fmul (fdiv v (f_of_nat div)) delta) <$> y
      else (λ v, fmul v step) <$> y
    else (λ v, fmul v delta) <$> y in
  let y := (λ v, fadd v start) <$> y in
  if decide (1 < num) then <[num - 1 := stop]> y else y.

(** [centre[i]] of a tuple *)
Definition item (centre : list F) (i : nat) : res F :=
  match centre !! i with
  | Some x => Ok x
  | None => Raise IndexError
  end.

(** [circle_points_tracers(radius, centre, npoints)] *)
Definition circle_points_tracers (radius : F) (centre : list F)
    (npoints : nat) : res (list F * list F) :=
  let angles := linspace f0 (f_of_nat 360) npoints in
  let radius := nd radius in
  match item centre 0 with
  | Raise e => Raise e
  | Ok c0 =>
      let x := (λ a, fadd (fmul radius (fcos (fradians a))) (nd c0))
               <$> angles in
      match item centre 1 with
      | Raise e => Raise e
      | Ok c1 =>
          let y := (λ a, fadd (fmul radius (fsin (fradians a))) (nd c1))
                   <$> angles in
          Ok (x, y)
      end
  end.

(** [a, b = np.meshgrid(a, b)] followed by [a.ravel()] and [b.ravel()]:
    one row per element of [b], one column per element of [a]. *)
Definition meshgrid_ravel (a b : list F) : list F * list F :=
  (concat ((λ _, a) <$> b), concat ((λ q, (λ _, q) <$> a) <$> b)).

(** [sphere_points_tracers(radius, centre, npoints)] *)
Definition sphere_points_tracers (radius : F) (centre : list F)
    (npoints : nat) : res (list F * list F * list F) :=
  let theta := linspace f0 (f_of_nat 180) npoints in
  let phi := linspace f0 (f_of_nat 360) npoints in
  let radius := nd radius in
  let '(theta, phi) := meshgrid_ravel theta phi in
  let x := zip_with (λ t p, fmul (fmul radius (fsin (fradians t)))
                                 (fcos (fradians p))) theta phi in
  let y := zip_with (λ t p, fmul (fmul radius (fsin (fradians t)))
                                 (fsin (fradians p))) theta phi in
  let z := (λ t, fmul radius (fcos (fradians t))) <$> theta in
  match item centre 0 with
  | Raise e => Raise e
  | Ok c0 =>
      let x := (λ v, fadd v (nd c0)) <$> x in
      match item centre 1 with
      | Raise e => Raise e
      | Ok c1 =>
          let y := (λ v, fadd v (nd c1)) <$> y in
          match item centre 2 with
          | Raise e => Raise e
          | Ok c2 =>
              let z := (λ v, fadd v (nd c2)) <$> z in
              Ok (x, y, z)
          end
      end
  end.

End Points.

(** ** [circles_grid] (lines 328-415) *)

(** What [circles_grid] returns: two arrays, three arrays, or [None] when
    [minCoord] has neither two nor three elements. *)
Inductive grid (F : Type) : Type :=
| Grid2 (x y : list F)
| Grid3 (x y z : list F)
| GridNone.
Arguments Grid2 {F} x y.
Arguments Grid3 {F} x y z.
Arguments GridNone {F}.

Section CirclesGrid.
Context {F : Type} {ops : FloatOps F} {more : FloatMore F} {ext : Externals F}.

(** [a[::2] = f(a[::2])] along the first axis: every other element, from
    the first one. *)
Definition on_even {A : Type} (f : A → A) (l : list A) : list A :=
  imap (λ i a, if Nat.even i then f a else a) l.

(** [np.meshgrid(xc, yc)]: arrays of [len(yc)] rows and [len(xc)]
    columns. *)
Definition meshgrid2 (xc yc : list F) : list (list F) * list (list F) :=
  ((λ _, xc) <$> yc, (λ y0, (λ _, y0) <$> xc) <$> yc).

(** [np.meshgrid(xc, yc, zc)]: arrays of shape
    [(len(yc), len(xc), len(zc))]. *)
Definition meshgrid3 (xc yc zc : list F)
  : list (list (list F)) * list (list (list F)) * list (list (list F)) :=
  ((λ _, (λ x0, (λ _, x0) <$> zc) <$> xc) <$> yc,
   (λ y0, (λ _, (λ _, y0) <$> zc) <$> xc) <$> yc,
   (λ _, (λ _, zc) <$> xc) <$> yc).

(** [a.ravel()] of a three-dimensional array *)
Definition ravel3 (a : list (list (list F))) : list F :=
  concat ((λ m, concat m) <$> a).

(** [(points[:, np.newaxis] + coords)[:, :, d].ravel()] for one
    coordinate [d]: every centre plus every offset, centre by centre. *)
Definition offsets_about (centres offsets : list F) : list F :=
  concat ((λ c, (λ o, fadd c o) <$> offsets) <$> centres).

(** [2. * radius * np.sqrt(3) / 2.], the spacing of the rows of
    centroids *)
Definition centroid_step (radius : F) : F :=
  fdiv (fmul (fmul f2 radius) (fsqrt (f_of_nat 3))) f2.

Definition circles_grid (radius : F) (minCoord maxCoord : list F)
    (npoints : nat) : res (grid F) :=
  if decide (length minCoord = 2) then
    (* Create points on circle *)
    let angles : list F := linspace f0 (f_of_nat 360) npoints in
    let radius := nd radius in
    let x := (λ a, fmul radius (fcos (fradians a))) <$> angles in
    let y := (λ a, fmul radius (fsin (fradians a))) <$> angles in
    (* Calculate centroids *)
    match item minCoord 0, item maxCoord 0 with
    | Raise e, _ | _, Raise e => Raise e
    | Ok min0, Ok max0 =>
    match farange (nd min0) (fadd (nd max0) radius) (fmul f2 radius) with
    | Raise e => Raise e
    | Ok xc =>
    match item minCoord 1, item maxCoord 1 with
    | Raise e, _ | _, Raise e => Raise e
    | Ok min1, Ok max1 =>
    match farange (fadd (nd min1) radius) (nd max1) (centroid_step radius)
    with
    | Raise e => Raise e
    | Ok yc =>
    let '(xc, yc) := meshgrid2 xc yc in
    (* Shift every other row by radius *)
    let xc := on_even (λ row : list F, (λ v, fadd v radius) <$> row) xc in
    (* Calculate coordinates of all circles points *)
    Ok (Grid2 (offsets_about (concat xc) x) (offsets_about (concat yc) y))
    end end end end
  else if decide (length minCoord = 3) then
    (* Create points on circle *)
    let theta : list F := linspace f0 (f_of_nat 180) npoints in
    let phi : list F := linspace f0 (f_of_nat 360) npoints in
    let radius := nd radius in
    let '(theta, phi) := meshgrid_ravel theta phi in
    let x := zip_with (λ t p, fmul (fmul radius (fsin (fradians t)))
                                   (fcos (fradians p))) theta phi in
    let y := zip_with (λ t p, fmul (fmul radius (fsin (fradians t)))
                                   (fsin (fradians p))) theta phi in
    let z := (λ t, fmul radius (fcos (fradians t))) <$> theta in
    (* Calculate centroids *)
    match item minCoord 0, item maxCoord 0 with
    | Raise e, _ | _, Raise e => Raise e
    | Ok min0, Ok max0 =>
    match farange (fadd (nd min0) radius) (fadd (nd max0) radius)
                  (fmul f2 radius)
    with
    | Raise e => Raise e
    | Ok xc =>
    match item minCoord 1, item maxCoord 1 with
    | Raise e, _ | _, Raise e => Raise e
    | Ok min1, Ok max1 =>
    match farange (fadd (nd min1) radius) (fadd (nd max1) radius)
                  (centroid_step radius)
    with
    | Raise e => Raise e
    | Ok yc =>
    match item minCoord 2, item maxCoord 2 with
    | Raise e, _ | _, Raise e => Raise e
    | Ok min2, Ok max2 =>
    match farange (fadd (nd min2) radius) (fadd (nd max2) radius)
                  (centroid_step radius)
    with
    | Raise e => Raise e
    | Ok zc =>
    let '(xc, yc, zc) := meshgrid3 xc yc zc in
    (* Shift every other row by radius *)
    let yc :=
      (λ m : list (list F),
         on_even (λ row : list F, (λ v, fadd v radius) <$> row) m) <$> yc in
    let zc :=
      on_even (λ m : list (list F),
                 (λ row : list F, (λ v, fadd v radius) <$> row) <$> m) zc in
    (* Calculate coordinates of all circles points: [coords[:, 2] = y] *)
    Ok (Grid3 (offsets_about (ravel3 xc) x)
              (offsets_about (ravel3 yc) y)
              (offsets_about (ravel3 zc) y))
    end end end end end end
  else Ok GridNone.

End CirclesGrid.

(** ** [extract_profile] (lines 599-635) *)

(** What the function needs from outside: [comm.size] and
    [scipy.interpolate.interp1d(xs, ys)(x)]. *)
Class ProfileExternals (F : Type) : Type := {
  comm_size : nat;
  interp1d : list F → list F → list F → res (list F)
}.

(** The outcome of [extract_profile]: the pair it returns or the exception
    it raises.  [values] is what [field.evaluate] returns. *)
Inductive profile (F V : Type) : Type :=
| NotImplementedError
| ProfileRaise (e : exn)
| Profile (distances : list F) (values : V).
Arguments NotImplementedError {F V}.
Arguments ProfileRaise {F V} e.
Arguments Profile {F V} distances values.

Section ExtractProfile.
Context {F : Type} {ops : FloatOps F} {more : FloatMore F} {ext : Externals F}
        {pext : ProfileExternals F}.

(** [[(nd(x), nd(y)) for (x, y) in line]]: a point that does not unpack
    into two values is a ValueError. *)
Fixpoint line_coords (line : list (list F)) : res (list (F * F)) :=
  match line with
  | [] => Ok []
  | [x; y] :: rest =>
      match line_coords rest with
      | Ok cs => Ok ((nd x, nd y) :: cs)
      | Raise e => Raise e
      end
  | _ :: _ => Raise ValueError
  end.

(** [np.cumsum] *)
Fixpoint cumsum_from (acc : F) (l : list F) : list F :=
  match l with
  | [] => []
  | x :: rest => fadd acc x :: cumsum_from (fadd acc x) rest
  end.

Definition cumsum (l : list F) : list F :=
  match l with
  | [] => []
  | x :: rest => x :: cumsum_from x rest
  end.

(** [distances = np.zeros(x.shape); distances[1:] = v]: the value is
    broadcast to the [n - 1] elements behind the first. *)
Definition zeros_then (n : nat) (v : list F) : res (list F) :=
  if decide (length v = n - 1) then Ok (take n (f0 :: v))
  else if decide (length v = 1)
       then Ok (take n (f0 :: replicate (n - 1) (default f0 (head v))))
  else Raise ValueError.

Definition extract_profile {V : Type} (field : list (list F) → V)
    (line : list (list F)) (nsamples : nat) : profile F V :=
  if decide (1 < comm_size) then NotImplementedError
  else
    match line_coords line with
    | Raise e => ProfileRaise e
    | Ok coords =>
    match head coords, last coords with
    | Some (x0, y0), Some (x1, y1) =>
        let x := linspace x0 x1 nsamples in
        let y := if feq x0 x1 then Ok (linspace y0 y1 nsamples)
                 else interp1d coords.*1 coords.*2 x in
        match y with
        | Raise e => ProfileRaise e
        | Ok y =>
            let dx := diff x in
            let dy := diff y in
            match bop fadd (fsqr <$> dx) (fsqr <$> dy) with
            | Raise e => ProfileRaise e
            | Ok s =>
                match zeros_then (length x) (fsqrt <$> s) with
                | Raise e => ProfileRaise e
                | Ok distances =>
                    let distances := cumsum distances in
                    if decide (length x = length y)
                    then Profile distances
                                 (field (zip_with (λ a b, [a; b]) x y))
                    else ProfileRaise ValueError
                end
            end
        end
    | _, _ => ProfileRaise IndexError
    end
    end.

End ExtractProfile.

(** ** A concrete setting

    Collaborators and inputs on which the model is run: one partition,
    real arithmetic, a uniform velocity field. *)

(** Modelled from the spec: the advector, which is not part of the source.
    The spec has it estimate the velocity at the start position, take a
    half step, sample the velocity again at the midpoint and move the
    marker by the full step along the midpoint velocity.  [sample] is the
    interpolation of the velocity field at a position. *)
Definition midpoint_advect (sample : Arr R → list R → list R) (vel : Arr R)
    (dt : R) (x : list R) : list R :=
  let v1 := sample vel x in
  let xm := zip_with Rplus x (map (Rmult (dt / 2)) v1) in
  let v2 := sample vel xm in
  zip_with Rplus x (map (Rmult dt) v2).

(** A uniform field has the velocity of its first node everywhere. *)
Definition uniform_sample (vel : Arr R) (x : list R) : list R :=
  default [] (head (rows vel)).

(** [str.lower] on the letters A to Z. *)
Definition lower_ascii (c : ascii) : ascii :=
  let n := nat_of_ascii c in
  if decide (65 ≤ n ≤ 90) then ascii_of_nat (n + 32) else c.

Fixpoint lower (s : string) : string :=
  match s with
  | EmptyString => EmptyString
  | String c s' => String (lower_ascii c) (lower s')
  end.

(** The collaborators: [fail] is the exception the advector raises, if
    any, and [swarm_datasets] what [swarm.save] leaves in its container.
    The swarm lowers the case of the data type it is given and has the
    six types listed. *)
Definition example_ext (fail : option exn)
    (swarm_datasets : SwarmData R → gmap string nat) : Externals R := {|
  rank := 0;
  byte_order := LittleEndian;
  nd := λ x, x;
  in_local_domain := λ _, true;
  supported_dataType := λ dataType,
    bool_decide (lower dataType
                 ∈ ["char"; "short"; "int"; "long"; "float"; "double"]);
  supported_long := eq_refl;
  uninitialised := (-1)%R;
  advector_integrate := λ vel dt sd,
    match fail with
    | Some e => (Some e, sd)
    | None =>
        (None,
         mkSwarmData (map (midpoint_advect uniform_sample vel dt)
                          (sd_coords sd))
                     (sd_ids sd) (sd_vars sd))
    end;
  syncronise := λ a, a;
  evaluate := λ fn vel sd,
    match fn with
    | AngularVelocity => mkArr 1 (map (λ _, [(PI / 2)%R]) (sd_coords sd))
    | UserFn 0 => mkArr 3 (map (λ _, [0%R; 0%R; 0%R]) (sd_coords sd))
    | UserFn _ => mkArr 1 (map (λ _, [1%R]) (sd_coords sd))
    end;
  path_join := λ dir f, dir +:+ "/" +:+ f;
  swarm_save_datasets := swarm_datasets;
  variable_save_datasets := λ sd _, {["data" := length (sd_coords sd)]};
  xdmfheader := "<Xdmf>";
  swarmspacetimeschema := λ handle fname _, "<Grid " +:+ fname +:+ ">";
  swarmvarschema := λ handle nm, "<Attribute " +:+ nm +:+ ">";
  xdmffooter := "</Xdmf>"
|}.

Definition positions_dataset (sd : SwarmData R) : gmap string nat :=
  {["data" := length (sd_coords sd)]}.

(** Everything works. *)
Definition sound_ext : Externals R := example_ext None positions_dataset.

(** The advector raises. *)
Definition failing_ext : Externals R :=
  example_ext (Some (CollaboratorError 0)) positions_dataset.


(** One marker at (5, 7) in the uniform field (2, 3), no tracked field. *)
Definition marker_state (zonly : bool) : State R :=
  mkState (mkTracers "tracers" zonly true None [] ∅)
          (mkArr 2 [[2; 3]])%R
          (mkSwarm 2 [[5; 7]]%R [0%Z] [])
          [] ∅ [].

(** A symmetric tensor field [stress] of three components, accumulated in
    time, holding [1; 0; 0] for the one marker; [mesh_attr] is the
    attribute [mesh] of the instance. *)
Definition stress_field : Field := mkField (UserFn 0) "stress" "Pa" true "double".

Definition stress_var : SwarmVariable := mkVar "double" 3 0.

Definition stress_state (mesh_attr : option nat) : State R :=
  mkState (mkTracers "tracers" false true mesh_attr [stress_field]
                     {["stress" := stress_var]})
          (mkArr 2 [[2; 3]])%R
          (mkSwarm 2 [[5; 7]]%R [0%Z] [stress_var])
          [mkArr 3 [[1; 0; 0]]%R] ∅ [].

(** Two instantaneous scalar fields, [a] and [b]. *)
Definition field_a : Field := mkField (UserFn 1) "a" "K" false "double".
Definition field_b : Field := mkField (UserFn 2) "b" "K" false "double".

Definition two_fields_state : State R :=
  mkState (mkTracers "tracers" false true None [field_a; field_b]
                     (<["b" := mkVar "double" 1 1]>
                        {["a" := mkVar "double" 1 0]}))
          (mkArr 2 [[2; 3]])%R
          (mkSwarm 2 [[5; 7]]%R [0%Z]
                   [mkVar "double" 1 0; mkVar "double" 1 1])
          [mkArr 1 [[0]]%R; mkArr 1 [[0]]%R] ∅ [].

(** The instance built by the constructor for one marker at (5, 7), and
    the same with a scalar field [T] registered as accumulated in time. *)
Definition constructed_state : State R := marker_state false.

Definition temperature_field : Field :=
  mkField (UserFn 1) "T" "K" true "double".

Definition temperature_state : State R :=
  (add_tracked_field (ext:=sound_ext) (PyFunction (UserFn 1)) "T" "K" "double"
                     1 true true constructed_state).2.

(** An array that [save] may write to: the storage of a field registered
    without time integration. *)
Definition refreshed (fields : list Field) (t : Tracers) (l : nat) : Prop :=
  ∃ field obj, field ∈ fields ∧ field_timeIntegration field = false
               ∧ attrs t !! field_name field = Some obj ∧ var_data obj = l.

(** ** Using an instance

    A caller works on an instance through its three methods.  [perform] is
    one call and [after_calls] the state left by a series of calls, the
    caller going on after a call that raised. *)

Inductive call (F : Type) : Type :=
| AddTrackedField (value : pyvalue) (nm units dataType : string)
                  (count : nat) (overwrite timeIntegration : bool)
| Integrate (dt : F)
| Save (outputDir checkpointID : string) (time : F).
Arguments AddTrackedField {F} value nm units dataType count overwrite
  timeIntegration.
Arguments Integrate {F} dt.
Arguments Save {F} outputDir checkpointID time.

Section Usage.
Context {F : Type} {ops : FloatOps F} {ext : Externals F}.

Definition perform (c : call F) : M (State F) unit :=
  match c with
  | AddTrackedField value nm units dataType count overwrite timeIntegration =>
      add_tracked_field value nm units dataType count overwrite
                        timeIntegration
  | Integrate dt => integrate dt
  | Save outputDir checkpointID time => save outputDir checkpointID time
  end.

Definition after_calls (s : State F) (cs : list (call F)) : State F :=
  foldl (λ s c, (perform c s).2) s cs.

(** The calls the model follows: no field is registered under a name of
    [own_attributes]. *)
Definition plain_call (c : call F) : Prop :=
  match c with
  | AddTrackedField _ nm _ _ _ _ _ => nm ∉ own_attributes
  | _ => True
  end.



End Usage.

(** A series of calls on the constructed instance. *)
Definition example_calls : list (call R) :=
  [AddTrackedField (PyFunction (UserFn 1)) "T" "K" "double" 1 true true;
   Save "out" "7" 0%R;
   Integrate 1%R].

(** Two nodes at 0 and 1, the top and [pt1] at the upper node, [pt2] at the
    lower one, unit top velocity. *)
Definition two_node_flow (tol : R) (nitmin : Z) : Balanced_InflowOutflow R :=
  mkBalanced 1%R 1%R 1%R 0%R [0; 1]%R tol 200 nitmin 0%R.

(** One partition; the interpolation is not reached on the lines used
    here and returns the abscissas it is given. *)
Definition serial_profile : ProfileExternals R :=
  {| comm_size := 1; interp1d := λ _ _ x, Ok x |}.

Section NumpyFacts.
Context {F : Type} {ops : FloatOps F}.

(** Stepping through a sequence of statements. *)
Lemma bind_run {S A B : Type} (m : M S A) (k : A → M S B) (s : S) :
  (m ≫= k) s = match m s with
               | (Ok a, s') => k a s'
               | (Raise e, s') => (Raise e, s')
               end.
Proof. reflexivity. Qed.


Lemma readonly_bind {S A B : Type} (m : M S A) (k : A → M S B) :
  readonly m → (∀ a, readonly (k a)) → readonly (m ≫= k).
Proof.
  intros Hm Hk s. rewrite bind_run. specialize (Hm s).
  destruct (m s) as [[a|e] s']; cbn in *; subst; [apply Hk | done].
Qed.

Lemma readonly_lift_res {S A : Type} (r : res A) : readonly (S:=S) (lift_res r).
Proof. done. Qed.

Lemma readonly_gets {S A : Type} (f : S → A) : readonly (gets f).
Proof. done. Qed.

Lemma readonly_ret {S A : Type} (a : A) : readonly (S:=S) (mret a).
Proof. done. Qed.

Lemma readonly_read_view (t : View) : readonly (read_view (F:=F) t).
Proof. done. Qed.

Lemma readonly_view_col (t : View) (j : nat) : readonly (view_col (F:=F) t j).
Proof.
  apply readonly_bind; [apply readonly_gets | intros; apply readonly_lift_res].
Qed.

Create HintDb readonly.
#[local] Hint Resolve readonly_lift_res readonly_gets readonly_ret
  readonly_read_view readonly_view_col : readonly.

Ltac readonly_tac :=
  repeat first [ solve [auto with readonly]
               | apply readonly_bind; [ | intros ?] ].

Lemma readonly_rotated_xx (t : View) (theta : list F) :
  readonly (rotated_xx t theta).
Proof. unfold rotated_xx. readonly_tac. Qed.

Lemma readonly_rotated_yy (t : View) (theta : list F) :
  readonly (rotated_yy t theta).
Proof. unfold rotated_yy. readonly_tac. Qed.

Lemma readonly_rotated_xy (t : View) (theta : list F) :
  readonly (rotated_xy t theta).
Proof. unfold rotated_xy. readonly_tac. Qed.

(** Writing a column of the last array of the heap replaces that array
    only. *)
Lemma store_col_last (h : Heap F) (a : Arr F) (j : nat) (v : list F) :
  ∃ a', (store_col (length h) j v (h ++ [a])).2 = h ++ [a'].
Proof.
  unfold store_col.
  destruct (assign_col _ j v) as [a'|e]; cbn [snd]; [ | by eexists].
  exists a'. rewrite insert_app_r_alt by lia.
  by rewrite Nat.sub_diag.
Qed.

(** The heap after [rotateTensor2D] is the heap before it followed by one
    new array, whether the call returns or raises; the address returned is
    that of the new array. *)
Lemma rotateTensor2D_heap (t : View) (theta : list F) (h : Heap F) :
  ∃ a', (rotateTensor2D t theta h).2 = h ++ [a']
        ∧ ∀ r, (rotateTensor2D t theta h).1 = Ok r → r = length h.
Proof.
  unfold rotateTensor2D. rewrite bind_run. cbn [read_view gets].
  rewrite bind_run. cbn [alloc].
  set (a := view_arr _ _). clearbody a. revert a.
  set (P := λ out : res nat * Heap F,
         ∃ a', out.2 = h ++ [a'] ∧ ∀ r, out.1 = Ok r → r = length h).
  assert (Hstep : ∀ (rhs : M (Heap F) (list F)) (k : M (Heap F) nat) j,
             readonly rhs →
             (∀ a, P (k (h ++ [a]))) →
             ∀ a, P ((v ← rhs; store_col (length h) j v;; k) (h ++ [a]))).
  { intros rhs k j Hro Hk a. rewrite bind_run.
    specialize (Hro (h ++ [a])).
    destruct (rhs (h ++ [a])) as [[v|e] s']; cbn in Hro; subst s';
      [ | by exists a].
    rewrite bind_run.
    destruct (store_col_last h a j v) as [a' Ha'].
    destruct (store_col _ j v _) as [[[]|e] s']; cbn in Ha'; subst s';
      [apply Hk | by exists a']. }
  apply Hstep; [apply readonly_rotated_xx | ].
  apply Hstep; [apply readonly_rotated_yy | ].
  apply Hstep; [apply readonly_rotated_xy | ].
  intros a. exists a. split; [done|]. cbn. by intros r [= <-].
Qed.

Lemma bop_same (op : F → F → F) (x y : list F) :
  length x = length y → bop op x y = Ok (zip_with op x y).
Proof. intros Hl. unfold bop. by rewrite decide_True. Qed.

Lemma col_ok (a : Arr F) (j : nat) :
  j < ncols a → col a j = Ok (map (λ r, default f0 (r !! j)) (rows a)).
Proof. intros Hj. unfold col. by rewrite decide_True. Qed.

Lemma zip_with_maps {A B C D E : Type} (op : C → D → E) (f : A → C)
    (g : B → D) (xs : list A) (ys : list B) :
  zip_with op (map f xs) (map g ys) = zip_with (λ x y, op (f x) (g y)) xs ys.
Proof. revert ys. induction xs; intros [|y ys]; cbn; congruence. Qed.

Lemma zip_with_map_l {A B C D : Type} (op : C → B → D) (f : A → C)
    (xs : list A) (ys : list B) :
  zip_with op (map f xs) ys = zip_with (λ x y, op (f x) y) xs ys.
Proof. revert ys. induction xs; intros [|y ys]; cbn; congruence. Qed.

Lemma zip_with_zip_with {A B C D E : Type} (op : C → D → E)
    (f : A → B → C) (g : A → B → D) (xs : list A) (ys : list B) :
  zip_with op (zip_with f xs ys) (zip_with g xs ys)
  = zip_with (λ x y, op (f x y) (g x y)) xs ys.
Proof. revert ys. induction xs; intros [|y ys]; cbn; congruence. Qed.

Lemma zip_with_zip_with_l {A B C D : Type} (op : C → B → D)
    (f : A → B → C) (xs : list A) (ys : list B) :
  zip_with op (zip_with f xs ys) ys = zip_with (λ x y, op (f x y) y) xs ys.
Proof. revert ys. induction xs; intros [|y ys]; cbn; congruence. Qed.

Lemma zip_with_zip_with_map_r {A B C D E : Type} (op : C → D → E)
    (f : A → B → C) (g : B → D) (xs : list A) (ys : list B) :
  zip_with op (zip_with f xs ys) (map g ys)
  = zip_with (λ x y, op (f x y) (g y)) xs ys.
Proof. revert ys. induction xs; intros [|y ys]; cbn; congruence. Qed.

Lemma zip_with_same_maps {A C D E : Type} (op : C → D → E) (f : A → C)
    (g : A → D) (xs : list A) :
  zip_with op (map f xs) (map g xs) = map (λ x, op (f x) (g x)) xs.
Proof. induction xs; cbn; congruence. Qed.

Lemma zip_with_zip_with_r {A B C D : Type} (op : A → C → D)
    (f : A → B → C) (xs : list A) (ys : list B) :
  zip_with op xs (zip_with f xs ys) = zip_with (λ x y, op x (f x y)) xs ys.
Proof. revert ys. induction xs; intros [|y ys]; cbn; congruence. Qed.

Ltac len_tac :=
  unfold nrows, set_col in *; cbn [rows] in *;
  rewrite ?length_zip_with, ?length_map; lia.
Ltac run_tac a :=
  repeat (rewrite bind_run; cbn [read_view gets lift_res]; fold a;
          try rewrite col_ok by lia; try rewrite bop_same by len_tac).
Ltac zip_tac :=
  rewrite ?zip_with_same_maps, ?zip_with_maps, ?zip_with_map_l,
    ?zip_with_zip_with_map_r, ?zip_with_zip_with, ?zip_with_zip_with_l.

Lemma rotated_xx_value (t : View) (theta : list F) (h : Heap F) :
  let a := view_arr (deref h (v_base t)) t in
  3 ≤ ncols a → length theta = nrows a →
  rotated_xx t theta h = (Ok (zip_with rot_xx (rows a) theta), h).
Proof.
  intros a Hw Hn. unfold rotated_xx, view_col.
  run_tac a. by zip_tac.
Qed.

Lemma rotated_yy_value (t : View) (theta : list F) (h : Heap F) :
  let a := view_arr (deref h (v_base t)) t in
  3 ≤ ncols a → length theta = nrows a →
  rotated_yy t theta h = (Ok (zip_with rot_yy (rows a) theta), h).
Proof.
  intros a Hw Hn. unfold rotated_yy, view_col.
  run_tac a. by zip_tac.
Qed.

Lemma rotated_xy_value (t : View) (theta : list F) (h : Heap F) :
  let a := view_arr (deref h (v_base t)) t in
  3 ≤ ncols a → length theta = nrows a →
  rotated_xy t theta h = (Ok (zip_with rot_xy (rows a) theta), h).
Proof.
  intros a Hw Hn. unfold rotated_xy, view_col.
  run_tac a. by zip_tac.
Qed.

Lemma deref_last (h : Heap F) (a : Arr F) : deref (h ++ [a]) (length h) = a.
Proof. unfold deref. by rewrite list_lookup_middle. Qed.

Lemma deref_app_l (h : Heap F) (a b : Arr F) (l : nat) :
  h !! l = Some b → deref (h ++ [a]) l = deref h l.
Proof.
  intros Hl. unfold deref. by rewrite (lookup_app_l_Some _ _ _ _ Hl), Hl.
Qed.

Lemma store_col_last_ok (h : Heap F) (a : Arr F) (j : nat) (v : list F) :
  length v = nrows a →
  store_col (length h) j v (h ++ [a]) = (Ok tt, h ++ [set_col a j v]).
Proof.
  intros Hv. unfold store_col, assign_col. rewrite deref_last.
  rewrite decide_True by done.
  rewrite insert_app_r_alt by lia. by rewrite Nat.sub_diag.
Qed.

(** With a tensor of at least three columns and one angle per marker the
    call returns a new array holding the rotated rows. *)
Lemma rotateTensor2D_value (t : View) (theta : list F) (h : Heap F)
    (b : Arr F) :
  h !! v_base t = Some b →
  let a := view_arr b t in
  3 ≤ ncols a → length theta = nrows a →
  rotateTensor2D t theta h
  = (Ok (length h), h ++ [rotated a theta]).
Proof.
  intros Hb a Hw Hn. unfold rotateTensor2D.
  rewrite bind_run. cbn [read_view gets]. rewrite bind_run. cbn [alloc].
  assert (Ha : ∀ x, view_arr (deref (h ++ [x]) (v_base t)) t = a).
  { intros x. rewrite (deref_app_l _ _ _ _ Hb). unfold deref. by rewrite Hb. }
  assert (Ha0 : view_arr (deref h (v_base t)) t = a).
  { unfold deref. by rewrite Hb. }
  rewrite Ha0.
  rewrite bind_run, rotated_xx_value; rewrite ?Ha; [ | done..].
  rewrite bind_run, store_col_last_ok by len_tac.
  rewrite bind_run, rotated_yy_value; rewrite ?Ha; [ | done..].
  rewrite bind_run, store_col_last_ok by len_tac.
  rewrite bind_run, rotated_xy_value; rewrite ?Ha; [ | done..].
  rewrite bind_run, store_col_last_ok by len_tac.
  cbn [mret M_ret ret]. do 3 f_equal.
  unfold set_col, rotated; cbn [rows ncols]. f_equal.
  by rewrite zip_with_zip_with_r, zip_with_zip_with, zip_with_zip_with.
Qed.

(** C10.  [rotateTensor2D] never writes to the array it is given: every
    array that exists before the call, the input [t] among them, has the
    same contents after it, whether the call returns or raises; the array
    it returns is a new one, and for a tensor of at least three columns
    with one angle per marker it holds the rotated rows.  A caller that
    drops the result therefore sees no rotation of its data. *)
Theorem rotateTensor2D_leaves_input_unchanged (t : View) (theta : list F)
    (h : Heap F) :
  (∀ l a, h !! l = Some a → (rotateTensor2D t theta h).2 !! l = Some a)
  ∧ (∀ r, (rotateTensor2D t theta h).1 = Ok r →
          h !! r = None ∧ is_Some ((rotateTensor2D t theta h).2 !! r))
  ∧ (∀ b, h !! v_base t = Some b →
          3 ≤ ncols (view_arr b t) → length theta = nrows (view_arr b t) →
          (rotateTensor2D t theta h).1 = Ok (length h)
          ∧ (rotateTensor2D t theta h).2 !! length h
            = Some (rotated (view_arr b t) theta)).
Proof.
  split_and!.
  - destruct (rotateTensor2D_heap t theta h) as (a' & Hh & Hr).
    rewrite Hh. intros l a Hl. by apply lookup_app_l_Some.
  - destruct (rotateTensor2D_heap t theta h) as (a' & Hh & Hr).
    rewrite Hh. intros r ->%Hr. split.
    + by apply lookup_ge_None_2.
    + exists a'. by apply list_lookup_middle.
  - intros b Hb Hw Hn. rewrite (rotateTensor2D_value t theta h b) by done.
    split; [done | ]. by apply list_lookup_middle.
Qed.

End NumpyFacts.

Section IdentityFacts.

Lemma le_unsigned_le_bytes (w : nat) (z : Z) :
  le_unsigned (le_bytes w z) = (z mod 256 ^ Z.of_nat w)%Z.
Proof.
  revert z. induction w as [|w IH]; intros z.
  - cbn. by rewrite Z.mod_1_r.
  - cbn [le_bytes le_unsigned]. rewrite IH.
    rewrite Nat2Z.inj_succ, Z.pow_succ_r by lia.
    rewrite Z.rem_mul_r by lia. lia.
Qed.

Lemma le_unsigned_app (xs ys : list Z) :
  le_unsigned (xs ++ ys)
  = (le_unsigned xs + 256 ^ Z.of_nat (length xs) * le_unsigned ys)%Z.
Proof.
  induction xs as [|x xs IH]; cbn [app le_unsigned length].
  - cbn. lia.
  - rewrite IH, Nat2Z.inj_succ, Z.pow_succ_r by lia. lia.
Qed.


Lemma length_le_bytes (w : nat) (z : Z) : length (le_bytes w z) = w.
Proof. revert z. induction w; intros; cbn; auto. Qed.


Lemma view_int64_word (bo : byteorder) (a b : Z) :
  view_int64 bo a b = signed 8 (word_of_pair bo a b).
Proof.
  unfold view_int64, of_bytes, to_bytes, word_of_pair.
  destruct bo.
  - rewrite length_app, !length_le_bytes, le_unsigned_app, length_le_bytes.
    by rewrite !le_unsigned_le_bytes.
  - rewrite length_app, !length_reverse, !length_le_bytes.
    rewrite reverse_app, !reverse_involutive.
    rewrite le_unsigned_app, length_le_bytes.
    by rewrite !le_unsigned_le_bytes.
Qed.






Lemma zip_replicate_l {A B : Type} (x : A) (l : list B) :
  zip (replicate (length l) x) l = (λ y, (x, y)) <$> l.
Proof. induction l; cbn; congruence. Qed.

Lemma global_index_values_fmap (bo : byteorder) (r : Z) (n : nat) :
  global_index_values bo r n
  = (λ i, view_int64 bo r (Z.of_nat i)) <$> seq 0 n.
Proof.
  unfold global_index_values.
  replace n with (length (Z.of_nat <$> seq 0 n)) at 1
    by (by rewrite length_fmap, length_seq).
  rewrite zip_replicate_l, <- !list_fmap_compose. done.
Qed.









End IdentityFacts.

Section SeedingFacts.
Context {F : Type} {ops : FloatOps F} {ext : Externals F}.







Lemma length_column_value (m : nat) (c : coord F) (v : list F) :
  column_value m c = Ok v → length v = m.
Proof.
  destruct c as [x|xs]; cbn.
  - intros [= <-]. apply length_replicate.
  - repeat case_decide; intros [= <-]; [done | apply length_replicate].
Qed.








(** What the constructor leaves when it returns. *)
Lemma init_Ok (mesh_dimension : nat) (velocity : Arr F) (nm : string)
    (vertices : list (coord F)) (escape zonly : bool) (s : State F) :
  init mesh_dimension velocity nm vertices escape zonly = Ok s →
  ∃ coords,
    fits_int32 (identity_pairs (Z.of_nat rank) (length coords))
    ∧ s = mkState (mkTracers nm zonly escape None [] ∅)
                  velocity
                  (mkSwarm mesh_dimension coords
                           (global_index_values byte_order (Z.of_nat rank)
                                                (length coords))
                           [])
                  [] ∅ [].
Proof.
  unfold init. destruct (seed_points vertices) as [points|]; [ | done].
  case_decide; [ | done]. intros [= <-]. by eexists.
Qed.




End SeedingFacts.

Section IdentityAssignment.
Context {F : Type} {ops : FloatOps F}.


End IdentityAssignment.

Section RegistryFacts.
Context {F : Type} {ops : FloatOps F} {ext : Externals F}.

Lemma find_tracked_match (nm : string) (v : Fn) (fields : list Field)
    (old : Field) :
  old ∈ fields → nm = field_name old ∨ v = field_value old →
  ∃ i matched,
    find_tracked nm v fields = Some i ∧ fields !! i = Some matched
    ∧ (nm = field_name matched ∨ v = field_value matched).
Proof.
  induction fields as [|f fs IH]; [by intros ?%elem_of_nil | ].
  intros Hin Hold. cbn [find_tracked].
  destruct (bool_decide (nm = field_name f) || bool_decide (v = field_value f))
    eqn:Hf.
  - exists 0, f. repeat split; [done..|].
    apply orb_true_iff in Hf as [Hf|Hf]; apply bool_decide_eq_true in Hf; auto.
  - apply elem_of_cons in Hin as [->|Hin].
    + apply orb_false_iff in Hf as [Hf1 Hf2].
      apply bool_decide_eq_false in Hf1, Hf2. tauto.
    + destruct (IH Hin Hold) as (i & m & Hi & Hm & Hmm).
      exists (S i), m. rewrite Hi. by repeat split.
Qed.

(** Zeroing a new variable, whatever its memory held. *)
Lemma fill_zero_new (h : Heap F) (n w : nat) (x : F) :
  fill_zero (length h) (h ++ [mkArr w (replicate n (replicate w x))])
  = (Ok tt, h ++ [zeros n w]).
Proof.
  unfold fill_zero, modify. f_equal. rewrite deref_last.
  rewrite insert_app_r_alt by lia. rewrite Nat.sub_diag. cbn. do 2 f_equal.
  unfold zeros. f_equal. by rewrite !fmap_replicate.
Qed.

(** The end of a registration, once the registry holds [fields]. *)
Lemma registration_run (s : State F) (f : list Field → list Field)
    (nm dataType : string) (count : nat) :
  (set_tracked_field f;;
   svar ← add_variable dataType count;
   on_heap (fill_zero (var_data svar));;
   setattr nm svar) s
  = registration s (f (tracked_field (self s))) nm dataType count.
Proof.
  rewrite bind_run. cbn [set_tracked_field modify].
  rewrite bind_run. unfold add_variable, registration.
  destruct (add_variable_error dataType count) as [e|]; [done | ].
  rewrite bind_run. unfold on_heap.
  cbn [heap set_heap set_swarm set_self var_data].
  rewrite fill_zero_new. unfold setattr.
  by destruct (setattr_error nm).
Qed.

Lemma add_tracked_field_overwrite_run (s : State F) (v : Fn)
    (nm units dataType : string) (count : nat) (timeIntegration : bool)
    (i : nat) :
  find_tracked nm v (tracked_field (self s)) = Some i →
  add_tracked_field (PyFunction v) nm units dataType count true
                    timeIntegration s
  = registration s (<[i := mkField v nm units timeIntegration dataType]>
                      (tracked_field (self s)))
                 nm dataType count.
Proof.
  intros Hi. unfold add_tracked_field.
  rewrite bind_run. cbn [gets]. rewrite Hi. cbn [negb].
  apply (registration_run s (λ fs, <[i := _]> fs)).
Qed.

Lemma add_tracked_field_append_run (s : State F) (v : Fn)
    (nm units dataType : string) (count : nat)
    (overwrite timeIntegration : bool) :
  find_tracked nm v (tracked_field (self s)) = None →
  add_tracked_field (PyFunction v) nm units dataType count overwrite
                    timeIntegration s
  = registration s (tracked_field (self s)
                    ++ [mkField v nm units timeIntegration dataType])
                 nm dataType count.
Proof.
  intros Hi. unfold add_tracked_field.
  rewrite bind_run. cbn [gets]. rewrite Hi.
  apply (registration_run s (λ fs, fs ++ [_])).
Qed.

(** What a registration leaves whatever its outcome: the registry it
    wrote, the attribute [mesh], the identities, the markers and every
    array that existed. *)
Lemma registration_frame (s : State F) (fields : list Field)
    (nm dataType : string) (count : nat) :
  tracked_field (self (registration s fields nm dataType count).2) = fields
  ∧ mesh (self (registration s fields nm dataType count).2) = mesh (self s)
  ∧ global_index (swarm (registration s fields nm dataType count).2)
    = global_index (swarm s)
  ∧ particleCoordinates (swarm (registration s fields nm dataType count).2)
    = particleCoordinates (swarm s)
  ∧ velocityField (registration s fields nm dataType count).2
    = velocityField s
  ∧ heap s `prefix_of` heap (registration s fields nm dataType count).2
  ∧ variables (swarm s)
    `prefix_of` variables (swarm (registration s fields nm dataType count).2)
  ∧ ∀ other, other ≠ nm →
      attrs (self (registration s fields nm dataType count).2) !! other
      = attrs (self s) !! other.
Proof.
  unfold registration.
  destruct (add_variable_error dataType count) as [e|];
    [ | destruct (setattr_error nm) as [e|] ]; cbn.
  all: split_and!; try done; try (by apply prefix_app_r).
  intros other Hne. by rewrite lookup_insert_ne.
Qed.

(** A registration returns exactly when the swarm accepts the variable
    and [setattr] the name. *)
Lemma registration_returns (s : State F) (fields : list Field)
    (nm dataType : string) (count : nat) :
  add_variable_error dataType count = None → setattr_error nm = None →
  registration s fields nm dataType count
  = (Ok tt, registered s fields nm dataType count).
Proof. intros Hv Hn. unfold registration. by rewrite Hv, Hn. Qed.

Lemma registration_Ok (s s' : State F) (fields : list Field)
    (nm dataType : string) (count : nat) :
  registration s fields nm dataType count = (Ok tt, s') →
  add_variable_error dataType count = None ∧ setattr_error nm = None
  ∧ s' = registered s fields nm dataType count.
Proof.
  unfold registration.
  destruct (add_variable_error dataType count) as [e|]; [done | ].
  destruct (setattr_error nm) as [e|]; [done | ].
  by intros [= <-].
Qed.

Lemma add_tracked_field_refuse_run (s : State F) (v : Fn)
    (nm units dataType : string) (count : nat) (timeIntegration : bool)
    (i : nat) :
  find_tracked nm v (tracked_field (self s)) = Some i →
  add_tracked_field (PyFunction v) nm units dataType count false
                    timeIntegration s
  = (Raise ValueError, s).
Proof.
  intros Hi. unfold add_tracked_field.
  rewrite bind_run. cbn [gets]. by rewrite Hi.
Qed.

(** The outcomes of a registration: refused before anything is written,
    or ended by the three statements that create the variable. *)
Lemma add_tracked_field_cases (value : pyvalue) (nm units dataType : string)
    (count : nat) (overwrite timeIntegration : bool) (s : State F) :
  add_tracked_field value nm units dataType count overwrite timeIntegration s
  = (Raise ValueError, s)
  ∨ ∃ v fields,
      value = PyFunction v
      ∧ add_tracked_field value nm units dataType count overwrite
                          timeIntegration s
        = registration s fields nm dataType count
      ∧ ((find_tracked nm v (tracked_field (self s)) = None
          ∧ fields = tracked_field (self s)
                     ++ [mkField v nm units timeIntegration dataType])
         ∨ (∃ i, find_tracked nm v (tracked_field (self s)) = Some i
                 ∧ overwrite = true
                 ∧ fields = <[i := mkField v nm units timeIntegration
                                          dataType]>
                              (tracked_field (self s)))).
Proof.
  destruct value as [v|]; [ | by left].
  destruct (find_tracked nm v (tracked_field (self s))) as [i|] eqn:Hi.
  - destruct overwrite.
    + right. eexists v, _. split; [done | ].
      split; [by eapply add_tracked_field_overwrite_run | ].
      right. by exists i.
    + left. by eapply add_tracked_field_refuse_run.
  - right. eexists v, _. split; [done | ].
    split; [by apply add_tracked_field_append_run | by left].
Qed.

(** What [add_variable_error] decides. *)
Lemma add_variable_error_None (dataType : string) (count : nat) :
  add_variable_error dataType count = None
  ↔ supported_dataType dataType = true ∧ 1 ≤ count.
Proof.
  unfold add_variable_error.
  destruct (supported_dataType dataType); cbn; [ | by split; [ | intros []]].
  case_decide; split; try done; [intros []; lia | intros _; split; [done|lia]].
Qed.

Lemma add_variable_error_unsupported (dataType : string) (count : nat) :
  supported_dataType dataType = false →
  add_variable_error dataType count = Some ValueError.
Proof. intros Hd. unfold add_variable_error. by rewrite Hd. Qed.

Lemma add_variable_error_count (dataType : string) :
  supported_dataType dataType = true →
  add_variable_error dataType 0 = Some TypeError.
Proof. intros Hd. unfold add_variable_error. by rewrite Hd. Qed.

(** C5.  Registering an Underworld function under a name that is not one
    of the instance's own attributes, when the name or the function
    matches an entry of the registry.  With [overwrite=False] the call
    raises ValueError and changes nothing.  With [overwrite=True] the
    first matching entry gets the new name, units, function, dataType and
    timeIntegration, and every array that existed before is left as it
    was.  When the swarm has the data type, the count is at least one and
    [setattr] takes the name, the call returns and the name is bound to a
    new variable of [count] columns and one row per local marker, all
    zero.  When the swarm refuses the data type (ValueError) or the count
    (TypeError), the call raises with the entry already replaced: nothing
    is allocated and the attributes are bound as before.  When [setattr]
    refuses the name, the call raises with the entry replaced and the new
    variable allocated, bound to no attribute. *)
Theorem add_tracked_field_on_existing (s : State F) (v : Fn)
    (nm units dataType : string) (count : nat) (timeIntegration : bool)
    (old : Field) :
  nm ∉ own_attributes →
  old ∈ tracked_field (self s) →
  nm = field_name old ∨ v = field_value old →
  add_tracked_field (PyFunction v) nm units dataType count false
                    timeIntegration s
  = (Raise ValueError, s)
  ∧ ∃ i matched,
      tracked_field (self s) !! i = Some matched
      ∧ (nm = field_name matched ∨ v = field_value matched)
      ∧ let run := add_tracked_field (PyFunction v) nm units dataType count
                                     true timeIntegration s in
        tracked_field (self run.2)
        = <[i := mkField v nm units timeIntegration dataType]>
            (tracked_field (self s))
        ∧ (∀ l a, heap s !! l = Some a → heap run.2 !! l = Some a)
        ∧ (supported_dataType dataType = true → 1 ≤ count →
           setattr_error nm = None →
           run.1 = Ok tt
           ∧ ∃ svar,
               attrs (self run.2) !! nm = Some svar
               ∧ var_dataType svar = dataType ∧ var_count svar = count
               ∧ heap s !! var_data svar = None
               ∧ heap run.2 !! var_data svar
                 = Some (zeros (particleLocalCount (swarm s)) count))
        ∧ (supported_dataType dataType = false →
           run.1 = Raise ValueError
           ∧ heap run.2 = heap s ∧ swarm run.2 = swarm s
           ∧ attrs (self run.2) = attrs (self s))
        ∧ (supported_dataType dataType = true → count = 0 →
           run.1 = Raise TypeError
           ∧ heap run.2 = heap s ∧ swarm run.2 = swarm s
           ∧ attrs (self run.2) = attrs (self s))
        ∧ ∀ e, supported_dataType dataType = true → 1 ≤ count →
               setattr_error nm = Some e →
               run.1 = Raise e
               ∧ heap run.2
                 = heap s ++ [zeros (particleLocalCount (swarm s)) count]
               ∧ attrs (self run.2) = attrs (self s).
Proof.
  intros _ Hin Hold.
  destruct (find_tracked_match nm v _ old Hin Hold)
    as (i & matched & Hfind & Hi & Hm).
  split; [by eapply add_tracked_field_refuse_run | ].
  exists i, matched. split; [done | ]. split; [done | ]. cbv zeta.
  rewrite (add_tracked_field_overwrite_run _ _ _ _ _ _ _ i Hfind).
  destruct (registration_frame s
              (<[i := mkField v nm units timeIntegration dataType]>
                 (tracked_field (self s))) nm dataType count)
    as (Hreg & _ & _ & _ & _ & Hheap & _ & _).
  split; [done | ]. split.
  { intros l a Hl. by eapply prefix_lookup_Some. }
  unfold registration. split_and!.
  - intros Hd Hc Hn.
    rewrite (proj2 (add_variable_error_None dataType count)), Hn by done.
    split; [done | ].
    exists (mkVar dataType count (length (heap s))). cbn.
    split_and!; [apply lookup_insert_eq | done | done | | ].
    + by apply lookup_ge_None_2.
    + by apply list_lookup_middle.
  - intros Hd. by rewrite add_variable_error_unsupported.
  - intros Hd ->. by rewrite add_variable_error_count.
  - intros e Hd Hc Hn.
    by rewrite (proj2 (add_variable_error_None dataType count)), Hn.
Qed.

End RegistryFacts.

Section IntegrateFacts.
Context {F : Type} {ops : FloatOps F} {ext : Externals F}.


Lemma set_heap_id (s : State F) : set_heap (λ _, heap s) s = s.
Proof. by destruct s. Qed.

Lemma heap_only_bind {A B : Type} (m : M (State F) A)
    (k : A → M (State F) B) :
  heap_only m → (∀ a, heap_only (k a)) → heap_only (m ≫= k).
Proof.
  intros Hm Hk s. rewrite bind_run. destruct (Hm s) as [h' Hh'].
  destruct (m s) as [[a|e] s']; cbn in Hh'; subst s'.
  - destruct (Hk a (set_heap (λ _, h') s)) as [h'' Hh'']. exists h''.
    by rewrite Hh''.
  - by exists h'.
Qed.

Lemma heap_only_readonly {A : Type} (m : M (State F) A) :
  readonly m → heap_only m.
Proof. intros Hm s. exists (heap s). by rewrite Hm, set_heap_id. Qed.

Lemma heap_only_on_heap {A : Type} (m : M (Heap F) A) :
  heap_only (on_heap m).
Proof.
  intros s. unfold on_heap. destruct (m (heap s)) as [r h']. by exists h'.
Qed.

Lemma readonly_getattr (nm : string) : readonly (getattr (F:=F) nm).
Proof. intros s. unfold getattr. by destruct (_ !! nm). Qed.

Lemma readonly_self_mesh : readonly (self_mesh (F:=F)).
Proof. intros s. unfold self_mesh. by destruct (mesh _). Qed.

Lemma readonly_evaluate_on_swarm (fn : Fn) : readonly (evaluate_on_swarm fn).
Proof. done. Qed.

Lemma heap_only_integrate_field (dt : F) (field : Field) :
  heap_only (integrate_field dt field).
Proof.
  unfold integrate_field. destruct (field_timeIntegration field);
    [ | by apply heap_only_readonly].
  apply heap_only_bind; [apply heap_only_readonly, readonly_getattr | ].
  intros obj.
  apply heap_only_bind; [apply heap_only_readonly, readonly_self_mesh | ].
  intros dim.
  apply heap_only_bind; [by apply heap_only_readonly | ].
  intros a. destruct (_ && _).
  - apply heap_only_bind; [by apply heap_only_readonly | intros ang].
    apply heap_only_bind; [apply heap_only_on_heap | intros _].
    apply heap_only_bind; [by apply heap_only_readonly | intros x].
    apply heap_only_on_heap.
  - apply heap_only_bind; [by apply heap_only_readonly | intros x].
    apply heap_only_on_heap.
Qed.

Lemma heap_only_for_each {A : Type} (body : A → M (State F) unit)
    (l : list A) :
  (∀ x, heap_only (body x)) → heap_only (for_each body l).
Proof.
  intros Hbody. induction l as [|x l IH]; cbn [for_each].
  - by apply heap_only_readonly.
  - apply heap_only_bind; [apply Hbody | by intros _].
Qed.

(** The loop over the tracked fields changes arrays only. *)
Lemma heap_only_field_loop (dt : F) :
  heap_only (fields ← gets (λ s : State F, tracked_field (self s));
             for_each (integrate_field dt) fields).
Proof.
  apply heap_only_bind; [by apply heap_only_readonly | intros fields].
  apply heap_only_for_each, heap_only_integrate_field.
Qed.

Lemma advection_step_vertical (dt : F) (s : State F) :
  zOnly (self s) = true →
  advection_step dt s
  = let substituted := syncronise (zero_nonlast (velocityField s)) in
    let out := advector_integrate substituted dt (swarm_data s) in
    match out.1 with
    | Some e =>
        (Raise e,
         put_swarm_data out.2 (set_velocityField (λ _, substituted) s))
    | None =>
        (Ok tt,
         put_swarm_data out.2
           (set_velocityField (λ _, syncronise (velocityField s)) s))
    end.
Proof.
  intros Hz. unfold advection_step. rewrite bind_run. cbn [gets]. rewrite Hz.
  rewrite bind_run. cbn [gets]. rewrite bind_run. cbn [modify].
  rewrite bind_run. cbn [modify]. rewrite bind_run. unfold advect.
  cbn [velocityField set_velocityField].
  change (swarm_data (set_velocityField _ (set_velocityField _ s)))
    with (swarm_data s).
  destruct (advector_integrate _ dt (swarm_data s)) as [[e|] sd]; cbn; [done|].
  by destruct s.
Qed.

Lemma advection_step_full (dt : F) (s : State F) :
  zOnly (self s) = false →
  advection_step dt s
  = let out := advector_integrate (velocityField s) dt (swarm_data s) in
    match out.1 with
    | Some e => (Raise e, put_swarm_data out.2 s)
    | None => (Ok tt, put_swarm_data out.2 s)
    end.
Proof.
  intros Hz. unfold advection_step. rewrite bind_run. cbn [gets]. rewrite Hz.
  unfold advect. by destruct (advector_integrate _ dt _) as [[e|] sd].
Qed.

(** What [integrate] does after a successful advection step is confined to
    arrays. *)
Lemma integrate_after_advection (dt : F) (s s1 : State F) :
  advection_step dt s = (Ok tt, s1) →
  ∃ h', (integrate dt s).2 = set_heap (λ _, h') s1.
Proof.
  intros Hadv. unfold integrate. rewrite bind_run, Hadv.
  apply heap_only_field_loop.
Qed.

Lemma integrate_advection_raises (dt : F) (s s1 : State F) (e : exn) :
  advection_step dt s = (Raise e, s1) → integrate dt s = (Raise e, s1).
Proof. intros Hadv. unfold integrate. by rewrite bind_run, Hadv. Qed.

Lemma velocityField_put_swarm_data (sd : SwarmData F) (s : State F) :
  velocityField (put_swarm_data sd s) = velocityField s.
Proof. done. Qed.

Lemma particleCoordinates_put_swarm_data (sd : SwarmData F) (s : State F) :
  particleCoordinates (swarm (put_swarm_data sd s)) = sd_coords sd.
Proof. done. Qed.

(** C2, amended.  On a vertical-axis-only swarm the advector runs on the
    synchronised copy of the field whose non-last components are zero.
    When it raises, [integrate] raises the same error at once and the
    shared field is left holding that copy; the saved contents are written
    back, and synchronised, only when the advector returns. *)
Theorem integrate_vertical_only_restores_after_advection (dt : F)
    (s : State F) :
  zOnly (self s) = true →
  match (advector_integrate (syncronise (zero_nonlast (velocityField s))) dt
                            (swarm_data s)).1 with
  | Some e =>
      (integrate dt s).1 = Raise e
      ∧ velocityField (integrate dt s).2
        = syncronise (zero_nonlast (velocityField s))
  | None =>
      velocityField (integrate dt s).2 = syncronise (velocityField s)
  end.
Proof.
  intros Hz. pose proof (advection_step_vertical dt s Hz) as Hstep.
  cbv zeta in Hstep.
  destruct (advector_integrate _ dt (swarm_data s)) as [[e|] sd];
    cbn [fst snd] in *.
  - by rewrite (integrate_advection_raises _ _ _ _ Hstep).
  - destruct (integrate_after_advection _ _ _ Hstep) as [h' ->]. done.
Qed.

(** Every row of the substituted field is the row of the original with
    zeros in front of its last component. *)
Lemma zero_nonlast_row (a : Arr F) (i : nat) (r : list F) :
  rows a !! i = Some r →
  rows (zero_nonlast a) !! i
  = Some (replicate (length r - 1) f0 ++ drop (length r - 1) r).
Proof. intros Hr. unfold zero_nonlast. cbn. by rewrite list_lookup_fmap, Hr. Qed.

(** C6.  On a vertical-axis-only swarm whose velocity field is consistent
    across partitions (synchronising the field, or its copy with zeroed
    horizontal components, changes nothing on this partition), when the
    advector returns: the markers are where the advector put them on a
    field whose rows keep their last component only, and on return the
    shared field has its contents of before the call. *)
Theorem integrate_vertical_only_advects_and_restores (dt : F) (s : State F)
    (sd : SwarmData F) :
  zOnly (self s) = true →
  syncronise (velocityField s) = velocityField s →
  syncronise (zero_nonlast (velocityField s))
  = zero_nonlast (velocityField s) →
  advector_integrate (zero_nonlast (velocityField s)) dt (swarm_data s)
  = (None, sd) →
  particleCoordinates (swarm (integrate dt s).2) = sd_coords sd
  ∧ velocityField (integrate dt s).2 = velocityField s
  ∧ ∀ i r, rows (velocityField s) !! i = Some r →
           rows (zero_nonlast (velocityField s)) !! i
           = Some (replicate (length r - 1) f0 ++ drop (length r - 1) r).
Proof.
  intros Hz Hsync Hsync0 Hadv.
  pose proof (advection_step_vertical dt s Hz) as Hstep. cbv zeta in Hstep.
  rewrite Hsync0, Hadv, Hsync in Hstep. cbn [fst snd] in Hstep.
  destruct (integrate_after_advection _ _ _ Hstep) as [h' ->].
  split; [done | split].
  - by destruct s.
  - apply zero_nonlast_row.
Qed.

Lemma integrate_field_unbound_mesh (dt : F) (field : Field) (s : State F) :
  mesh (self s) = None → field_timeIntegration field = true →
  integrate_field dt field s = (Raise AttributeError, s).
Proof.
  intros Hmesh Htime. unfold integrate_field. rewrite Htime.
  rewrite bind_run. unfold getattr.
  destruct (attrs (self s) !! field_name field); [ | done].
  rewrite bind_run. unfold self_mesh. by rewrite Hmesh.
Qed.

Lemma integrate_field_skip (dt : F) (field : Field) (s : State F) :
  field_timeIntegration field = false → integrate_field dt field s = (Ok tt, s).
Proof. intros Htime. unfold integrate_field. by rewrite Htime. Qed.

Lemma field_loop_unbound_mesh (dt : F) (fields : list Field) (s : State F)
    (field : Field) :
  mesh (self s) = None → field ∈ fields → field_timeIntegration field = true →
  for_each (integrate_field dt) fields s = (Raise AttributeError, s).
Proof.
  intros Hmesh Hin Htime. induction fields as [|f fs IH];
    [by apply elem_of_nil in Hin | ].
  cbn [for_each]. rewrite bind_run.
  destruct (field_timeIntegration f) eqn:Hf.
  - by rewrite integrate_field_unbound_mesh.
  - rewrite integrate_field_skip by done.
    apply elem_of_cons in Hin as [->|Hin]; [congruence | by apply IH].
Qed.

Lemma advection_step_self (dt : F) (s : State F) :
  self (advection_step dt s).2 = self s.
Proof.
  destruct (zOnly (self s)) eqn:Hz.
  - rewrite advection_step_vertical by done. cbv zeta.
    by destruct (advector_integrate _ dt _) as [[e|] sd].
  - rewrite advection_step_full by done. cbv zeta.
    by destruct (advector_integrate _ dt _) as [[e|] sd].
Qed.

(** C4 at the code: [__init__] binds no attribute [mesh] and no method
    binds one, so the test [self.mesh.dim == 2] raises AttributeError for
    the first tracked field with [timeIntegration=True]; the arrays are
    then as the advector left them and no field has been updated. *)
Theorem integrate_raises_on_time_integrated_field (dt : F) (s s1 : State F)
    (field : Field) :
  mesh (self s) = None →
  field ∈ tracked_field (self s) →
  field_timeIntegration field = true →
  advection_step dt s = (Ok tt, s1) →
  integrate dt s = (Raise AttributeError, s1).
Proof.
  intros Hmesh Hin Htime Hadv. unfold integrate.
  rewrite bind_run, Hadv, bind_run. cbn [gets].
  pose proof (advection_step_self dt s) as Hself. rewrite Hadv in Hself.
  cbn [snd] in Hself. rewrite Hself.
  eapply field_loop_unbound_mesh; [by rewrite Hself | done..].
Qed.

Lemma init_mesh_unbound (d : nat) (velocity : Arr F) (nm : string)
    (vertices : list (coord F)) (escape zonly : bool) (s : State F) :
  init d velocity nm vertices escape zonly = Ok s → mesh (self s) = None.
Proof. by intros (coords & _ & ->)%init_Ok. Qed.

Lemma add_tracked_field_mesh (value : pyvalue) (nm units dataType : string)
    (count : nat) (overwrite timeIntegration : bool) (s : State F) :
  mesh (self (add_tracked_field value nm units dataType count overwrite
                                timeIntegration s).2)
  = mesh (self s).
Proof.
  destruct (add_tracked_field_cases value nm units dataType count overwrite
              timeIntegration s) as [-> | (v & fields & _ & -> & _)];
    [done | ].
  apply registration_frame.
Qed.

Lemma integrate_self (dt : F) (s : State F) :
  self (integrate dt s).2 = self s.
Proof.
  destruct (advection_step dt s) as [[[]|e] s1] eqn:Hadv.
  - destruct (integrate_after_advection _ _ _ Hadv) as [h' ->].
    pose proof (advection_step_self dt s) as Hself. by rewrite Hadv in Hself.
  - rewrite (integrate_advection_raises _ _ _ _ Hadv).
    pose proof (advection_step_self dt s) as Hself. by rewrite Hadv in Hself.
Qed.

Lemma deref_Some (h : Heap F) (l : nat) (a : Arr F) :
  h !! l = Some a → deref h l = a.
Proof. intros Hl. unfold deref. by rewrite Hl. Qed.

Lemma broadcast_to_same (n w : nat) (x : Arr F) :
  ncols x = w → nrows x = n → broadcast_to n w x = Ok (rows x).
Proof.
  intros Hw Hn. unfold broadcast_to.
  rewrite decide_True by tauto. by rewrite !decide_True.
Qed.

Lemma iadd_view_run (l hi : nat) (x : Arr F) (h : Heap F) (a : Arr F) :
  h !! l = Some a → ncols x = hi `min` ncols a → nrows x = nrows a →
  iadd_view (mkView l 0 hi) x h
  = (Ok tt, <[l := add_columns (hi `min` ncols a) a x]> h).
Proof.
  intros Hl Hw Hn. unfold iadd_view. cbn [v_base v_lo v_hi].
  rewrite (deref_Some _ _ _ Hl). unfold view_ncols. cbn [v_lo v_hi].
  rewrite Nat.sub_0_r, broadcast_to_same by done. reflexivity.
Qed.

Lemma swarm_data_alloc (s : State F) (tmp : Arr F) :
  variables_allocated s →
  swarm_data (set_heap (λ _, heap s ++ [tmp]) s) = swarm_data s.
Proof.
  intros Hwf. unfold swarm_data. cbn. f_equal.
  apply list_fmap_ext. intros i v Hv.
  pose proof (Forall_lookup_1 _ _ _ _ Hwf Hv) as Hlt. cbn in Hlt.
  unfold deref. by rewrite lookup_app_l.
Qed.

(** The tensor branch run through: the array returned by [rotateTensor2D]
    stays behind as garbage and the field gets the increment added. *)
Lemma integrate_field_tensor_run (dt : F) (field : Field)
    (s : State F) (obj : SwarmVariable) (a : Arr F) :
  field_timeIntegration field = true →
  attrs (self s) !! field_name field = Some obj →
  mesh (self s) = Some 2 →
  variables_allocated s →
  heap s !! var_data obj = Some a →
  2 < ncols a →
  length (concat (rows (evaluate AngularVelocity (velocityField s)
                                 (swarm_data s))))
  = nrows a →
  ncols (evaluate (field_value field) (velocityField s) (swarm_data s)) = 3 →
  nrows (evaluate (field_value field) (velocityField s) (swarm_data s))
  = nrows a →
  integrate_field dt field s
  = (Ok tt,
     set_heap
       (λ h, <[var_data obj :=
                 add_columns 3 a
                   (evaluate (field_value field) (velocityField s)
                             (swarm_data s))]>
             (h ++ [rotated (view_arr a (mkView (var_data obj) 0 3))
                      (map (fmul dt)
                         (concat (rows (evaluate AngularVelocity
                                          (velocityField s)
                                          (swarm_data s)))))]))
       s).
Proof.
  intros Htime Hobj Hmesh Hwf Ha Hw Hang Hxw Hxn.
  unfold integrate_field. rewrite Htime.
  rewrite bind_run. unfold getattr. rewrite Hobj.
  rewrite bind_run. unfold self_mesh. rewrite Hmesh.
  rewrite bind_run. cbn [gets]. rewrite (deref_Some _ _ _ Ha).
  rewrite bool_decide_eq_true_2 by done.
  rewrite bool_decide_eq_true_2 by done. cbn [andb].
  rewrite bind_run. cbn [evaluate_on_swarm gets].
  rewrite bind_run. unfold on_heap at 1.
  rewrite (rotateTensor2D_value _ _ _ a);
    [ | done
      | unfold view_arr, view_ncols; cbn [ncols v_hi v_lo]; lia
      | rewrite length_map, Hang; unfold nrows, view_arr; cbn [rows];
        by rewrite length_map ].
  rewrite bind_run. cbn [evaluate_on_swarm gets velocityField set_heap].
  rewrite swarm_data_alloc by done.
  unfold on_heap. cbn [heap set_heap].
  rewrite (iadd_view_run _ _ _ _ a);
    [ | by apply lookup_app_l_Some | rewrite Hxw; lia | done ].
  replace (3 `min` ncols a) with 3 by lia. by destruct s.
Qed.

(** C1 at the code, for an instance to which the caller has attached a
    two-dimensional [mesh] attribute.  [integrate] calls [rotateTensor2D] on
    the accumulated tensor and drops the array it returns; by C10 the
    accumulated tensor is not touched by the call, so the stored value
    after the step is the old tensor plus the sampled increment, with no
    rotation, whatever the angle. *)
Theorem integrate_tensor_field_not_rotated (dt : F) (field : Field)
    (s : State F) (obj : SwarmVariable) (a : Arr F) :
  field_timeIntegration field = true →
  attrs (self s) !! field_name field = Some obj →
  mesh (self s) = Some 2 →
  variables_allocated s →
  heap s !! var_data obj = Some a →
  2 < ncols a →
  length (concat (rows (evaluate AngularVelocity (velocityField s)
                                 (swarm_data s))))
  = nrows a →
  ncols (evaluate (field_value field) (velocityField s) (swarm_data s)) = 3 →
  nrows (evaluate (field_value field) (velocityField s) (swarm_data s))
  = nrows a →
  (integrate_field dt field s).1 = Ok tt
  ∧ heap (integrate_field dt field s).2 !! var_data obj
    = Some (add_columns 3 a
              (evaluate (field_value field) (velocityField s)
                        (swarm_data s))).
Proof.
  intros Htime Hobj Hmesh Hwf Ha Hw Hang Hxw Hxn.
  rewrite (integrate_field_tensor_run dt field s obj a) by done.
  cbn [fst snd heap set_heap]. split; [done|].
  apply list_lookup_insert_eq. rewrite length_app.
  apply lookup_lt_Some in Ha. lia.
Qed.

(** For an instance with a [mesh] attribute, a time-integrated field that
    takes the other branch is updated to [storage + sampler * dt]. *)
Lemma integrate_field_accumulates_with_mesh (dt : F) (field : Field)
    (s : State F) (obj : SwarmVariable) (a : Arr F) (d : nat) :
  field_timeIntegration field = true →
  attrs (self s) !! field_name field = Some obj →
  mesh (self s) = Some d →
  heap s !! var_data obj = Some a →
  ¬ (d = 2 ∧ 2 < ncols a) →
  ncols (evaluate (field_value field) (velocityField s) (swarm_data s))
  = ncols a →
  nrows (evaluate (field_value field) (velocityField s) (swarm_data s))
  = nrows a →
  integrate_field dt field s
  = (Ok tt,
     set_heap (λ h, <[var_data obj :=
                        add_columns (ncols a) a
                          (scale_r (evaluate (field_value field)
                                             (velocityField s)
                                             (swarm_data s)) dt)]> h) s).
Proof.
  intros Htime Hobj Hmesh Ha Hbranch Hxw Hxn.
  unfold integrate_field. rewrite Htime.
  rewrite bind_run. unfold getattr. rewrite Hobj.
  rewrite bind_run. unfold self_mesh. rewrite Hmesh.
  rewrite bind_run. cbn [gets]. rewrite (deref_Some _ _ _ Ha).
  replace (bool_decide (d = 2) && bool_decide (2 < ncols a)) with false.
  2:{ symmetry. apply andb_false_iff.
      destruct (decide (d = 2)); [right | left];
        apply bool_decide_eq_false; tauto. }
  rewrite bind_run. cbn [evaluate_on_swarm gets].
  unfold on_heap, iadd. rewrite (deref_Some _ _ _ Ha).
  rewrite (iadd_view_run _ _ _ _ a);
    [ | done
      | cbn; rewrite Hxw; lia
      | unfold nrows, scale_r in *; cbn; by rewrite length_map ].
  by rewrite Nat.min_id.
Qed.

(** The identities are written by the constructor; registering a field
    leaves them alone and [integrate] leaves them as the advector returns
    them. *)
Lemma init_assigns_identities (d : nat) (velocity : Arr F) (nm : string)
    (vertices : list (coord F)) (escape zonly : bool) (s : State F) :
  init d velocity nm vertices escape zonly = Ok s →
  global_index (swarm s)
  = global_index_values byte_order (Z.of_nat rank)
                        (particleLocalCount (swarm s)).
Proof. by intros (coords & _ & ->)%init_Ok. Qed.

Lemma add_tracked_field_global_index (value : pyvalue)
    (nm units dataType : string) (count : nat)
    (overwrite timeIntegration : bool) (s : State F) :
  global_index (swarm (add_tracked_field value nm units dataType count
                                         overwrite timeIntegration s).2)
  = global_index (swarm s).
Proof.
  destruct (add_tracked_field_cases value nm units dataType count overwrite
              timeIntegration s) as [-> | (v & fields & _ & -> & _)];
    [done | ].
  apply registration_frame.
Qed.

Lemma integrate_global_index (dt : F) (s : State F) :
  global_index (swarm (integrate dt s).2)
  = global_index (swarm (advection_step dt s).2).
Proof.
  destruct (advection_step dt s) as [[[]|e] s1] eqn:Hadv.
  - by destruct (integrate_after_advection _ _ _ Hadv) as [h' ->].
  - by rewrite (integrate_advection_raises _ _ _ _ Hadv).
Qed.

(** While [mesh] is unbound the loop stops at the first field accumulated
    in time, whatever its width. *)
Lemma field_loop_raises_while_mesh_unbound (dt : F) (s : State F) :
  mesh (self s) = None →
  Exists (λ f, field_timeIntegration f = true) (tracked_field (self s)) →
  for_each (integrate_field dt) (tracked_field (self s)) s
  = (Raise AttributeError, s).
Proof.
  intros Hmesh (f & Hin & Htime)%Exists_exists.
  by eapply field_loop_unbound_mesh.
Qed.

End IntegrateFacts.

Section SaveFacts.
Context {F : Type} {ops : FloatOps F} {ext : Externals F}.

Lemma is_h5_insert (fl : gmap string file) (p q : string)
    (d : gmap string nat) :
  is_h5 fl p → is_h5 (<[q := H5File d]> fl) p.
Proof.
  intros [d' Hd']. destruct (decide (q = p)) as [->|Hne].
  - exists d. apply lookup_insert_eq.
  - exists d'. by rewrite lookup_insert_ne.
Qed.

Lemma variable_save_run (path : string) (s : State F) :
  variable_save path s
  = (Ok path,
     set_files
       (<[path := H5File (variable_save_datasets (swarm_data s) path)]>)
       (logged [VariableSave path] s)).
Proof. reflexivity. Qed.

Lemma swarm_save_run (path : string) (s : State F) :
  swarm_save path s
  = (Ok path,
     set_files (<[path := H5File (swarm_save_datasets (swarm_data s))]>)
               (logged [SwarmSave path] s)).
Proof. reflexivity. Qed.

(** One pass of the loop of [save]: it raises before writing anything, or
    it writes the container of the field and extends the descriptor
    text. *)
Lemma save_field_post (outputDir checkpointID text : string) (field : Field)
    (s : State F) :
  self (save_field outputDir checkpointID text field s).2 = self s
  ∧ swarm (save_field outputDir checkpointID text field s).2 = swarm s
  ∧ (∀ p, is_h5 (files s) p →
          is_h5 (files (save_field outputDir checkpointID text field s).2) p)
  ∧ ((∃ e, (save_field outputDir checkpointID text field s).1 = Raise e
           ∧ trace (save_field outputDir checkpointID text field s).2
             = trace s)
     ∨ ((save_field outputDir checkpointID text field s).1
        = Ok (if decide (rank = 0)
              then text +:+ swarmvarschema
                              (field_path (name (self s)) outputDir
                                          checkpointID field)
                              (field_name field)
              else text)
        ∧ trace (save_field outputDir checkpointID text field s).2
          = trace s
            ++ [VariableSave (field_path (name (self s)) outputDir
                                         checkpointID field)])).
Proof.
  unfold save_field. rewrite bind_run. cbn [gets].
  rewrite bind_run. unfold getattr.
  destruct (attrs (self s) !! field_name field) as [obj|];
    [ | repeat split; [done | left; by eexists] ].
  rewrite bind_run.
  destruct (field_timeIntegration field); cbn [negb].
  - cbn [mret M_ret ret]. rewrite bind_run, variable_save_run.
    cbn. repeat split; [ | by right].
    intros p Hp. by apply is_h5_insert.
  - rewrite bind_run. cbn [evaluate_on_swarm gets]. unfold on_heap.
    destruct (assign _ _ (heap s)) as [[[]|e] h'].
    + rewrite bind_run, variable_save_run.
      cbn. repeat split; [ | by right].
      intros p Hp. by apply is_h5_insert.
    + cbn. repeat split; [done | left; by eexists].
Qed.

(** The loop of [save] over the fields: the events it adds are the
    dataset writes of the fields it got through, in registration order,
    and nothing else. *)
Lemma save_fields_post (outputDir checkpointID : string)
    (fields : list Field) :
  ∀ (text : string) (s : State F),
    self (save_fields outputDir checkpointID text fields s).2 = self s
    ∧ swarm (save_fields outputDir checkpointID text fields s).2 = swarm s
    ∧ (∀ p, is_h5 (files s) p →
            is_h5 (files (save_fields outputDir checkpointID text fields
                                      s).2) p)
    ∧ ∃ written,
        written `prefix_of` fields
        ∧ trace (save_fields outputDir checkpointID text fields s).2
          = trace s
            ++ ((λ f, VariableSave (field_path (name (self s)) outputDir
                                               checkpointID f))
                <$> written)
        ∧ ∀ text',
            (save_fields outputDir checkpointID text fields s).1 = Ok text' →
            written = fields
            ∧ text' = if decide (rank = 0)
                      then with_schemas (name (self s)) outputDir
                                        checkpointID text fields
                      else text.
Proof.
  induction fields as [|f fs IH]; intros text s.
  - cbn. split_and!; [done.. | ]. exists []. rewrite app_nil_r.
    split_and!; [done.. | ]. intros text' [= <-].
    split; [done | by case_decide].
  - cbn [save_fields]. rewrite bind_run.
    destruct (save_field_post outputDir checkpointID text f s)
      as (Hself & Hswarm & Hh5 & Hcase).
    destruct (save_field outputDir checkpointID text f s) as [[t1|e] s1];
      cbn [fst snd] in *.
    + destruct Hcase as [(e & [=] & _) | [[= Ht1] Htr]].
      destruct (IH t1 s1) as (Hself' & Hswarm' & Hh5' & written & Hpre & Htr'
                              & Hok).
      split_and!; [congruence | congruence | by auto | ].
      exists (f :: written). rewrite Hself in *. split_and!.
      * by apply prefix_cons.
      * rewrite Htr', Htr, <- app_assoc. done.
      * intros text' Hrun. apply Hok in Hrun as [-> ->]. split; [done|].
        subst t1. by case_decide.
    + split_and!; [done.. | ].
      destruct Hcase as [(e' & _ & Htr) | [[=] _]].
      exists []. rewrite app_nil_r. split_and!; [apply prefix_nil | done..].
Qed.

Lemma save_datasets_post (outputDir checkpointID : string) (time : F)
    (s : State F) :
  self (save_datasets outputDir checkpointID time s).2 = self s
  ∧ swarm (save_datasets outputDir checkpointID time s).2 = swarm s
  ∧ is_h5 (files (save_datasets outputDir checkpointID time s).2)
          (swarm_fpath (name (self s)) outputDir checkpointID)
  ∧ ∃ written tail,
      written `prefix_of` tracked_field (self s)
      ∧ trace (save_datasets outputDir checkpointID time s).2
        = trace s
          ++ dataset_events (name (self s)) outputDir checkpointID written
          ++ tail
      ∧ (∀ e, (save_datasets outputDir checkpointID time s).1 = Raise e →
              tail = [])
      ∧ ∀ text,
          (save_datasets outputDir checkpointID time s).1 = Ok text →
          written = tracked_field (self s) ∧ tail = [Barrier]
          ∧ text = if decide (rank = 0)
                   then descriptor_schemas (name (self s)) outputDir
                                           checkpointID time
                                           (tracked_field (self s))
                   else EmptyString.
Proof.
  unfold save_datasets. rewrite bind_run. cbn [gets].
  rewrite bind_run, swarm_save_run.
  rewrite bind_run. cbn [log modify].
  rewrite bind_run, variable_save_run.
  rewrite bind_run. cbn [log modify].
  rewrite bind_run. cbn [gets].
  set (nm := name (self s)).
  set (s0 := logged [Barrier] (set_files _ (logged [VariableSave _] _))).
  set (text0 := if decide (rank = 0) then _ else _).
  assert (Hs0 : is_h5 (files s0) (swarm_fpath nm outputDir checkpointID)).
  { subst s0. cbn. apply is_h5_insert. eexists. apply lookup_insert_eq. }
  rewrite bind_run.
  pose proof (save_fields_post outputDir checkpointID
                (tracked_field (self s0)) text0 s0) as Hpost.
  destruct (save_fields outputDir checkpointID text0
                        (tracked_field (self s0)) s0) as [[text1|e] s1].
  all: destruct Hpost as (Hself & Hswarm & Hh5 & written & Hpre & Htr & Hok).
  all: cbn [fst snd] in *.
  all: change (tracked_field (self s0)) with (tracked_field (self s)) in *.
  all: change (name (self s0)) with nm in *.
  - rewrite bind_run. cbn [log modify mret M_ret ret fst snd].
    split_and!; [done | done | by apply Hh5 | ].
    exists written, [Barrier].
    destruct (Hok text1 eq_refl) as [-> ->].
    split_and!; [done | | done | ].
    + cbn [logged trace]. rewrite Htr. subst s0. cbn [logged trace set_files].
      unfold dataset_events. by rewrite <- !app_assoc.
    + intros text [= <-]. split_and!; [done.. | ].
      subst text0. unfold descriptor_schemas.
      by repeat case_decide.
  - split_and!; [done | done | by apply Hh5 | ].
    exists written, []. split_and!; [done | | done | done].
    rewrite Htr. subst s0. cbn [logged trace set_files].
    unfold dataset_events. by rewrite <- !app_assoc, app_nil_r.
Qed.

Lemma save_datasets_raises (outputDir checkpointID : string) (time : F)
    (s s1 : State F) (e : exn) :
  save_datasets outputDir checkpointID time s = (Raise e, s1) →
  save outputDir checkpointID time s = (Raise e, s1).
Proof. intros Hds. unfold save. by rewrite bind_run, Hds. Qed.


(** [save] behind the datasets. *)
Lemma save_after_datasets (outputDir checkpointID : string) (time : F)
    (s s1 : State F) (text : string) :
  save_datasets outputDir checkpointID time s = (Ok text, s1) →
  save outputDir checkpointID time s
  = if decide (rank = 0) then
      let fpath := swarm_fpath (name (self s1)) outputDir checkpointID in
      match files s1 !! fpath with
      | Some (H5File h5f) =>
          match h5f !! "data" with
          | None => (Raise RuntimeError, logged [OpenRead fpath] s1)
          | Some globalCount =>
              let filename :=
                xdmf_filename (name (self s1)) outputDir checkpointID in
              let content :=
                descriptor (name (self s1)) outputDir checkpointID text
                           globalCount (mesh_dim (swarm s1)) in
              (Ok tt,
               logged [Barrier]
                 (set_files (<[filename := TextFile content]>)
                    (logged [WriteText filename content]
                            (logged [OpenRead fpath] s1))))
          end
      | _ => (Raise IOError, logged [OpenRead fpath] s1)
      end
    else (Ok tt, logged [Barrier] s1).
Proof.
  intros Hds. unfold save. rewrite bind_run, Hds.
  case_decide; [ | done].
  rewrite bind_run. unfold finish_descriptor.
  rewrite bind_run. cbn [gets]. rewrite bind_run. cbn [log modify].
  rewrite bind_run. cbn [gets logged files self].
  destruct (files s1 !! _) as [[h5f|]|]; [ | done..].
  destruct (h5f !! "data") as [n|]; [ | done].
  rewrite bind_run. cbn [gets]. unfold write_text.
  rewrite bind_run. cbn [log modify]. reflexivity.
Qed.

Lemma save_trace_after_datasets (outputDir checkpointID : string) (time : F)
    (s s1 : State F) (text : string) :
  save_datasets outputDir checkpointID time s = (Ok text, s1) →
  ∃ fin, trace (save outputDir checkpointID time s).2 = trace s1 ++ fin.
Proof.
  intros Hds. rewrite (save_after_datasets _ _ _ _ _ _ Hds).
  case_decide; [ | by eexists].
  cbv zeta.
  destruct (files s1 !! swarm_fpath (name (self s1)) outputDir checkpointID)
    as [[h5f|]|]; [ | by eexists..].
  destruct (h5f !! "data") as [n|]; [ | by eexists].
  cbn [snd trace logged set_files]. rewrite <- !app_assoc. by eexists.
Qed.

(** C8, amended.  In [save] the loop over the registered fields, taken in
    registration order, performs no barrier: between the barrier that
    follows the identity dataset and the end of the loop the only events
    are the dataset writes of the fields.  One barrier follows the loop,
    once the last field has been written. *)
Theorem save_one_barrier_after_all_fields (outputDir checkpointID : string)
    (time : F) (s : State F) :
  ∃ written tail,
    written `prefix_of` tracked_field (self s)
    ∧ trace (save outputDir checkpointID time s).2
      = trace s
        ++ [SwarmSave (swarm_fpath (name (self s)) outputDir checkpointID);
            Barrier;
            VariableSave (global_index_path (name (self s)) outputDir
                                            checkpointID);
            Barrier]
        ++ ((λ f, VariableSave (field_path (name (self s)) outputDir
                                           checkpointID f)) <$> written)
        ++ tail
    ∧ ((∃ e, (save_datasets outputDir checkpointID time s).1 = Raise e
             ∧ tail = [])
       ∨ (written = tracked_field (self s)
          ∧ ∃ tail', tail = Barrier :: tail')).
Proof.
  destruct (save_datasets_post outputDir checkpointID time s)
    as (Hself & Hswarm & Hh5 & written & tail & Hpre & Htr & Hraise & Hok).
  unfold dataset_events in Htr. rewrite <- app_assoc in Htr.
  destruct (save_datasets outputDir checkpointID time s) as [[text|e] s1]
    eqn:Hds; cbn [fst snd] in *.
  - destruct (Hok text eq_refl) as (-> & -> & _).
    destruct (save_trace_after_datasets _ _ _ _ _ _ Hds) as [fin Hfin].
    exists (tracked_field (self s)), (Barrier :: fin).
    split; [done | ]. split.
    + rewrite Hfin, Htr, <- !app_assoc. done.
    + right. split; [done | by eexists].
  - rewrite (save_datasets_raises _ _ _ _ _ _ Hds). cbn [snd].
    exists written, tail. split; [done | ]. split; [done | ].
    left. exists e. split; [done | by eapply Hraise].
Qed.


(** [save] leaves the instance and the swarm as they are. *)
Lemma save_self_swarm (outputDir checkpointID : string) (time : F)
    (s : State F) :
  self (save outputDir checkpointID time s).2 = self s
  ∧ swarm (save outputDir checkpointID time s).2 = swarm s.
Proof.
  destruct (save_datasets_post outputDir checkpointID time s)
    as (Hself & Hswarm & _).
  destruct (save_datasets outputDir checkpointID time s) as [[text|e] s1]
    eqn:Hds; cbn [fst snd] in *.
  - rewrite (save_after_datasets _ _ _ _ _ _ Hds).
    case_decide; [ | done]. cbv zeta.
    destruct (files s1 !! swarm_fpath (name (self s1)) outputDir checkpointID)
      as [[h5f|]|]; [ | done..].
    by destruct (h5f !! "data").
  - by rewrite (save_datasets_raises _ _ _ _ _ _ Hds).
Qed.

End SaveFacts.

Section UsageFacts.
Context {F : Type} {ops : FloatOps F} {ext : Externals F}.

Lemma find_tracked_None (nm : string) (v : Fn) (fields : list Field) :
  find_tracked nm v fields = None
  ↔ Forall (λ f, nm ≠ field_name f ∧ v ≠ field_value f) fields.
Proof.
  induction fields as [|f fs IH]; cbn [find_tracked]; [done | ].
  destruct (bool_decide (nm = field_name f) || bool_decide (v = field_value f))
    eqn:Hf.
  - split; [done | ]. intros [Hne _]%Forall_cons.
    apply orb_true_iff in Hf as [Hf|Hf]; apply bool_decide_eq_true in Hf; tauto.
  - apply orb_false_iff in Hf as [Hf1 Hf2].
    apply bool_decide_eq_false in Hf1, Hf2.
    rewrite Forall_cons, <- IH.
    destruct (find_tracked nm v fs) as [k|]; cbn.
    + split; [done | by intros [_ ?]].
    + split; [by intros _ | done].
Qed.

(** The search stops at the first entry that matches. *)
Lemma find_tracked_first (nm : string) (v : Fn) (fields : list Field)
    (i : nat) :
  find_tracked nm v fields = Some i →
  (∃ f, fields !! i = Some f ∧ (nm = field_name f ∨ v = field_value f))
  ∧ ∀ k f, k < i → fields !! k = Some f →
           nm ≠ field_name f ∧ v ≠ field_value f.
Proof.
  revert i. induction fields as [|f fs IH]; intros i; cbn [find_tracked];
    [done | ].
  destruct (bool_decide (nm = field_name f) || bool_decide (v = field_value f))
    eqn:Hf.
  - intros [= <-]. split; [ | intros; lia]. exists f. split; [done | ].
    apply orb_true_iff in Hf as [Hf|Hf]; apply bool_decide_eq_true in Hf; auto.
  - apply orb_false_iff in Hf as [Hf1 Hf2].
    apply bool_decide_eq_false in Hf1, Hf2.
    destruct (find_tracked nm v fs) as [i'|]; [ | done].
    intros [= <-]. destruct (IH i' eq_refl) as [Hm Hfirst].
    split; [done | ]. intros [|k] g Hk Hg.
    + injection Hg as <-. done.
    + apply (Hfirst k); [lia | done].
Qed.


(** X2.  [add_tracked_field] releases nothing.  Whatever the outcome of a
    registration under a name that is not one of the instance's own
    attributes, the variables attached to the swarm before the call are
    still attached, every array that existed is in memory as it was, the
    registry has lost no entry, and every attribute other than the name
    just registered is bound as before.  A call that returns has attached
    exactly one more variable to the swarm and allocated exactly one more
    array, also when it replaces an entry of the registry: the variable of
    the replaced entry stays attached to the swarm. *)
Theorem add_tracked_field_releases_nothing (value : pyvalue)
    (nm units dataType : string) (count : nat)
    (overwrite timeIntegration : bool) (s : State F) :
  nm ∉ own_attributes →
  let run := add_tracked_field value nm units dataType count overwrite
                               timeIntegration s in
  variables (swarm s) `prefix_of` variables (swarm run.2)
  ∧ heap s `prefix_of` heap run.2
  ∧ length (tracked_field (self run.2)) ≥ length (tracked_field (self s))
  ∧ (∀ other, other ≠ nm →
       attrs (self run.2) !! other = attrs (self s) !! other)
  ∧ (run.1 = Ok tt →
     ∃ svar a,
       variables (swarm run.2) = variables (swarm s) ++ [svar]
       ∧ heap run.2 = heap s ++ [a]
       ∧ attrs (self run.2) !! nm = Some svar
       ∧ var_data svar = length (heap s)).
Proof.
  intros _. cbv zeta.
  destruct (add_tracked_field_cases value nm units dataType count overwrite
              timeIntegration s) as [-> | (v & fields & -> & -> & Hfields)].
  { cbn. split_and!; [done | done | lia | done | by intros [=]]. }
  destruct (registration_frame s fields nm dataType count)
    as (Hreg & _ & _ & _ & _ & Hheap & Hvars & Hattrs).
  split_and!; [done | done | | done | ].
  - rewrite Hreg. destruct Hfields as [[_ ->] | (i & _ & _ & ->)].
    + rewrite length_app. lia.
    + rewrite length_insert. lia.
  - destruct (registration s fields nm dataType count) as [[[]|e] s']
      eqn:Hrun; [ | done]. intros _.
    apply registration_Ok in Hrun as (_ & _ & ->). cbn.
    eexists _, _. split_and!; [done | done | apply lookup_insert_eq | done].
Qed.

(** X3.  With [overwrite=False] the registry stays free of duplicates.
    For a name that is not one of the instance's own attributes: when no
    two entries share a name and no two share a function, the same holds
    after the call, whether it returns or raises. *)
Theorem add_tracked_field_keeps_registry_unique (value : pyvalue)
    (nm units dataType : string) (count : nat) (timeIntegration : bool)
    (s : State F) :
  nm ∉ own_attributes →
  NoDup (field_name <$> tracked_field (self s)) →
  NoDup (field_value <$> tracked_field (self s)) →
  NoDup (field_name
           <$> tracked_field
                 (self (add_tracked_field value nm units dataType count false
                                          timeIntegration s).2))
  ∧ NoDup (field_value
             <$> tracked_field
                   (self (add_tracked_field value nm units dataType count
                                            false timeIntegration s).2)).
Proof.
  intros _ Hnames Hvalues.
  destruct (add_tracked_field_cases value nm units dataType count false
              timeIntegration s) as [-> | (v & fields & -> & -> & Hfields)];
    [done | ].
  destruct (registration_frame s fields nm dataType count) as (-> & _).
  destruct Hfields as [[Hnew ->] | (i & _ & [=] & _)].
  apply find_tracked_None in Hnew. rewrite !fmap_app. cbn.
  split; apply NoDup_app; split_and!; try done; try apply NoDup_singleton.
  - intros x (f & -> & Hf)%list_elem_of_fmap Hx%list_elem_of_singleton.
    destruct (proj1 (Forall_forall _ _) Hnew f Hf). congruence.
  - intros x (f & -> & Hf)%list_elem_of_fmap Hx%list_elem_of_singleton.
    destruct (proj1 (Forall_forall _ _) Hnew f Hf). congruence.
Qed.

(** X4.  With [overwrite=True] the registry can end up with two entries
    of one name.  For a name that is not one of the instance's own
    attributes: when an entry holds the function [v] and an entry behind
    it has the name [nm], registering [v] under [nm] renames the first
    entry that matches and leaves the later one, so the names of the
    registry, distinct before the call, are no longer distinct after it,
    whether the call returns or the swarm refuses the variable.  It
    returns when the swarm has the data type, the count is at least one
    and [setattr] takes the name. *)
Theorem add_tracked_field_overwrite_duplicates_name (s : State F) (v : Fn)
    (nm units dataType : string) (count : nat) (timeIntegration : bool)
    (i j : nat) (fi fj : Field) :
  nm ∉ own_attributes →
  NoDup (field_name <$> tracked_field (self s)) →
  tracked_field (self s) !! i = Some fi →
  tracked_field (self s) !! j = Some fj →
  i < j → field_value fi = v → field_name fj = nm →
  ¬ NoDup (field_name
             <$> tracked_field
                   (self (add_tracked_field (PyFunction v) nm units
                                            dataType count true
                                            timeIntegration s).2))
  ∧ (supported_dataType dataType = true → 1 ≤ count →
     setattr_error nm = None →
     (add_tracked_field (PyFunction v) nm units dataType count true
                        timeIntegration s).1 = Ok tt).
Proof.
  intros _ _ Hi Hj Hij Hv Hn.
  destruct (find_tracked_match nm v (tracked_field (self s)) fi)
    as (i0 & matched & Hfind & Hi0 & _);
    [by eapply list_elem_of_lookup_2 | by right | ].
  rewrite (add_tracked_field_overwrite_run _ _ _ _ _ _ _ i0 Hfind).
  split.
  - destruct (registration_frame s
                (<[i0 := mkField v nm units timeIntegration dataType]>
                   (tracked_field (self s))) nm dataType count) as (-> & _).
    assert (Hle : i0 ≤ i).
    { destruct (decide (i0 ≤ i)) as [|Hgt]; [done | ].
      destruct (find_tracked_first _ _ _ _ Hfind) as [_ Hfirst].
      destruct (Hfirst i fi) as [_ Hne]; [lia | done | congruence]. }
    intros Hnd.
    assert (i0 = j); [ | lia].
    apply (NoDup_lookup _ i0 j nm Hnd).
    + rewrite list_lookup_fmap, list_lookup_insert_eq; [done | ].
      by eapply lookup_lt_Some.
    + rewrite list_lookup_fmap, list_lookup_insert_ne by lia.
      by rewrite Hj, <- Hn.
  - intros Hd Hc Hsn. rewrite registration_returns; [done | | done].
    by apply add_variable_error_None.
Qed.

End UsageFacts.

Section MethodFacts.
Context {F : Type} {ops : FloatOps F} {ext : Externals F}.

(** *** [integrate] on its own *)

Lemma field_loop_skips (dt : F) (fields : list Field) (s : State F) :
  Forall (λ f, field_timeIntegration f = false) fields →
  for_each (integrate_field dt) fields s = (Ok tt, s).
Proof.
  induction 1 as [|f fs Hf _ IH]; [done | ].
  cbn [for_each]. by rewrite bind_run, integrate_field_skip.
Qed.

(** X5.  On an instance whose registry holds no field accumulated in
    time, [integrate] is the advection step and nothing else: it returns
    or raises as the advection step does and leaves the state the advection
    step leaves, no sampler being evaluated and no storage written,
    whether or not the instance has a [mesh] attribute. *)
Theorem integrate_without_accumulated_fields (dt : F) (s : State F) :
  Forall (λ f, field_timeIntegration f = false) (tracked_field (self s)) →
  integrate dt s = advection_step dt s.
Proof.
  intros Hfields. unfold integrate. rewrite bind_run.
  pose proof (advection_step_self dt s) as Hself.
  destruct (advection_step dt s) as [[[]|e] s1]; [ | done].
  cbn [snd] in Hself. rewrite bind_run. cbn [gets]. rewrite Hself.
  by apply field_loop_skips.
Qed.

(** X6.  When the swarm is not vertical-axis-only, [integrate] hands the
    velocity field to the advector as it is and never writes to it: the
    field holds the same values after the call, whether the call returns
    or raises; the markers are where the advector left them, and an error
    of the advector is the error of the call. *)
Theorem integrate_full_leaves_velocity (dt : F) (s : State F) :
  zOnly (self s) = false →
  velocityField (integrate dt s).2 = velocityField s
  ∧ particleCoordinates (swarm (integrate dt s).2)
    = sd_coords (advector_integrate (velocityField s) dt (swarm_data s)).2
  ∧ ∀ e, (advector_integrate (velocityField s) dt (swarm_data s)).1 = Some e →
         (integrate dt s).1 = Raise e.
Proof.
  intros Hz. pose proof (advection_step_full dt s Hz) as Hstep.
  cbv zeta in Hstep.
  destruct (advector_integrate (velocityField s) dt (swarm_data s))
    as [[e|] sd]; cbn [fst snd] in *.
  - rewrite (integrate_advection_raises _ _ _ _ Hstep).
    split_and!; [done | done | by intros ? [= <-]].
  - destruct (integrate_after_advection _ _ _ Hstep) as [h' ->].
    split_and!; done.
Qed.

Lemma field_loop_unbound_mesh_run (dt : F) (fields : list Field)
    (s : State F) :
  mesh (self s) = None →
  for_each (integrate_field dt) fields s
  = (if existsb field_timeIntegration fields then Raise AttributeError
     else Ok tt, s).
Proof.
  intros Hmesh. induction fields as [|f fs IH]; [done | ].
  cbn [for_each existsb]. rewrite bind_run.
  destruct (field_timeIntegration f) eqn:Hf; cbn [orb].
  - by rewrite integrate_field_unbound_mesh.
  - by rewrite integrate_field_skip.
Qed.

(** While the instance has no attribute [mesh], [integrate] leaves the
    state of the advection step. *)
Lemma integrate_unbound_mesh_run (dt : F) (s : State F) :
  mesh (self s) = None →
  integrate dt s
  = (match (advection_step dt s).1 with
     | Ok _ => if existsb field_timeIntegration (tracked_field (self s))
               then Raise AttributeError else Ok tt
     | Raise e => Raise e
     end, (advection_step dt s).2).
Proof.
  intros Hmesh. unfold integrate. rewrite bind_run.
  pose proof (advection_step_self dt s) as Hself.
  destruct (advection_step dt s) as [[[]|e] s1]; [ | done].
  cbn [fst snd] in *. rewrite bind_run. cbn [gets]. rewrite Hself.
  apply field_loop_unbound_mesh_run. by rewrite Hself.
Qed.

(** *** Arrays are never released *)




Lemma length_assign (l : nat) (x : Arr F) (h : Heap F) :
  length (assign l x h).2 = length h.
Proof.
  unfold assign. destruct (broadcast_to _ _ x); [ | done].
  cbn [snd]. apply length_insert.
Qed.




(** *** What [save] writes to *)

Lemma save_field_heap (outputDir checkpointID text : string) (field : Field)
    (s : State F) :
  length (heap (save_field outputDir checkpointID text field s).2)
  = length (heap s)
  ∧ ∀ l, ¬ refreshed [field] (self s) l →
         heap (save_field outputDir checkpointID text field s).2 !! l
         = heap s !! l.
Proof.
  unfold save_field. rewrite bind_run. cbn [gets].
  rewrite bind_run. unfold getattr.
  destruct (attrs (self s) !! field_name field) as [obj|] eqn:Hobj; [ | done].
  rewrite bind_run.
  destruct (field_timeIntegration field) eqn:Htime; cbn [negb].
  - cbn [mret M_ret ret]. by rewrite bind_run, variable_save_run.
  - rewrite bind_run. cbn [evaluate_on_swarm gets]. unfold on_heap.
    pose proof (length_assign (var_data obj)
                  (evaluate (field_value field) (velocityField s)
                            (swarm_data s)) (heap s)) as Hlen.
    assert (Hframe : ∀ l, l ≠ var_data obj →
              (assign (var_data obj)
                 (evaluate (field_value field) (velocityField s)
                           (swarm_data s)) (heap s)).2 !! l = heap s !! l).
    { intros l Hl. unfold assign. destruct (broadcast_to _ _ _); [ | done].
      cbn [snd]. by rewrite list_lookup_insert_ne. }
    destruct (assign _ _ (heap s)) as [[[]|e] h']; cbn [snd] in *.
    + rewrite bind_run, variable_save_run. cbn. split; [done | ].
      intros l Hl. apply Hframe. intros ->. apply Hl.
      exists field, obj. split_and!; [apply list_elem_of_here | done..].
    + cbn. split; [done | ].
      intros l Hl. apply Hframe. intros ->. apply Hl.
      exists field, obj. split_and!; [apply list_elem_of_here | done..].
Qed.

Lemma save_fields_heap (outputDir checkpointID : string)
    (fields : list Field) :
  ∀ (text : string) (s : State F),
    length (heap (save_fields outputDir checkpointID text fields s).2)
    = length (heap s)
    ∧ ∀ l, ¬ refreshed fields (self s) l →
           heap (save_fields outputDir checkpointID text fields s).2 !! l
           = heap s !! l.
Proof.
  induction fields as [|f fs IH]; intros text s; [done | ].
  cbn [save_fields]. rewrite bind_run.
  destruct (save_field_heap outputDir checkpointID text f s) as [Hlen Hfr].
  destruct (save_field_post outputDir checkpointID text f s) as (Hself & _).
  assert (Hf : ∀ l, ¬ refreshed (f :: fs) (self s) l →
                    ¬ refreshed [f] (self s) l).
  { intros l Hl (g & obj & Hin%list_elem_of_singleton & Hg). subst g.
    apply Hl. exists f, obj. split; [apply list_elem_of_here | done]. }
  destruct (save_field outputDir checkpointID text f s) as [[t1|e] s1];
    cbn [snd] in *; [ | by auto].
  destruct (IH t1 s1) as [Hlen' Hfr']. split; [congruence | ].
  intros l Hl. rewrite Hfr', Hfr; [done | by auto | ].
  rewrite Hself. intros (g & obj & Hin & Hg). apply Hl.
  exists g, obj. split; [by apply list_elem_of_further | done].
Qed.

Lemma save_datasets_heap (outputDir checkpointID : string) (time : F)
    (s : State F) :
  length (heap (save_datasets outputDir checkpointID time s).2)
  = length (heap s)
  ∧ ∀ l, ¬ refreshed (tracked_field (self s)) (self s) l →
         heap (save_datasets outputDir checkpointID time s).2 !! l
         = heap s !! l.
Proof.
  unfold save_datasets. rewrite bind_run. cbn [gets].
  rewrite bind_run, swarm_save_run.
  rewrite bind_run. cbn [log modify].
  rewrite bind_run, variable_save_run.
  rewrite bind_run. cbn [log modify].
  rewrite bind_run. cbn [gets].
  set (s0 := logged [Barrier] (set_files _ (logged [VariableSave _] _))).
  set (text0 := if decide (rank = 0) then _ else _).
  rewrite bind_run.
  pose proof (save_fields_heap outputDir checkpointID
                (tracked_field (self s0)) text0 s0) as Hpost.
  destruct (save_fields outputDir checkpointID text0
                        (tracked_field (self s0)) s0) as [[text1|e] s1];
    cbn [snd] in *.
  - rewrite bind_run. cbn [log modify mret M_ret ret snd]. exact Hpost.
  - exact Hpost.
Qed.

Lemma save_heap_after_datasets (outputDir checkpointID : string) (time : F)
    (s : State F) :
  heap (save outputDir checkpointID time s).2
  = heap (save_datasets outputDir checkpointID time s).2.
Proof.
  destruct (save_datasets outputDir checkpointID time s) as [[text|e] s1]
    eqn:Hds.
  - rewrite (save_after_datasets _ _ _ _ _ _ Hds).
    case_decide; [ | done]. cbv zeta.
    destruct (files s1 !! swarm_fpath (name (self s1)) outputDir checkpointID)
      as [[h5f|]|]; [ | done..].
    by destruct (h5f !! "data").
  - by rewrite (save_datasets_raises _ _ _ _ _ _ Hds).
Qed.

(** X7.  [save] writes to no array but the storage of the fields
    registered without time integration, which it refreshes: every other
    array, the storage of the fields accumulated in time among them, holds
    the same values after the call, whether it returns or raises, and no
    array is allocated or released. *)
Theorem save_writes_instantaneous_fields_only (outputDir checkpointID : string)
    (time : F) (s : State F) :
  length (heap (save outputDir checkpointID time s).2) = length (heap s)
  ∧ ∀ l,
      (∀ field obj, field ∈ tracked_field (self s) →
                    attrs (self s) !! field_name field = Some obj →
                    var_data obj = l →
                    field_timeIntegration field = true) →
      heap (save outputDir checkpointID time s).2 !! l = heap s !! l.
Proof.
  rewrite save_heap_after_datasets.
  destruct (save_datasets_heap outputDir checkpointID time s) as [Hlen Hfr].
  split; [done | ]. intros l Hl. apply Hfr.
  intros (field & obj & Hin & Htime & Hobj & Hloc).
  specialize (Hl field obj Hin Hobj Hloc). congruence.
Qed.

End MethodFacts.

Section InstanceFacts.
Context {F : Type} {ops : FloatOps F} {ext : Externals F}.


Lemma perform_mesh (c : call F) (s : State F) :
  mesh (self (perform c s).2) = mesh (self s).
Proof.
  destruct c; cbn [perform].
  - apply add_tracked_field_mesh.
  - by rewrite integrate_self.
  - by destruct (save_self_swarm outputDir checkpointID time s) as [-> _].
Qed.

Lemma after_calls_invariant (Q : call F → Prop) (P : State F → Prop)
    (cs : list (call F)) :
  (∀ c s, Q c → P s → P (perform c s).2) →
  ∀ s, Forall Q cs → P s → P (after_calls s cs).
Proof.
  intros Hstep. induction cs as [|c cs IH]; intros s Hcs Hs; [done | ].
  apply Forall_cons in Hcs as [Hc Hcs]. cbn. apply IH; [done | ].
  by apply Hstep.
Qed.

(** X8.  No method binds an attribute [mesh].  On an instance built by
    the constructor and used through [add_tracked_field], [integrate] and
    [save], in any order and whatever these calls returned, [integrate]
    never updates the storage of a tracked field: it leaves the state the
    advection step leaves, returns when the registry holds no field
    accumulated in time, and raises AttributeError when it holds one and
    the advection step returned. *)
Theorem integrate_on_constructed_instance (d : nat) (velocity : Arr F)
    (nm : string) (vertices : list (coord F)) (escape zonly : bool)
    (s0 : State F) (cs : list (call F)) (dt : F) :
  init d velocity nm vertices escape zonly = Ok s0 →
  Forall plain_call cs →
  mesh (self (after_calls s0 cs)) = None
  ∧ integrate dt (after_calls s0 cs)
    = (match (advection_step dt (after_calls s0 cs)).1 with
       | Ok _ =>
           if existsb field_timeIntegration
                      (tracked_field (self (after_calls s0 cs)))
           then Raise AttributeError else Ok tt
       | Raise e => Raise e
       end,
       (advection_step dt (after_calls s0 cs)).2).
Proof.
  intros Hinit Hcs.
  assert (Hmesh : mesh (self (after_calls s0 cs)) = None).
  { apply (after_calls_invariant plain_call (λ s, mesh (self s) = None));
      [ | done | ].
    - intros c s _ Hs. by rewrite perform_mesh.
    - by eapply init_mesh_unbound. }
  split; [done | by apply integrate_unbound_mesh_run].
Qed.



(** X10.  The accumulation branch of [integrate], for an instance to
    which the caller has attached a [mesh] attribute.  A field accumulated
    in time whose variable holds doubles, and which is not a tensor of a
    two-dimensional run (the mesh is not two-dimensional, or the storage
    has at most two columns), gets [storage + sampler * dt] when the
    sampled array has the shape of the storage; no other array changes. *)
Theorem integrate_field_accumulates (dt : F) (field : Field) (s : State F)
    (obj : SwarmVariable) (a : Arr F) (d : nat) :
  field_timeIntegration field = true →
  attrs (self s) !! field_name field = Some obj →
  var_dataType obj = "double" →
  mesh (self s) = Some d →
  heap s !! var_data obj = Some a →
  ¬ (d = 2 ∧ 2 < ncols a) →
  ncols (evaluate (field_value field) (velocityField s) (swarm_data s))
  = ncols a →
  nrows (evaluate (field_value field) (velocityField s) (swarm_data s))
  = nrows a →
  (integrate_field dt field s).1 = Ok tt
  ∧ heap (integrate_field dt field s).2 !! var_data obj
    = Some (add_columns (ncols a) a
              (scale_r (evaluate (field_value field) (velocityField s)
                                 (swarm_data s)) dt))
  ∧ ∀ l, l ≠ var_data obj →
         heap (integrate_field dt field s).2 !! l = heap s !! l.
Proof.
  intros Htime Hobj _ Hmesh Ha Hbranch Hxw Hxn.
  rewrite (integrate_field_accumulates_with_mesh dt field s obj a d) by done.
  cbn [fst snd heap set_heap]. split_and!; [done | | ].
  - apply list_lookup_insert_eq. by eapply lookup_lt_Some.
  - intros l Hl. by rewrite list_lookup_insert_ne.
Qed.

End InstanceFacts.

Section SaveFieldFacts.
Context {F : Type} {ops : FloatOps F} {ext : Externals F}.

(** X11.  One pass of the loop of [save] over a field registered without
    time integration, whose variable holds doubles: when the sampled array
    has the shape of the storage, the storage is replaced by the sampled
    values, whatever it held, and the container of the field is written
    after that, from the refreshed data, as the one event of the pass. *)
Theorem save_field_refreshes_storage (outputDir checkpointID text : string)
    (field : Field) (s : State F) (obj : SwarmVariable) (a : Arr F) :
  field_timeIntegration field = false →
  attrs (self s) !! field_name field = Some obj →
  var_dataType obj = "double" →
  heap s !! var_data obj = Some a →
  ncols (evaluate (field_value field) (velocityField s) (swarm_data s))
  = ncols a →
  nrows (evaluate (field_value field) (velocityField s) (swarm_data s))
  = nrows a →
  (save_field outputDir checkpointID text field s).1
  = Ok (if decide (rank = 0)
        then text +:+ swarmvarschema
                        (field_path (name (self s)) outputDir checkpointID
                                    field)
                        (field_name field)
        else text)
  ∧ heap (save_field outputDir checkpointID text field s).2 !! var_data obj
    = Some (mkArr (ncols a)
              (rows (evaluate (field_value field) (velocityField s)
                              (swarm_data s))))
  ∧ files (save_field outputDir checkpointID text field s).2
      !! field_path (name (self s)) outputDir checkpointID field
    = Some (H5File
              (variable_save_datasets
                 (swarm_data
                    (set_heap
                       (λ h, <[var_data obj :=
                                 mkArr (ncols a)
                                   (rows (evaluate (field_value field)
                                            (velocityField s)
                                            (swarm_data s)))]> h)
                       s))
                 (field_path (name (self s)) outputDir checkpointID field)))
  ∧ trace (save_field outputDir checkpointID text field s).2
    = trace s
      ++ [VariableSave (field_path (name (self s)) outputDir checkpointID
                                   field)].
Proof.
  intros Htime Hobj _ Ha Hxw Hxn. unfold save_field.
  rewrite bind_run. cbn [gets]. rewrite bind_run. unfold getattr.
  rewrite Hobj, bind_run, Htime. cbn [negb].
  rewrite bind_run. cbn [evaluate_on_swarm gets]. unfold on_heap, assign.
  rewrite (deref_Some _ _ _ Ha), broadcast_to_same by done.
  rewrite bind_run, variable_save_run. cbn.
  split_and!; [done | | apply lookup_insert_eq | done].
  apply list_lookup_insert_eq. by eapply lookup_lt_Some.
Qed.

End SaveFieldFacts.

Section RotationErrors.
Context {F : Type} {ops : FloatOps F}.

Ltac step := rewrite bind_run; cbn [read_view gets lift_res].

Lemma bop_left_one (op : F → F → F) (x y : list F) :
  length x = 1 → length y ≠ 1 →
  bop op x y = Ok (map (λ b, op (default f0 (head x)) b) y).
Proof.
  intros Hx Hy. unfold bop.
  rewrite decide_False by congruence. rewrite decide_False by done.
  by rewrite decide_True.
Qed.

Lemma bop_mismatch (op : F → F → F) (x y : list F) :
  length x ≠ length y → length y ≠ 1 → length x ≠ 1 →
  bop op x y = Raise ValueError.
Proof. intros Hxy Hy Hx. unfold bop. by rewrite !decide_False. Qed.

Lemma length_col (a : Arr F) (j : nat) (c : list F) :
  col a j = Ok c → length c = nrows a.
Proof.
  unfold col. case_decide; [ | done]. intros [= <-]. by rewrite length_map.
Qed.

(** The first right-hand side fails on a tensor of fewer than three
    columns. *)
Lemma rotated_xx_too_few_columns (t : View) (theta : list F) (h : Heap F) :
  let a := view_arr (deref h (v_base t)) t in
  ncols a < 3 → length theta = nrows a →
  rotated_xx t theta h = (Raise IndexError, h).
Proof.
  intros a Hw Hn. unfold rotated_xx, view_col.
  repeat step. fold a.
  destruct (decide (0 < ncols a)); [rewrite col_ok by done | ].
  2:{ unfold col. by rewrite decide_False. }
  repeat step.
  rewrite bop_same by (unfold nrows in *; by rewrite !length_map).
  repeat step. fold a.
  destruct (decide (1 < ncols a)); [rewrite col_ok by done | ].
  2:{ unfold col. by rewrite decide_False. }
  repeat step.
  rewrite bop_same by (unfold nrows in *; by rewrite !length_map).
  repeat step.
  rewrite bop_same
    by (unfold nrows in *; by rewrite !length_zip_with, !length_map).
  repeat step. fold a. unfold col. by rewrite decide_False by lia.
Qed.

(** The first assignment fails when the angles have neither one element
    per marker nor one element in all. *)
Lemma rotated_xx_assign_mismatch (t : View) (theta : list F) (h : Heap F)
    (l : nat) (k : M (Heap F) nat) :
  let a := view_arr (deref h (v_base t)) t in
  3 ≤ ncols a → length theta ≠ nrows a → length theta ≠ 1 →
  nrows (deref h l) = nrows a →
  (v ← rotated_xx t theta; store_col l 0 v;; k) h = (Raise ValueError, h).
Proof.
  intros a Hw Hn H1 Hl. unfold rotated_xx, view_col.
  destruct (decide (nrows a = 1)) as [Hone|Hone].
  - repeat (step; fold a; try rewrite col_ok by lia;
            try rewrite bop_left_one
              by (unfold nrows in *; by rewrite ?length_map);
            try rewrite bop_same by by rewrite !length_map).
    rewrite bop_same by (rewrite length_zip_with, !length_map; lia).
    repeat step. unfold store_col, assign_col.
    rewrite decide_False by (rewrite Hl, !length_zip_with, !length_map; lia).
    by rewrite decide_False by (rewrite !length_zip_with, !length_map; lia).
  - repeat step. fold a. rewrite col_ok by lia. repeat step.
    rewrite bop_mismatch; [done | | | ]; unfold nrows in *;
      rewrite !length_map; congruence.
Qed.

(** X12.  [rotateTensor2D] on a tensor of fewer than three columns, with
    one angle per marker: the call raises IndexError, at the first column
    it cannot read. *)
Theorem rotateTensor2D_too_few_columns (t : View) (theta : list F)
    (h : Heap F) (b : Arr F) :
  h !! v_base t = Some b →
  ncols (view_arr b t) < 3 →
  length theta = nrows (view_arr b t) →
  (rotateTensor2D t theta h).1 = Raise IndexError.
Proof.
  intros Hb Hw Hn. unfold rotateTensor2D.
  rewrite bind_run. cbn [read_view gets]. rewrite bind_run. cbn [alloc].
  rewrite (deref_Some _ _ _ Hb). rewrite bind_run.
  rewrite rotated_xx_too_few_columns; [done | | ];
    by rewrite (deref_app_l _ _ _ _ Hb), (deref_Some _ _ _ Hb).
Qed.

(** X13.  [rotateTensor2D] on a tensor of at least three columns with
    angles that numpy cannot broadcast to the markers (their number is
    neither the number of markers nor one): the call raises ValueError. *)
Theorem rotateTensor2D_angles_mismatch (t : View) (theta : list F)
    (h : Heap F) (b : Arr F) :
  h !! v_base t = Some b →
  3 ≤ ncols (view_arr b t) →
  length theta ≠ nrows (view_arr b t) →
  length theta ≠ 1 →
  (rotateTensor2D t theta h).1 = Raise ValueError.
Proof.
  intros Hb Hw Hn H1. unfold rotateTensor2D.
  rewrite bind_run. cbn [read_view gets]. rewrite bind_run. cbn [alloc].
  rewrite (deref_Some _ _ _ Hb).
  rewrite rotated_xx_assign_mismatch; [done | | | done | ];
    rewrite ?deref_last, (deref_app_l _ _ _ _ Hb), (deref_Some _ _ _ Hb);
    done.
Qed.

End RotationErrors.

(** ** The rotation in real arithmetic

    The laws below hold for the formulas of [rotateTensor2D] read over the
    real numbers. *)
Section RotationLaws.

Lemma rotate_row_cons {F : Type} {ops : FloatOps F} (xx yy xy : F)
    (rest : list F) (θ : F) :
  rotate_row (xx :: yy :: xy :: rest) θ
  = rot_xx (xx :: yy :: xy :: rest) θ
    :: rot_yy (xx :: yy :: xy :: rest) θ
    :: rot_xy (xx :: yy :: xy :: rest) θ :: rest.
Proof. reflexivity. Qed.

Lemma three_components {A : Type} (r : list A) :
  3 ≤ length r → ∃ xx yy xy rest, r = xx :: yy :: xy :: rest.
Proof.
  destruct r as [|xx [|yy [|xy rest]]]; cbn; try lia. by eexists _, _, _, _.
Qed.

Lemma rotate_row_trace (xx yy xy α : R) (rest : list R) :
  (rot_xx (xx :: yy :: xy :: rest) α + rot_yy (xx :: yy :: xy :: rest) α
   = xx + yy)%R.
Proof.
  unfold rot_xx, rot_yy. cbn.
  pose proof (sin2_cos2 α) as H. unfold Rsqr in H.
  transitivity ((xx + yy) * (sin α * sin α + cos α * cos α))%R; [ring | ].
  rewrite H. ring.
Qed.

Lemma rotate_row_determinant (xx yy xy α : R) (rest : list R) :
  (rot_xx (xx :: yy :: xy :: rest) α * rot_yy (xx :: yy :: xy :: rest) α
   - rot_xy (xx :: yy :: xy :: rest) α * rot_xy (xx :: yy :: xy :: rest) α
   = xx * yy - xy * xy)%R.
Proof.
  unfold rot_xx, rot_yy, rot_xy. cbn.
  rewrite sin_2a, cos_2a.
  pose proof (sin2_cos2 α) as H. unfold Rsqr in H.
  transitivity ((xx * yy - xy * xy)
                * ((sin α * sin α + cos α * cos α)
                   * (sin α * sin α + cos α * cos α)))%R; [ring | ].
  rewrite H. ring.
Qed.

Lemma rotate_row_compose (r : list R) (α β : R) :
  3 ≤ length r →
  rotate_row (rotate_row r α) β = rotate_row r (α + β)%R.
Proof.
  intros (xx & yy & xy & rest & ->)%three_components.
  rewrite !rotate_row_cons. unfold rot_xx, rot_yy, rot_xy. cbn.
  rewrite !sin_2a, !cos_2a, !cos_plus, !sin_plus.
  f_equal; [ | f_equal; [ | f_equal]]; ring.
Qed.

Lemma rotate_row_zero (r : list R) :
  3 ≤ length r → rotate_row r 0%R = r.
Proof.
  intros (xx & yy & xy & rest & ->)%three_components.
  rewrite rotate_row_cons. unfold rot_xx, rot_yy, rot_xy. cbn.
  rewrite Rmult_0_r, sin_0, cos_0. f_equal; [ | f_equal; [ | f_equal]]; ring.
Qed.

Lemma length_rotate_row (r : list R) (θ : R) :
  length (rotate_row r θ) = length r.
Proof. unfold rotate_row. by rewrite !length_insert. Qed.

Lemma rotated_compose (rs : list (list R)) (alpha beta : list R) :
  Forall (λ r, 3 ≤ length r) rs →
  zip_with rotate_row (zip_with rotate_row rs alpha) beta
  = zip_with rotate_row rs (zip_with Rplus alpha beta).
Proof.
  intros Hrs. revert alpha beta.
  induction Hrs as [|r rs Hr _ IH]; intros [|α alpha] [|β beta]; cbn;
    try done.
  by rewrite rotate_row_compose, IH.
Qed.

Lemma rotated_zero (rs : list (list R)) :
  Forall (λ r, 3 ≤ length r) rs →
  zip_with rotate_row rs (replicate (length rs) 0%R) = rs.
Proof.
  induction 1 as [|r rs Hr _ IH]; cbn; [done | ].
  by rewrite rotate_row_zero, IH.
Qed.

(** X14.  In real arithmetic the rotation keeps the invariants of the
    tensor.  For a tensor of at least three columns with one angle per
    marker the call returns a new array in which every marker has the
    trace [xx + yy] and the determinant [xx*yy - xy*xy] of its input
    tensor, and the columns behind the third as they were. *)
Theorem rotateTensor2D_keeps_invariants (t : View) (theta : list R)
    (h : Heap R) (b : Arr R) :
  h !! v_base t = Some b →
  3 ≤ ncols (view_arr b t) →
  length theta = nrows (view_arr b t) →
  ∃ out,
    rotateTensor2D t theta h = (Ok (length h), h ++ [out])
    ∧ nrows out = nrows (view_arr b t)
    ∧ ∀ i xx yy xy rest,
        rows (view_arr b t) !! i = Some (xx :: yy :: xy :: rest) →
        ∃ xx' yy' xy',
          rows out !! i = Some (xx' :: yy' :: xy' :: rest)
          ∧ (xx' + yy' = xx + yy)%R
          ∧ (xx' * yy' - xy' * xy' = xx * yy - xy * xy)%R.
Proof.
  intros Hb Hw Hn. exists (rotated (view_arr b t) theta).
  split; [by apply rotateTensor2D_value | ].
  split.
  { unfold nrows, rotated in *. cbn [rows]. rewrite length_zip_with. lia. }
  intros i xx yy xy rest Hi.
  destruct (lookup_lt_is_Some_2 theta i) as [θ Hθ].
  { rewrite Hn. by eapply lookup_lt_Some. }
  exists (rot_xx (xx :: yy :: xy :: rest) θ),
         (rot_yy (xx :: yy :: xy :: rest) θ),
         (rot_xy (xx :: yy :: xy :: rest) θ).
  split.
  - unfold rotated. cbn [rows]. apply lookup_zip_with_Some.
    eexists _, _. split_and!; [ | done | done]. by rewrite rotate_row_cons.
  - split; [apply rotate_row_trace | apply rotate_row_determinant].
Qed.

(** X15.  In real arithmetic rotations add up.  Rotating a tensor whose
    rows hold their three components by the angles [alpha], and the array
    returned by the angles [beta], gives the array that one rotation by the
    angles [alpha + beta] gives. *)
Theorem rotateTensor2D_composes (t : View) (alpha beta : list R)
    (h : Heap R) (b : Arr R) :
  h !! v_base t = Some b →
  3 ≤ ncols (view_arr b t) →
  Forall (λ r, 3 ≤ length r) (rows (view_arr b t)) →
  length alpha = nrows (view_arr b t) →
  length beta = nrows (view_arr b t) →
  (r1 ← rotateTensor2D t alpha;
   rotateTensor2D (mkView r1 0 (ncols (view_arr b t))) beta) h
  = (Ok (S (length h)),
     h ++ [rotated (view_arr b t) alpha;
           rotated (view_arr b t) (zip_with Rplus alpha beta)])
  ∧ (rotateTensor2D t (zip_with Rplus alpha beta) h).2
    = h ++ [rotated (view_arr b t) (zip_with Rplus alpha beta)].
Proof.
  intros Hb Hw Hrows Hα Hβ. set (a := view_arr b t) in *.
  split.
  2:{ rewrite (rotateTensor2D_value _ _ _ b); [done.. | ].
      fold a. rewrite length_zip_with. lia. }
  rewrite bind_run, (rotateTensor2D_value _ _ _ b) by done. fold a.
  assert (Hview : view_arr (rotated a alpha)
                           (mkView (length h) 0 (ncols a))
                  = rotated a alpha).
  { unfold view_arr, view_ncols, rotated. cbn [ncols rows v_lo v_hi].
    rewrite Nat.min_id, Nat.sub_0_r. f_equal.
    rewrite <- (map_id (zip_with _ _ _)) at 2. apply map_ext_in.
    intros r [i Hi]%list_elem_of_In%list_elem_of_lookup. cbn.
    apply lookup_zip_with_Some in Hi as (r0 & θ & -> & Hr0 & _).
    apply take_ge. rewrite length_rotate_row.
    subst a. unfold view_arr in Hr0. cbn [rows] in Hr0.
    apply list_lookup_fmap_Some in Hr0 as (rb & -> & _).
    rewrite length_take. unfold view_ncols. cbn [ncols]. lia. }
  rewrite (rotateTensor2D_value _ _ _ (rotated a alpha)).
  - rewrite length_app. cbn [length]. rewrite Nat.add_1_r.
    rewrite Hview, <- app_assoc. cbn [app]. do 4 f_equal.
    unfold rotated. cbn [ncols rows]. f_equal. by apply rotated_compose.
  - cbn [v_base]. by apply list_lookup_middle.
  - by rewrite Hview.
  - rewrite Hview. unfold nrows, rotated in *. cbn [rows].
    rewrite length_zip_with. lia.
Qed.

(** X16.  In real arithmetic a rotation by the zero angle changes
    nothing: for a tensor whose rows hold their three components the call
    returns a new array equal to its input. *)
Theorem rotateTensor2D_zero_angle (t : View) (h : Heap R) (b : Arr R) :
  h !! v_base t = Some b →
  3 ≤ ncols (view_arr b t) →
  Forall (λ r, 3 ≤ length r) (rows (view_arr b t)) →
  rotateTensor2D t (replicate (nrows (view_arr b t)) 0%R) h
  = (Ok (length h), h ++ [view_arr b t]).
Proof.
  intros Hb Hw Hrows.
  rewrite (rotateTensor2D_value _ _ _ b); [ | done | done | ].
  2:{ by rewrite length_replicate. }
  do 3 f_equal. unfold rotated, nrows. rewrite rotated_zero by done.
  by destruct (view_arr b t).
Qed.

End RotationLaws.

Section SideFlowFacts.
Context {F : Type} {ops : FloatOps F} {more : FloatMore F} {ext : Externals F}.

Lemma argmin_from_lt (xs : list F) :
  ∀ best_i best i, best_i < i →
    argmin_from best_i best i xs < i + length xs.
Proof.
  induction xs as [|x rest IH]; intros best_i best i Hlt; cbn; [lia | ].
  destruct (fisnan best); [lia | ].
  destruct (negb (fle best x)).
  - specialize (IH i x (S i)). lia.
  - specialize (IH best_i best (S i)). lia.
Qed.

Lemma argmin_lt (xs : list F) (k : nat) : argmin xs = Ok k → k < length xs.
Proof.
  destruct xs as [|x rest]; [done | ]. intros [= <-].
  pose proof (argmin_from_lt rest 0 x 1). cbn. lia.
Qed.

Lemma closest_node_lt (y : list F) (x : F) (k : nat) :
  closest_node y x = Ok k → k < length y.
Proof. intros Hk%argmin_lt. by rewrite length_map in Hk. Qed.

Lemma closest_node_nonempty (y : list F) (x : F) :
  y ≠ [] → ∃ k, closest_node y x = Ok k.
Proof. destruct y; [done | ]. intros _. by eexists. Qed.

Lemma length_side_flow_node (Vtop Vbot : F) (y : list F)
    (top_idx pt1_idx pt2_idx : nat) (velocity : list F) (i : nat) :
  length (side_flow_node Vtop Vbot y top_idx pt1_idx pt2_idx velocity i)
  = length velocity.
Proof.
  unfold side_flow_node. repeat case_decide; by rewrite ?length_insert.
Qed.

Lemma side_flow_node_other (Vtop Vbot : F) (y : list F)
    (top_idx pt1_idx pt2_idx : nat) (velocity : list F) (i j : nat) :
  i ≠ j →
  side_flow_node Vtop Vbot y top_idx pt1_idx pt2_idx velocity i !! j
  = velocity !! j.
Proof.
  intros Hij. unfold side_flow_node.
  repeat case_decide; by rewrite ?list_lookup_insert_ne.
Qed.

(** Whatever the node held, the four tests leave it the value of the last
    test that holds: every node is assigned. *)
Lemma side_flow_node_same (Vtop Vbot : F) (y : list F)
    (top_idx pt1_idx pt2_idx : nat) (velocity : list F) (i : nat) :
  i < length velocity →
  side_flow_node Vtop Vbot y top_idx pt1_idx pt2_idx velocity i !! i
  = Some (side_flow_value Vtop Vbot y top_idx pt1_idx pt2_idx i).
Proof.
  intros Hi. unfold side_flow_node, side_flow_value.
  repeat case_decide;
    repeat first [ rewrite list_lookup_insert_eq
                     by (rewrite ?length_insert; lia)
                 | rewrite list_lookup_insert_ne by lia ];
    first [done | lia].
Qed.

Lemma side_flow_fold_lookup (Vtop Vbot : F) (y : list F)
    (top_idx pt1_idx pt2_idx : nat) (n : nat) :
  ∀ (a : nat) (velocity : list F) (j : nat),
    a + n ≤ length velocity →
    foldl (side_flow_node Vtop Vbot y top_idx pt1_idx pt2_idx) velocity
          (seq a n) !! j
    = if decide (a ≤ j < a + n)
      then Some (side_flow_value Vtop Vbot y top_idx pt1_idx pt2_idx j)
      else velocity !! j.
Proof.
  induction n as [|n IH]; intros a velocity j Hlen; cbn [seq foldl].
  - rewrite decide_False by lia. done.
  - rewrite IH by (rewrite length_side_flow_node; lia).
    destruct (decide (j = a)) as [->|Hne].
    + rewrite decide_False by lia. rewrite decide_True by lia.
      apply side_flow_node_same. lia.
    + rewrite side_flow_node_other by done.
      destruct (decide (S a ≤ j < S a + n)).
      * by rewrite decide_True by lia.
      * by rewrite decide_False by lia.
Qed.

(** One pass of the loop over the nodes recomputes the whole array: what
    it leaves does not depend on what the array held. *)
Lemma side_flow_pass_value (Vtop Vbot : F) (y : list F)
    (top_idx pt1_idx pt2_idx : nat) (velocity : list F) :
  length velocity = length y →
  side_flow_pass Vtop Vbot y top_idx pt1_idx pt2_idx velocity
  = map (side_flow_value Vtop Vbot y top_idx pt1_idx pt2_idx)
        (seq 0 (length y)).
Proof.
  intros Hlen. unfold side_flow_pass. apply list_eq. intros j.
  rewrite side_flow_fold_lookup by lia.
  rewrite list_lookup_fmap.
  destruct (decide (j < length y)).
  - rewrite decide_True by lia. by rewrite lookup_seq_lt.
  - rewrite decide_False by lia.
    rewrite lookup_seq_ge by lia. cbn. apply lookup_ge_None_2. lia.
Qed.

Lemma set_above_map (top_idx : nat) (x : F) (f : nat → F) (n : nat) :
  set_above top_idx x (map f (seq 0 n))
  = map (λ i, if decide (top_idx < i) then x else f i) (seq 0 n).
Proof.
  unfold set_above. apply list_eq. intros j.
  rewrite length_map, length_seq, !list_lookup_fmap.
  destruct (decide (j < n)) as [Hj|Hj].
  - rewrite lookup_seq_lt by done. cbn.
    destruct (decide (top_idx < j)).
    + rewrite lookup_app_r by (rewrite length_take, length_map, length_seq; lia).
      rewrite length_take, length_map, length_seq.
      apply lookup_replicate_2. lia.
    + rewrite lookup_app_l by (rewrite length_take, length_map, length_seq; lia).
      rewrite lookup_take_lt by lia.
      by rewrite list_lookup_fmap, lookup_seq_lt.
  - rewrite lookup_seq_ge by lia. cbn. apply lookup_ge_None_2.
    rewrite length_app, length_take, length_replicate, length_map, length_seq.
    lia.
Qed.

(** The loop, for an invariant [I] of the bracket [Vmin], [Vmax] that
    bisection keeps. *)
Lemma side_flow_loop_result (I : F → F → Prop) (Vtop tol default_vel : F)
    (nitmin : Z) (y : list F) (top_idx pt1_idx pt2_idx : nat) :
  (∀ Vmin Vmax, I Vmin Vmax →
     I Vmin (fdiv (fadd Vmin Vmax) f2) ∧ I (fdiv (fadd Vmin Vmax) f2) Vmax) →
  ∀ fuel Vmin Vmax N prev velocity out,
    length velocity = length y →
    I Vmin Vmax →
    side_flow_loop fuel Vtop tol default_vel nitmin y (diff y)
                   top_idx pt1_idx pt2_idx Vmin Vmax N prev velocity
    = Some out →
    ∃ Vmin' Vmax',
      I Vmin' Vmax'
      ∧ out = side_flow_result Vtop (fdiv (fadd Vmin' Vmax') f2) default_vel
                               y top_idx pt1_idx pt2_idx.
Proof.
  intros Hkeep. induction fuel as [|fuel IH];
    intros Vmin Vmax N prev velocity out Hlen HI; cbn [side_flow_loop];
    [done | ].
  cbv zeta. rewrite side_flow_pass_value by done.
  destruct (_ && _).
  - intros [= <-]. exists Vmin, Vmax. split; [done | ].
    unfold side_flow_result. by rewrite set_above_map.
  - destruct (Hkeep _ _ HI) as [Hl Hr].
    destruct (flt Vtop f0); destruct (flt _ _);
      (apply IH; [by rewrite length_map, length_seq | done]).
Qed.

Lemma side_flow_loop_runs_on (Vtop tol default_vel : F) (nitmin : Z)
    (y dy : list F) (top_idx pt1_idx pt2_idx : nat) :
  ∀ fuel Vmin Vmax N prev velocity,
    (N + Z.of_nat fuel ≤ nitmin + 1)%Z →
    side_flow_loop fuel Vtop tol default_vel nitmin y dy
                   top_idx pt1_idx pt2_idx Vmin Vmax N prev velocity
    = None.
Proof.
  induction fuel as [|fuel IH]; intros Vmin Vmax N prev velocity HN;
    cbn [side_flow_loop]; [done | ].
  cbv zeta. rewrite (bool_decide_eq_false_2 (nitmin < N)%Z) by lia.
  rewrite andb_false_r.
  destruct (flt Vtop f0); destruct (flt _ _); apply IH; lia.
Qed.

Lemma side_flow_loop_never_returns (Vtop tol default_vel : F) (nitmin : Z)
    (y dy : list F) (top_idx pt1_idx pt2_idx : nat) :
  (∀ x, flt (fabs x) tol = false) →
  ∀ fuel Vmin Vmax N prev velocity,
    side_flow_loop fuel Vtop tol default_vel nitmin y dy
                   top_idx pt1_idx pt2_idx Vmin Vmax N prev velocity
    = None.
Proof.
  intros Htol. induction fuel as [|fuel IH]; intros Vmin Vmax N prev velocity;
    cbn [side_flow_loop]; [done | ].
  cbv zeta. rewrite Htol. cbn [andb].
  destruct (flt Vtop f0); destruct (flt _ _); apply IH.
Qed.

(** X17.  The array [_get_side_flow] returns.  With [top_idx], [pt1_idx]
    and [pt2_idx] the nodes closest to [top], [pt1] and [pt2], all within
    the array, there is a bottom velocity [Vbot] such that the array has
    one value per node: [default_vel] above [top_idx]; at and below it,
    the line from [Vbot] at [pt2_idx] to [Vtop] at [pt1_idx] strictly
    between these two nodes, [Vbot] at and below [pt2_idx], and [Vtop]
    elsewhere.  The value stored in [self.budget] is the sum of the
    trapezoid terms of the profile before [default_vel] is written,
    which has 0 above [top_idx]. *)
Theorem side_flow_profile (fuel : nat) (self : Balanced_InflowOutflow F)
    (velocity : list F) (budget : F) :
  _get_side_flow fuel self = Some (Ok (velocity, budget)) →
  ∃ top_idx pt1_idx pt2_idx Vbot,
    closest_node (nd <$> bf_ynodes self) (nd (bf_top self)) = Ok top_idx
    ∧ closest_node (nd <$> bf_ynodes self) (nd (bf_pt1 self)) = Ok pt1_idx
    ∧ closest_node (nd <$> bf_ynodes self) (nd (bf_pt2 self)) = Ok pt2_idx
    ∧ top_idx < length (bf_ynodes self)
    ∧ pt1_idx < length (bf_ynodes self)
    ∧ pt2_idx < length (bf_ynodes self)
    ∧ velocity
      = map (λ i, if decide (top_idx < i) then nd (bf_default_vel self)
                  else side_flow_value (nd (bf_vtop self)) Vbot
                                       (nd <$> bf_ynodes self)
                                       top_idx pt1_idx pt2_idx i)
            (seq 0 (length (bf_ynodes self)))
    ∧ budget
      = fsum (side_budget
                (map (side_flow_value (nd (bf_vtop self)) Vbot
                                      (nd <$> bf_ynodes self)
                                      top_idx pt1_idx pt2_idx)
                     (seq 0 (length (bf_ynodes self))))
                (diff (nd <$> bf_ynodes self))).
Proof.
  unfold _get_side_flow. cbv zeta.
  destruct (closest_node _ (nd (bf_top self))) as [top_idx|] eqn:Htop;
    [ | done].
  destruct (closest_node _ (nd (bf_pt1 self))) as [pt1_idx|] eqn:Hpt1;
    [ | done].
  destruct (closest_node _ (nd (bf_pt2 self))) as [pt2_idx|] eqn:Hpt2;
    [ | done].
  destruct (side_flow_loop _ _ _ _ _ _ _ _ _ _ _ _ _ _ _) as [out|] eqn:Hloop;
    [ | done].
  intros [= ->].
  apply (side_flow_loop_result (λ _ _, True)) in Hloop
    as (Vmin & Vmax & _ & Hout); [ | done | by rewrite !length_map | done].
  apply closest_node_lt in Htop as Htop', Hpt1 as Hpt1', Hpt2 as Hpt2'.
  rewrite length_fmap in Htop', Hpt1', Hpt2'.
  exists top_idx, pt1_idx, pt2_idx, (fdiv (fadd Vmin Vmax) f2).
  unfold side_flow_result in Hout. rewrite length_fmap in Hout.
  injection Hout as -> ->. by split_and!.
Qed.

(** X18.  [_get_side_flow] raises exactly when it is given no node: it
    then raises ValueError, from [np.argmin] of an empty array, before the
    loop is entered. *)
Theorem side_flow_raises_without_nodes (fuel : nat)
    (self : Balanced_InflowOutflow F) (e : exn) :
  _get_side_flow fuel self = Some (Raise e)
  ↔ bf_ynodes self = [] ∧ e = ValueError.
Proof.
  unfold _get_side_flow. cbv zeta.
  destruct (bf_ynodes self) as [|y0 ys]; cbn.
  - split; [by intros [= <-] | by intros [_ ->]].
  - destruct (side_flow_loop _ _ _ _ _ _ _ _ _ _ _ _ _ _ _); cbn;
      (split; [done | by intros [? _]]).
Qed.

(** X19.  The loop of [_get_side_flow] makes at least [nitmin + 2]
    passes: with nodes given, it has not returned while the number of
    passes is at most [nitmin + 1]. *)
Theorem side_flow_needs_passes (fuel : nat) (self : Balanced_InflowOutflow F) :
  bf_ynodes self ≠ [] →
  (Z.of_nat fuel ≤ bf_nitmin self + 1)%Z →
  _get_side_flow fuel self = None.
Proof.
  intros Hy Hfuel. unfold _get_side_flow. cbv zeta.
  destruct (bf_ynodes self) as [|y0 ys]; [done | ]. cbn.
  rewrite side_flow_loop_runs_on; [done | lia].
Qed.

(** X20.  [nitmax] does not bound the loop of [_get_side_flow], which
    never reads it.  When the test [np.abs(...) < tol] cannot hold, as for
    a tolerance that is zero, negative or NaN, the call never returns,
    whatever [nitmax] is: it is still in the loop after any number of
    passes. *)
Theorem side_flow_never_returns (self : Balanced_InflowOutflow F) :
  bf_ynodes self ≠ [] →
  (∀ x, flt (fabs x) (bf_tol self) = false) →
  ∀ fuel, _get_side_flow fuel self = None.
Proof.
  intros Hy Htol fuel. unfold _get_side_flow. cbv zeta.
  destruct (bf_ynodes self) as [|y0 ys]; [done | ]. cbn.
  by rewrite side_flow_loop_never_returns.
Qed.

End SideFlowFacts.

(** ** The side flow in real arithmetic *)
Section SideFlowReal.
Context {ext : Externals R}.

(** X21.  In real arithmetic the bottom velocity found by bisection lies
    between 0 and [-Vtop]: the array [_get_side_flow] returns is the
    profile of a bottom velocity [Vbot] whose sign is not that of [Vtop]
    and whose size is at most that of [Vtop]. *)
Theorem side_flow_bottom_velocity_bounded (fuel : nat)
    (self : Balanced_InflowOutflow R) (out : list R * R)
    (top_idx pt1_idx pt2_idx : nat) :
  _get_side_flow fuel self = Some (Ok out) →
  closest_node (nd <$> bf_ynodes self) (nd (bf_top self)) = Ok top_idx →
  closest_node (nd <$> bf_ynodes self) (nd (bf_pt1 self)) = Ok pt1_idx →
  closest_node (nd <$> bf_ynodes self) (nd (bf_pt2 self)) = Ok pt2_idx →
  ∃ Vbot,
    (Rmin 0 (- nd (bf_vtop self)) <= Vbot <= Rmax 0 (- nd (bf_vtop self)))%R
    ∧ out = side_flow_result (nd (bf_vtop self)) Vbot
                             (nd (bf_default_vel self))
                             (nd <$> bf_ynodes self)
                             top_idx pt1_idx pt2_idx.
Proof.
  unfold _get_side_flow. cbv zeta. intros Hrun Htop Hpt1 Hpt2.
  rewrite Htop, Hpt1, Hpt2 in Hrun.
  destruct (side_flow_loop _ _ _ _ _ _ _ _ _ _ _ _ _ _ _) as [out'|] eqn:Hloop;
    [ | done].
  injection Hrun as ->.
  set (lo := Rmin 0 (- nd (bf_vtop self))).
  set (hi := Rmax 0 (- nd (bf_vtop self))).
  apply (side_flow_loop_result
           (λ Vmin Vmax, (lo <= Vmin <= hi)%R ∧ (lo <= Vmax <= hi)%R))
    in Hloop as (Vmin & Vmax & [HVmin HVmax] & Hout).
  - exists ((Vmin + Vmax) / 2)%R. split; [lra | exact Hout].
  - intros Vmin Vmax [HVmin HVmax]. cbn. split; split; (done || lra).
  - by rewrite !length_map.
  - subst lo hi. cbn. unfold Rmin, Rmax.
    destruct (Rle_dec 0 (- nd (bf_vtop self))); lra.
Qed.

End SideFlowReal.

Section PointsFacts.
Context {ext : Externals R}.

Lemma length_linspace {F : Type} {ops : FloatOps F} {more : FloatMore F}
    (start stop : F) (num : nat) :
  length (linspace start stop num) = num.
Proof.
  unfold linspace. cbv zeta.
  repeat case_decide; try destruct (feq _ _);
    by rewrite ?length_insert, !length_fmap, length_seq.
Qed.

Lemma length_concat_const {A B : Type} (l : list A) (k : list B) :
  length (concat ((λ _, l) <$> k)) = length k * length l.
Proof. induction k as [|b k IH]; cbn; [done | ]. rewrite length_app. lia. Qed.

Lemma length_concat_rows {A B : Type} (l : list A) (k : list B) :
  length (concat ((λ q, (λ _, q) <$> l) <$> k)) = length k * length l.
Proof.
  induction k as [|b k IH]; cbn; [done | ].
  rewrite length_app, length_fmap. lia.
Qed.

(** X22.  [circle_points_tracers] with a centre of two coordinates
    returns [npoints] points, and in real arithmetic every point lies on
    the circle of the scaled radius about the scaled centre. *)
Theorem circle_points_on_circle (radius cx cy : R) (rest : list R)
    (npoints : nat) :
  ∃ xs ys,
    circle_points_tracers radius (cx :: cy :: rest) npoints = Ok (xs, ys)
    ∧ length xs = npoints ∧ length ys = npoints
    ∧ ∀ i x y, xs !! i = Some x → ys !! i = Some y →
        ((x - nd cx) * (x - nd cx) + (y - nd cy) * (y - nd cy)
         = nd radius * nd radius)%R.
Proof.
  eexists _, _. split; [reflexivity | ].
  rewrite !length_fmap, length_linspace. split_and!; [done | done | ].
  intros i x y Hx Hy.
  apply list_lookup_fmap_Some in Hx as (a & -> & Ha).
  apply list_lookup_fmap_Some in Hy as (a' & -> & Ha').
  assert (a' = a) as -> by congruence. cbn.
  pose proof (sin2_cos2 (a * (PI / 180))) as H. unfold Rsqr in H.
  set (s := sin _) in *. set (c := cos _) in *.
  transitivity (nd radius * nd radius * (s * s + c * c))%R; [ring | ].
  rewrite H. ring.
Qed.

(** X23.  [sphere_points_tracers] with a centre of three coordinates
    returns [npoints * npoints] points, and in real arithmetic every point
    lies on the sphere of the scaled radius about the scaled centre. *)
Theorem sphere_points_on_sphere (radius cx cy cz : R) (rest : list R)
    (npoints : nat) :
  ∃ xs ys zs,
    sphere_points_tracers radius (cx :: cy :: cz :: rest) npoints
    = Ok (xs, ys, zs)
    ∧ length xs = npoints * npoints
    ∧ length ys = npoints * npoints
    ∧ length zs = npoints * npoints
    ∧ ∀ i x y z, xs !! i = Some x → ys !! i = Some y → zs !! i = Some z →
        ((x - nd cx) * (x - nd cx) + (y - nd cy) * (y - nd cy)
         + (z - nd cz) * (z - nd cz)
         = nd radius * nd radius)%R.
Proof.
  eexists _, _, _. split; [reflexivity | ].
  set (T := concat ((λ _, linspace f0 (f_of_nat 180) npoints)
                    <$> linspace f0 (f_of_nat 360) npoints)).
  set (P := concat ((λ q, (λ _, q) <$> linspace f0 (f_of_nat 180) npoints)
                    <$> linspace f0 (f_of_nat 360) npoints)).
  assert (HT : length T = npoints * npoints).
  { subst T. by rewrite length_concat_const, !length_linspace. }
  assert (HP : length P = npoints * npoints).
  { subst P. by rewrite length_concat_rows, !length_linspace. }
  rewrite !length_fmap, !length_zip_with. fold T P. rewrite HT, HP.
  split_and!; [lia | lia | lia | ].
  intros i x y z Hx Hy Hz.
  apply list_lookup_fmap_Some in Hx as (x0 & -> & Hx).
  apply list_lookup_fmap_Some in Hy as (y0 & -> & Hy).
  apply list_lookup_fmap_Some in Hz as (z0 & -> & Hz).
  apply lookup_zip_with_Some in Hx as (t & p & -> & Ht & Hp).
  apply lookup_zip_with_Some in Hy as (t' & p' & -> & Ht' & Hp').
  apply list_lookup_fmap_Some in Hz as (t'' & -> & Ht'').
  assert (t' = t) as -> by congruence.
  assert (t'' = t) as -> by congruence.
  assert (p' = p) as -> by congruence. cbn.
  pose proof (sin2_cos2 (t * (PI / 180))) as H1. unfold Rsqr in H1.
  pose proof (sin2_cos2 (p * (PI / 180))) as H2. unfold Rsqr in H2.
  set (st := sin (t * _)) in *. set (ct := cos (t * _)) in *.
  set (sp := sin (p * _)) in *. set (cp := cos (p * _)) in *.
  transitivity (nd radius * nd radius
                * (st * st * (sp * sp + cp * cp) + ct * ct))%R; [ring | ].
  rewrite H2, Rmult_1_r, H1. ring.
Qed.

End PointsFacts.

Section GridFacts.

(** Lookup in the concatenation of blocks of one length. *)
Lemma lookup_concat_uniform {A : Type} (n : nat) (ls : list (list A))
    (p : nat) (x : A) :
  Forall (λ l, length l = n) ls →
  concat ls !! p = Some x →
  ∃ l, ls !! (p / n) = Some l ∧ l !! (p mod n) = Some x.
Proof.
  intros Hls. destruct (decide (n = 0)) as [->|Hn].
  { intros Hp. exfalso.
    assert (Hnil : concat ls = []).
    { clear Hp. induction Hls as [|l ls Hl _ IH]; [done | ].
      cbn. rewrite IH. by apply nil_length_inv in Hl as ->. }
    by rewrite Hnil in Hp. }
  revert p. induction Hls as [|l ls Hl _ IH]; intros p Hp; [done | ].
  cbn in Hp. destruct (decide (p < n)) as [Hlt|Hge].
  - rewrite lookup_app_l in Hp by lia.
    exists l. rewrite Nat.div_small, Nat.mod_small by done. by split.
  - rewrite lookup_app_r in Hp by lia. rewrite Hl in Hp.
    destruct (IH _ Hp) as (l' & Hl' & Hx).
    exists l'.
    replace p with ((p - n) + 1 * n) at 1 2 by lia.
    rewrite Nat.div_add, Nat.Div0.mod_add by done.
    rewrite Nat.add_1_r. by split.
Qed.

Lemma length_concat_uniform {A : Type} (n : nat) (ls : list (list A)) :
  Forall (λ l, length l = n) ls → length (concat ls) = length ls * n.
Proof.
  induction 1 as [|l ls Hl _ IH]; [done | ].
  cbn. rewrite length_app. lia.
Qed.

Lemma Forall_on_even {A : Type} (P : A → Prop) (f : A → A) (l : list A) :
  (∀ a, P a → P (f a)) → Forall P l → Forall P (on_even f l).
Proof.
  intros Hf Hl. apply Forall_lookup. intros i x.
  unfold on_even. rewrite list_lookup_imap_Some. intros (a & Ha & ->).
  pose proof (Forall_lookup_1 _ _ _ _ Hl Ha). destruct (Nat.even i); auto.
Qed.

Context {F : Type} {ops : FloatOps F} {more : FloatMore F}.

Lemma length_offsets_about (centres offsets : list F) :
  length (offsets_about centres offsets) = length centres * length offsets.
Proof.
  unfold offsets_about.
  rewrite (length_concat_uniform (length offsets)), length_fmap; [done | ].
  apply Forall_fmap, Forall_forall. intros c _. cbn. by rewrite length_fmap.
Qed.

(** A point of the output is a centre plus an offset: point [p] belongs to
    centre [p / n] and has offset [p mod n], for [n] offsets. *)
Lemma lookup_offsets_about (centres offsets : list F) (p : nat) (v : F) :
  offsets_about centres offsets !! p = Some v →
  ∃ c o, centres !! (p / length offsets) = Some c
         ∧ offsets !! (p mod length offsets) = Some o
         ∧ v = fadd c o.
Proof.
  unfold offsets_about. intros Hp.
  apply (lookup_concat_uniform (length offsets)) in Hp as (l & Hl & Hv).
  2:{ apply Forall_fmap, Forall_forall. intros c _. cbn.
      by rewrite length_fmap. }
  apply list_lookup_fmap_Some in Hl as (c & -> & Hc).
  apply list_lookup_fmap_Some in Hv as (o & -> & Ho).
  by exists c, o.
Qed.

(** The centres of the two-dimensional grid: row [i] of the grid holds the
    abscissas [xc], shifted by [shift] when [i] is even, and the ordinate
    [yc[i]]. *)
Lemma lookup_centres_x (xc yc : list F) (shift : F) (k : nat) (c : F) :
  concat (on_even (λ row : list F, (λ v, fadd v shift) <$> row)
                  ((λ _, xc) <$> yc)) !! k = Some c →
  k / length xc < length yc
  ∧ ∃ x0, xc !! (k mod length xc) = Some x0
          ∧ c = if Nat.even (k / length xc) then fadd x0 shift else x0.
Proof.
  intros Hk.
  apply (lookup_concat_uniform (length xc)) in Hk as (row & Hrow & Hc).
  2:{ apply Forall_on_even; [intros a <-; apply length_fmap | ].
      apply Forall_fmap, Forall_forall. by intros. }
  unfold on_even in Hrow.
  apply list_lookup_imap_Some in Hrow as (row0 & Hrow0 & ->).
  apply list_lookup_fmap_Some in Hrow0 as (y0 & -> & Hy0).
  split; [by eapply lookup_lt_Some | ].
  destruct (Nat.even (k / length xc)).
  - apply list_lookup_fmap_Some in Hc as (x0 & -> & Hx0). by exists x0.
  - by exists c.
Qed.

Lemma lookup_centres_y (xc yc : list F) (k : nat) (c : F) :
  concat ((λ y0, (λ _, y0) <$> xc) <$> yc) !! k = Some c →
  yc !! (k / length xc) = Some c.
Proof.
  intros Hk.
  apply (lookup_concat_uniform (length xc)) in Hk as (row & Hrow & Hc).
  2:{ apply Forall_fmap, Forall_forall. intros y0 _. cbn.
      by rewrite length_fmap. }
  apply list_lookup_fmap_Some in Hrow as (y0 & -> & Hy0).
  by apply list_lookup_fmap_Some in Hc as (x0 & -> & _).
Qed.

End GridFacts.

Section GridReal.
Context {ext : Externals R}.

(** [np.arange] in real arithmetic: it raises for a step of zero and
    returns for any other. *)
Lemma farange_real (start stop step : R) :
  step ≠ 0%R → ∃ l, farange start stop step = Ok l.
Proof. intros Hs. cbn. rewrite decide_False by done. by eexists. Qed.

Lemma centroid_step_nonzero (r : R) : r ≠ 0%R → centroid_step r ≠ 0%R.
Proof.
  intros Hr. unfold centroid_step. cbn [fdiv fmul fsqrt f_of_nat f2 R_more
                                         R_ops].
  assert (0 < sqrt (INR 3))%R.
  { apply sqrt_lt_R0. apply (lt_INR 0 3). lia. }
  intros Hz. apply Hr.
  assert (H3 : (r * sqrt (INR 3) = 0)%R) by lra.
  apply Rmult_integral in H3 as [H3|H3]; lra.
Qed.

(** X24.  The two-dimensional branch of [circles_grid], in real
    arithmetic.  For a radius of zero [np.arange] gets a step of zero and
    the call raises.  For any other radius it returns: with [xc] and [yc]
    the abscissas and ordinates of the centroids ([np.arange] of the
    scaled bounds), it returns [len(yc) * len(xc) * npoints] points, and
    point [p] lies on the circle of the scaled radius about centroid
    [p / npoints] of the grid, whose row [i] has the ordinate [yc[i]] and
    the abscissas [xc], shifted by the radius when [i] is even. *)
Theorem circles_grid_2d_on_circles (radius min0 min1 max0 max1 : R)
    (rest : list R) (npoints : nat) :
  (nd radius = 0%R →
   ∃ e, circles_grid radius [min0; min1] (max0 :: max1 :: rest) npoints
        = Raise e)
  ∧ (nd radius ≠ 0%R →
     ∃ xc yc xs ys,
       farange (nd min0) (fadd (nd max0) (nd radius)) (fmul f2 (nd radius))
       = Ok xc
       ∧ farange (fadd (nd min1) (nd radius)) (nd max1)
                 (centroid_step (nd radius))
         = Ok yc
       ∧ circles_grid radius [min0; min1] (max0 :: max1 :: rest) npoints
         = Ok (Grid2 xs ys)
       ∧ length xs = length yc * length xc * npoints
       ∧ length ys = length xs
       ∧ ∀ p x y, xs !! p = Some x → ys !! p = Some y →
           ∃ i j x0 y0,
             yc !! i = Some y0
             ∧ xc !! j = Some x0
             ∧ p / npoints = i * length xc + j
             ∧ ((x - (if Nat.even i then x0 + nd radius else x0))
                * (x - (if Nat.even i then x0 + nd radius else x0))
                + (y - y0) * (y - y0)
                = nd radius * nd radius)%R).
Proof.
  split.
  { intros Hr. exists ZeroDivisionError. unfold circles_grid.
    cbn [length decide item]. rewrite decide_True by done.
    cbn [item lookup list_lookup]. cbv zeta.
    cbn [farange R_more fmul R_ops f2]. rewrite Hr.
    rewrite decide_True by lra. done. }
  intros Hr.
  destruct (farange_real (nd min0) (fadd (nd max0) (nd radius))
              (fmul f2 (nd radius))) as [xc Hxc]; [cbn; lra | ].
  destruct (farange_real (fadd (nd min1) (nd radius)) (nd max1)
              (centroid_step (nd radius))) as [yc Hyc];
    [by apply centroid_step_nonzero | ].
  exists xc, yc.
  eexists _, _. split; [done | ]. split; [done | ]. split.
  { unfold circles_grid. rewrite decide_True by done.
    cbn [item lookup list_lookup]. cbv zeta. rewrite Hxc, Hyc.
    reflexivity. }
  set (X := concat (on_even _ _)). set (Y := concat (_ <$> yc)).
  assert (HX : length X = length yc * length xc).
  { subst X. rewrite (length_concat_uniform (length xc)).
    - unfold on_even. by rewrite length_imap, length_fmap.
    - apply Forall_on_even; [intros a <-; apply length_fmap | ].
      apply Forall_fmap, Forall_forall. by intros. }
  assert (HY : length Y = length yc * length xc).
  { subst Y. rewrite (length_concat_uniform (length xc)).
    - by rewrite length_fmap.
    - apply Forall_fmap, Forall_forall. intros y0 _. cbn.
      by rewrite length_fmap. }
  rewrite !length_offsets_about, !length_fmap, length_linspace, HX, HY.
  split_and!; [done | done | ].
  intros p x y Hx Hy.
  apply lookup_offsets_about in Hx as (cx & ox & Hcx & Hox & ->).
  apply lookup_offsets_about in Hy as (cy & oy & Hcy & Hoy & ->).
  rewrite length_fmap, length_linspace in Hcx, Hox, Hcy, Hoy.
  apply list_lookup_fmap_Some in Hox as (a & -> & Ha).
  apply list_lookup_fmap_Some in Hoy as (a' & -> & Ha').
  assert (a' = a) as -> by congruence.
  subst X Y. apply lookup_centres_x in Hcx as (Hi & x0 & Hx0 & ->).
  apply lookup_centres_y in Hcy.
  exists (p / npoints / length xc), ((p / npoints) `mod` length xc), x0, cy.
  split_and!; [done | done | | ].
  - rewrite Nat.mul_comm. apply Nat.div_mod_eq.
  - cbn. pose proof (sin2_cos2 (a * (PI / 180))) as H. unfold Rsqr in H.
    set (s := sin _) in *. set (c := cos _) in *.
    transitivity (nd radius * nd radius * (s * s + c * c))%R;
      [destruct (Nat.even _); ring | ].
    rewrite H. ring.
Qed.

End GridReal.

Section GridSolid.
Context {F : Type} {ops : FloatOps F} {more : FloatMore F} {ext : Externals F}.

Lemma length_concat_fmap_rows {A : Type} (h : A → A) (m : list (list A)) :
  length (concat ((λ row : list A, h <$> row) <$> m)) = length (concat m).
Proof.
  induction m as [|row m IH]; [done | ].
  cbn. by rewrite !length_app, length_fmap, IH.
Qed.

(** The centres of the three-dimensional grid along the second axis:
    element [(i, j, k)] is [yc[i]], shifted when [j] is even. *)
Lemma lookup_centres3_y (xc yc zc : list F) (shift : F) (q : nat) (c : F) :
  ravel3 ((λ m : list (list F),
             on_even (λ row : list F, (λ v, fadd v shift) <$> row) m)
          <$> ((λ y0, (λ _, (λ _, y0) <$> zc) <$> xc) <$> yc)) !! q = Some c →
  ∃ y0, yc !! (q / (length xc * length zc)) = Some y0
        ∧ c = if Nat.even ((q mod (length xc * length zc)) / length zc)
              then fadd y0 shift else y0.
Proof.
  unfold ravel3. intros Hq.
  apply (lookup_concat_uniform (length xc * length zc)) in Hq
    as (blk & Hblk & Hc).
  2:{ apply Forall_fmap, Forall_fmap, Forall_fmap, Forall_forall.
      intros y0 _. cbn.
      rewrite (length_concat_uniform (length zc)).
      - unfold on_even. by rewrite length_imap, length_fmap.
      - apply Forall_on_even; [intros a <-; apply length_fmap | ].
        apply Forall_fmap, Forall_forall. intros x0 _. cbn.
        by rewrite length_fmap. }
  apply list_lookup_fmap_Some in Hblk as (m & -> & Hm).
  apply list_lookup_fmap_Some in Hm as (m0 & -> & Hm0).
  apply list_lookup_fmap_Some in Hm0 as (y0 & -> & Hy0).
  exists y0. split; [done | ].
  apply (lookup_concat_uniform (length zc)) in Hc as (row & Hrow & Hc).
  2:{ apply Forall_on_even; [intros a <-; apply length_fmap | ].
      apply Forall_fmap, Forall_forall. intros x0 _. cbn.
      by rewrite length_fmap. }
  unfold on_even in Hrow.
  apply list_lookup_imap_Some in Hrow as (row0 & Hrow0 & ->).
  apply list_lookup_fmap_Some in Hrow0 as (x0 & -> & Hx0).
  destruct (Nat.even _).
  - apply list_lookup_fmap_Some in Hc as (v & -> & Hv).
    by apply list_lookup_fmap_Some in Hv as (z0 & -> & _).
  - by apply list_lookup_fmap_Some in Hc as (z0 & -> & _).
Qed.

(** Along the third axis: element [(i, j, k)] is [zc[k]], shifted when
    [i] is even. *)
Lemma lookup_centres3_z (xc yc zc : list F) (shift : F) (q : nat) (c : F) :
  ravel3 (on_even (λ m : list (list F),
                     (λ row : list F, (λ v, fadd v shift) <$> row) <$> m)
                  ((λ _, (λ _, zc) <$> xc) <$> yc)) !! q = Some c →
  ∃ z0, zc !! ((q mod (length xc * length zc)) mod length zc) = Some z0
        ∧ c = if Nat.even (q / (length xc * length zc))
              then fadd z0 shift else z0.
Proof.
  unfold ravel3. intros Hq.
  assert (Hrows : Forall (λ row : list F, length row = length zc)
                         ((λ _, zc) <$> xc)).
  { apply Forall_fmap, Forall_forall. by intros. }
  assert (Hrows' : Forall (λ row : list F, length row = length zc)
                     ((λ row : list F, (λ v, fadd v shift) <$> row)
                      <$> ((λ _, zc) <$> xc))).
  { apply Forall_fmap, Forall_fmap, Forall_forall. intros x0 _. cbn.
    by rewrite length_fmap. }
  apply (lookup_concat_uniform (length xc * length zc)) in Hq
    as (blk & Hblk & Hc).
  2:{ apply Forall_fmap, Forall_on_even.
      - intros m Hm. cbn in *. by rewrite length_concat_fmap_rows.
      - apply Forall_fmap, Forall_forall. intros y0 _. cbn.
        rewrite (length_concat_uniform (length zc)) by done.
        by rewrite length_fmap. }
  apply list_lookup_fmap_Some in Hblk as (m & -> & Hm).
  unfold on_even in Hm.
  apply list_lookup_imap_Some in Hm as (m0 & Hm0 & ->).
  apply list_lookup_fmap_Some in Hm0 as (y0 & -> & Hy0).
  destruct (Nat.even _).
  - apply (lookup_concat_uniform (length zc)) in Hc as (row & Hrow & Hc);
      [ | done].
    apply list_lookup_fmap_Some in Hrow as (row0 & -> & Hrow0).
    apply list_lookup_fmap_Some in Hrow0 as (x0 & -> & Hx0).
    apply list_lookup_fmap_Some in Hc as (z0 & -> & Hz0). by exists z0.
  - apply (lookup_concat_uniform (length zc)) in Hc as (row & Hrow & Hc);
      [ | done].
    apply list_lookup_fmap_Some in Hrow as (x0 & -> & Hx0). by exists c.
Qed.

(** X25.  The three-dimensional branch of [circles_grid] does not place
    its points on spheres.  When one of the three calls of [np.arange]
    raises, the first to do so ends the call with its exception.  When
    they return the centroid coordinates [xc], [yc] and [zc], the call
    returns, and the offsets [radius * cos(theta)] computed for the third
    axis are not used: [coords[:, 2]] is given the offsets of the second
    axis, so every point returned has, added to the third coordinate of
    its centroid, the very offset [radius * sin(theta) * sin(phi)] that is
    added to the second.  The centroid of element [(i, j, k)] of the grid
    has the second coordinate [yc[i]], shifted by the radius when [j] is
    even, and the third coordinate [zc[k]], shifted when [i] is even. *)
Theorem circles_grid_3d_reuses_second_offset (radius min0 min1 min2 : F)
    (max0 max1 max2 : F) (rest : list F) (npoints : nat) :
  match
    farange (fadd (nd min0) (nd radius)) (fadd (nd max0) (nd radius))
            (fmul f2 (nd radius)),
    farange (fadd (nd min1) (nd radius)) (fadd (nd max1) (nd radius))
            (centroid_step (nd radius)),
    farange (fadd (nd min2) (nd radius)) (fadd (nd max2) (nd radius))
            (centroid_step (nd radius))
  with
  | Raise e, _, _ | Ok _, Raise e, _ | Ok _, Ok _, Raise e =>
      circles_grid radius [min0; min1; min2] (max0 :: max1 :: max2 :: rest)
                   npoints
      = Raise e
  | Ok xc, Ok yc, Ok zc =>
      ∃ xs ys zs,
        circles_grid radius [min0; min1; min2]
                     (max0 :: max1 :: max2 :: rest) npoints
        = Ok (Grid3 xs ys zs)
        ∧ length ys = length xs ∧ length zs = length xs
        ∧ ∀ p y z, ys !! p = Some y → zs !! p = Some z →
            ∃ i j k y0 z0 t ph,
              yc !! i = Some y0
              ∧ zc !! k = Some z0
              ∧ p / (npoints * npoints) = (i * length xc + j) * length zc + k
              ∧ y = fadd (if Nat.even j then fadd y0 (nd radius) else y0)
                         (fmul (fmul (nd radius) (fsin (fradians t)))
                               (fsin (fradians ph)))
              ∧ z = fadd (if Nat.even i then fadd z0 (nd radius) else z0)
                         (fmul (fmul (nd radius) (fsin (fradians t)))
                               (fsin (fradians ph)))
  end.
Proof.
  unfold circles_grid. rewrite decide_False by done.
  rewrite decide_True by done. cbn [item lookup list_lookup]. cbv zeta.
  destruct (farange (fadd (nd min0) (nd radius)) (fadd (nd max0) (nd radius))
                    (fmul f2 (nd radius))) as [xc|e]; [ | done].
  destruct (farange (fadd (nd min1) (nd radius)) (fadd (nd max1) (nd radius))
                    (centroid_step (nd radius))) as [yc|e]; [ | done].
  destruct (farange (fadd (nd min2) (nd radius)) (fadd (nd max2) (nd radius))
                    (centroid_step (nd radius))) as [zc|e]; [ | done].
  eexists _, _, _. split; [reflexivity | ].
  set (X := ravel3 ((λ _, (λ x0, (λ _, x0) <$> zc) <$> xc) <$> yc)).
  set (Y := ravel3 (_ <$> ((λ y0, (λ _, (λ _, y0) <$> zc) <$> xc) <$> yc))).
  set (Z := ravel3 (on_even _ ((λ _, (λ _, zc) <$> xc) <$> yc))).
  set (ox := zip_with (λ t p, fmul _ (fcos _)) _ _).
  set (oy := zip_with (λ t p, fmul _ (fsin _)) _ _).
  assert (Hn : ∀ g : list (list (list F)),
             Forall (λ m, length (concat m) = length xc * length zc) g →
             length (ravel3 g) = length g * (length xc * length zc)).
  { intros g Hg. unfold ravel3.
    rewrite (length_concat_uniform (length xc * length zc)), length_fmap;
      [done | ]. by apply Forall_fmap. }
  assert (HX : length X = length yc * (length xc * length zc)).
  { subst X. rewrite Hn; [by rewrite length_fmap | ].
    apply Forall_fmap, Forall_forall. intros y0 _. cbn.
    rewrite (length_concat_uniform (length zc)), length_fmap; [done | ].
    apply Forall_fmap, Forall_forall. intros x0 _. cbn.
    by rewrite length_fmap. }
  assert (HY : length Y = length yc * (length xc * length zc)).
  { subst Y. rewrite Hn; [by rewrite !length_fmap | ].
    apply Forall_fmap, Forall_fmap, Forall_forall. intros y0 _. cbn.
    rewrite (length_concat_uniform (length zc)).
    - unfold on_even. by rewrite length_imap, length_fmap.
    - apply Forall_on_even; [intros a <-; apply length_fmap | ].
      apply Forall_fmap, Forall_forall. intros x0 _. cbn.
      by rewrite length_fmap. }
  assert (HZ : length Z = length yc * (length xc * length zc)).
  { subst Z. rewrite Hn.
    - unfold on_even. by rewrite length_imap, length_fmap.
    - apply Forall_on_even.
      + intros m Hm. cbn in *. by rewrite length_concat_fmap_rows.
      + apply Forall_fmap, Forall_forall. intros y0 _. cbn.
        rewrite (length_concat_uniform (length zc)), length_fmap; [done | ].
        apply Forall_fmap, Forall_forall. by intros. }
  assert (Hox : length ox = length oy).
  { subst ox oy. by rewrite !length_zip_with. }
  assert (Hoy : length oy = npoints * npoints).
  { subst oy. rewrite length_zip_with, length_concat_const,
      length_concat_rows, !length_linspace. lia. }
  rewrite !length_offsets_about, HX, HY, HZ, Hox.
  split_and!; [done | done | ].
  intros p y z Hy Hz.
  apply lookup_offsets_about in Hy as (cy & o & Hcy & Ho & ->).
  apply lookup_offsets_about in Hz as (cz & o' & Hcz & Ho' & ->).
  assert (o' = o) as -> by congruence.
  subst Y Z. apply lookup_centres3_y in Hcy as (y0 & Hy0 & ->).
  apply lookup_centres3_z in Hcz as (z0 & Hz0 & ->).
  rewrite Hoy in Hy0, Hz0 |- *.
  subst oy. apply lookup_zip_with_Some in Ho as (t & ph & -> & _ & _).
  set (q := p / (npoints * npoints)) in *.
  exists (q / (length xc * length zc)),
         (q `mod` (length xc * length zc) / length zc),
         ((q `mod` (length xc * length zc)) `mod` length zc), y0, z0, t, ph.
  split_and!; [done | done | | done | done].
  pose proof (Nat.div_mod_eq q (length xc * length zc)) as H1.
  pose proof (Nat.div_mod_eq (q `mod` (length xc * length zc)) (length zc))
    as H2.
  set (i := q / (length xc * length zc)) in *.
  set (r := q `mod` (length xc * length zc)) in *.
  set (j := r / length zc) in *. set (k := r `mod` length zc) in *.
  clearbody i r j k. nia.
Qed.

End GridSolid.

Section ProfileFacts.
Context {ext : Externals R} {pext : ProfileExternals R}.

(** In real arithmetic the samples of [np.linspace] are evenly spaced. *)
Lemma linspace_real (a b : R) (n : nat) :
  linspace a b n
  = (λ i, a + INR i * ((b - a) / INR (n - 1)))%R <$> seq 0 n.
Proof.
  apply list_eq. intros i. rewrite list_lookup_fmap.
  destruct (decide (i < n)) as [Hi|Hi].
  2:{ rewrite lookup_seq_ge by lia. cbn. apply lookup_ge_None_2.
      rewrite length_linspace. lia. }
  unfold linspace. cbv zeta.
  rewrite lookup_seq_lt by done. cbn [fmap option_fmap option_map plus].
  assert (Hgen : ∀ l : list R,
            l !! i = Some (a + INR i * ((b - a) / INR (n - 1)))%R →
            (if decide (1 < n) then <[n - 1 := b]> l else l) !! i
            = Some (a + INR i * ((b - a) / INR (n - 1)))%R).
  { intros l Hl. case_decide as Hn; [ | done].
    destruct (decide (i = n - 1)) as [->|Hne].
    - rewrite list_lookup_insert_eq by (by eapply lookup_lt_Some).
      f_equal. field. apply not_0_INR. lia.
    - by rewrite list_lookup_insert_ne. }
  apply Hgen. clear Hgen.
  case_decide as Hdiv.
  - cbn. destruct (bool_decide _) eqn:Hstep.
    + rewrite !list_lookup_fmap, lookup_seq_lt by done. cbn. f_equal.
      field. apply not_0_INR. lia.
    + rewrite !list_lookup_fmap, lookup_seq_lt by done. cbn. f_equal.
      unfold Rdiv. ring.
  - rewrite !list_lookup_fmap, lookup_seq_lt by done. cbn. f_equal.
    assert (i = 0) as -> by lia. cbn. ring.
Qed.

Lemma diff_even_spacing (a st : R) (n : nat) :
  diff ((λ i, a + INR i * st)%R <$> seq 0 n)
  = (λ i, a + INR (S i) * st - (a + INR i * st))%R <$> seq 0 (n - 1).
Proof.
  unfold diff. rewrite length_fmap, length_seq.
  rewrite <- fmap_drop, <- fmap_take, drop_seq, take_seq.
  replace (n - 1 `min` n) with (n - 1) by lia.
  apply list_eq. intros i.
  rewrite lookup_zip_with, !list_lookup_fmap.
  destruct (decide (i < n - 1)) as [Hi|Hi].
  - rewrite !lookup_seq_lt by lia. cbn. done.
  - rewrite !lookup_seq_ge by lia. done.
Qed.

Lemma fmap_constant {A B : Type} (f : A → B) (c : B) (l : list A) :
  (∀ x, f x = c) → f <$> l = replicate (length l) c.
Proof. intros Hf. induction l as [|x l IH]; cbn; [done | ]. by rewrite Hf, IH. Qed.

Lemma cumsum_from_constant (acc c : R) (k : nat) :
  cumsum_from acc (replicate k c)
  = (λ j, acc + INR (S j) * c)%R <$> seq 0 k.
Proof.
  revert acc. induction k as [|k IH]; intros acc; [done | ].
  cbn [replicate cumsum_from seq fmap list_fmap]. rewrite IH.
  f_equal; [cbn; ring | ].
  rewrite <- fmap_S_seq, <- list_fmap_compose.
  apply list_fmap_ext. intros i j _. cbn [compose].
  rewrite (S_INR (S j)). cbn [fadd R_ops]. ring.
Qed.

(** X26.  [extract_profile] along a vertical line, in real arithmetic.
    On several partitions the call raises NotImplementedError before it
    reads anything.  On one partition, for a line of points of two
    coordinates whose first and last points have the same abscissa, the
    call returns; the field is sampled at [nsamples] points of that abscissa
    with evenly spaced ordinates from the first to the last, the points
    between the ends of the line being ignored, and the distances are the
    multiples [i * |y1 - y0| / (nsamples - 1)]: they start at 0 and end at
    the length of the segment. *)
Theorem extract_profile_vertical_line {V : Type} (field : list (list R) → V)
    (line : list (list R)) (nsamples : nat) (coords : list (R * R))
    (x0 y0 y1 : R) :
  line_coords line = Ok coords →
  head coords = Some (x0, y0) →
  last coords = Some (x0, y1) →
  extract_profile field line nsamples
  = if decide (1 < comm_size) then NotImplementedError
    else Profile
           ((λ i, INR i * Rabs ((y1 - y0) / INR (nsamples - 1)))%R
            <$> seq 0 nsamples)
           (field ((λ i, [x0; y0 + INR i * ((y1 - y0) / INR (nsamples - 1))]%R)
                   <$> seq 0 nsamples)).
Proof.
  intros Hline Hhead Hlast. unfold extract_profile.
  case_decide; [done | ]. rewrite Hline, Hhead, Hlast.
  cbn [feq R_more]. rewrite bool_decide_eq_true_2 by done. cbv zeta.
  rewrite !linspace_real, !diff_even_spacing.
  set (st := ((y1 - y0) / INR (nsamples - 1))%R).
  rewrite bop_same by (by rewrite !length_fmap).
  rewrite <- !list_fmap_compose, zip_with_fmap_l, zip_with_fmap_r, zip_with_diag.
  rewrite <- list_fmap_compose.
  rewrite (fmap_constant (fsqrt ∘ _) (Rabs st) (seq 0 (nsamples - 1))).
  2:{ intros i. cbn [compose fsqrt fadd fsqr R_more R_ops].
      rewrite <- sqrt_Rsqr_abs. f_equal.
      rewrite !S_INR. unfold Rsqr, Rdiv. ring. }
  rewrite !length_fmap, !length_seq.
  unfold zeros_then. rewrite decide_True by (by rewrite length_replicate).
  rewrite decide_True by done. f_equal.
  - destruct nsamples as [|k]; [done | ].
    cbn [take]. rewrite take_ge by (rewrite length_replicate; lia).
    replace (S k - 1) with k by lia.
    cbn [cumsum]. rewrite cumsum_from_constant.
    cbn [seq fmap list_fmap]. f_equal; [cbn; ring | ].
    rewrite <- fmap_S_seq, <- list_fmap_compose.
    apply list_fmap_ext. intros i j _. cbn [compose fadd R_ops f0]. ring.
  - f_equal. rewrite zip_with_fmap_l, zip_with_fmap_r, zip_with_diag.
    apply list_fmap_ext. intros i j _. f_equal. unfold Rdiv. ring.
Qed.

End ProfileFacts.

Section ProfileErrors.
Context {F : Type} {ops : FloatOps F} {more : FloatMore F} {ext : Externals F}
        {pext : ProfileExternals F}.

Lemma line_coords_Ok (line : list (list F)) (coords : list (F * F)) :
  line_coords line = Ok coords →
  Forall (λ pt, length pt = 2) line ∧ length coords = length line.
Proof.
  revert coords. induction line as [|pt rest IH]; intros coords.
  - intros [= <-]. by split.
  - cbn [line_coords]. destruct pt as [|x [|y [|z pt]]]; try done.
    destruct (line_coords rest) as [cs|e]; [ | done].
    intros [= <-]. destruct (IH cs eq_refl) as [Hall Hlen].
    split; [by constructor | cbn; by rewrite Hlen].
Qed.

(** X27.  The lines [extract_profile] refuses, on one partition.  A line
    with a point that does not have exactly two coordinates raises
    ValueError, so a line of points [(x, y, z)], which the docstring
    allows, is never sampled; an empty line raises IndexError.  In both
    cases the field is not evaluated. *)
Theorem extract_profile_refuses_line {V : Type} (field : list (list F) → V)
    (line : list (list F)) (nsamples : nat) :
  comm_size ≤ 1 →
  (Exists (λ pt, length pt ≠ 2) line →
   extract_profile field line nsamples = ProfileRaise ValueError)
  ∧ (line = [] →
     extract_profile field line nsamples = ProfileRaise IndexError).
Proof.
  intros Hsize. unfold extract_profile. rewrite decide_False by lia.
  split.
  - intros Hbad. destruct (line_coords line) as [coords|e] eqn:Hline.
    + apply line_coords_Ok in Hline as [Hall _].
      apply Exists_exists in Hbad as (pt & Hin & Hpt).
      by pose proof (proj1 (Forall_forall _ _) Hall pt Hin).
    + f_equal. clear Hbad.
      revert e Hline. induction line as [|pt rest IH]; intros e; [done | ].
      cbn [line_coords]. destruct pt as [|x [|y [|z pt]]];
        try (by intros [= <-]).
      destruct (line_coords rest) as [cs|e']; [done | ].
      intros [= <-]. by apply IH.
  - by intros ->.
Qed.

End ProfileErrors.

Section IdentityLayout.

(** X28.  The number stored as a marker's identity depends on the byte
    order of the machine.  For a partition id and a slot between 0 and
    2^31, [pairs.view(np.int64)] gives [rank + 2^32 * index] on a
    little-endian machine and [index + 2^32 * rank] on a big-endian one,
    so the marker in slot [i] of partition [rank] carries a different
    number on the two machines unless [i = rank]. *)
Theorem identity_depends_on_byte_order (rank : Z) (n i : nat) :
  (0 ≤ rank < 2 ^ 31)%Z → (Z.of_nat n ≤ 2 ^ 31)%Z → i < n →
  global_index_values LittleEndian rank n !! i
  = Some (rank + 2 ^ 32 * Z.of_nat i)%Z
  ∧ global_index_values BigEndian rank n !! i
    = Some (Z.of_nat i + 2 ^ 32 * rank)%Z.
Proof.
  intros Hrank Hn Hi.
  rewrite !global_index_values_fmap, !list_lookup_fmap, lookup_seq_lt by done.
  cbn [fmap option_fmap option_map plus]. rewrite !view_int64_word.
  unfold word_of_pair, signed.
  change (8 * Z.of_nat 8 - 1)%Z with 63%Z.
  change (8 * Z.of_nat 8)%Z with 64%Z.
  change (2 ^ 31)%Z with 2147483648%Z in *.
  change (2 ^ 32)%Z with 4294967296%Z in *.
  change (2 ^ 63)%Z with 9223372036854775808%Z in *.
  rewrite !Z.mod_small by lia.
  split; f_equal.
  - destruct (Z.ltb_spec (rank + 4294967296 * Z.of_nat i)
                         9223372036854775808); lia.
  - destruct (Z.ltb_spec (Z.of_nat i + 4294967296 * rank)
                         9223372036854775808); lia.
Qed.

End IdentityLayout.

(** ** The model on concrete inputs *)

Lemma rotate_row_quarter_turn :
  rotate_row [1; 0; 0]%R (PI / 2)%R = [0; 1; 0]%R.
Proof.
  unfold rotate_row, rot_xx, rot_yy, rot_xy. cbn.
  replace (2 * (PI / 2))%R with PI by lra.
  rewrite cos_PI2, sin_PI2, sin_PI, cos_PI. repeat f_equal; lra.
Qed.




Lemma integrate_error_leaves_field_zeroed :
  (integrate (ext:=failing_ext) 1%R (marker_state true)).1
  = Raise (CollaboratorError 0)
  ∧ velocityField (integrate (ext:=failing_ext) 1%R (marker_state true)).2
    ≠ velocityField (marker_state true).
Proof.
  pose proof (advection_step_vertical (ext:=failing_ext) 1%R
                (marker_state true) eq_refl) as Hstep.
  cbv zeta in Hstep. cbn [failing_ext example_ext advector_integrate fst snd]
    in Hstep.
  rewrite (integrate_advection_raises _ _ _ _ Hstep).
  split; [done | ].
  cbn. intros [= H0]. lra.
Qed.

Lemma integrate_vertical_only_restores_after_advection_witness :
  (integrate (ext:=failing_ext) 1%R (marker_state true)).1
  = Raise (CollaboratorError 0)
  ∧ velocityField (integrate (ext:=failing_ext) 1%R (marker_state true)).2
    = zero_nonlast (velocityField (marker_state true)).
Proof.
  exact (integrate_vertical_only_restores_after_advection
           (ext:=failing_ext) 1%R (marker_state true) eq_refl).
Defined.

Lemma integrate_vertical_only_advects_and_restores_witness :
  particleCoordinates
    (swarm (integrate (ext:=sound_ext) 1%R (marker_state true)).2)
  = [[5; 10]]%R
  ∧ velocityField (integrate (ext:=sound_ext) 1%R (marker_state true)).2
    = mkArr 2 [[2; 3]]%R.
Proof.
  destruct (integrate_vertical_only_advects_and_restores
              (ext:=sound_ext) 1%R (marker_state true) _
              eq_refl eq_refl eq_refl eq_refl) as (Hc & Hv & _).
  split; [ | exact Hv].
  rewrite Hc. cbn. unfold midpoint_advect, uniform_sample. cbn.
  repeat f_equal; lra.
Defined.

Lemma constructor_gives_constructed_state :
  init (ext:=sound_ext) 2 (mkArr 2 [[2; 3]]%R) "tracers"
       [Scalar 5%R; Scalar 7%R] true false
  = Ok constructed_state.
Proof. reflexivity. Qed.

Lemma temperature_state_registry :
  (add_tracked_field (ext:=sound_ext) (PyFunction (UserFn 1)) "T" "K" "double"
                     1 true true constructed_state).1 = Ok tt
  ∧ tracked_field (self temperature_state) = [temperature_field]
  ∧ mesh (self temperature_state) = None.
Proof. split_and!; reflexivity. Qed.

Lemma integrate_raises_on_time_integrated_field_witness :
  integrate (ext:=sound_ext) 1%R temperature_state
  = (Raise AttributeError,
     (advection_step (ext:=sound_ext) 1%R temperature_state).2).
Proof.
  apply (integrate_raises_on_time_integrated_field
           (ext:=sound_ext) 1%R temperature_state _ temperature_field).
  - reflexivity.
  - change (temperature_field ∈ [temperature_field]). constructor.
  - reflexivity.
  - rewrite (advection_step_full (ext:=sound_ext)) by reflexivity.
    reflexivity.
Defined.

Lemma integrate_tensor_field_not_rotated_witness :
  (integrate_field (ext:=sound_ext) 1%R stress_field
                   (stress_state (Some 2))).1 = Ok tt
  ∧ heap (integrate_field (ext:=sound_ext) 1%R stress_field
                          (stress_state (Some 2))).2 !! 0
    = Some (mkArr 3 [[1; 0; 0]]%R).
Proof.
  destruct (integrate_tensor_field_not_rotated
              (ext:=sound_ext) 1%R stress_field (stress_state (Some 2))
              stress_var (mkArr 3 [[1; 0; 0]]%R))
    as [Hok Hheap].
  - reflexivity.
  - reflexivity.
  - reflexivity.
  - repeat constructor.
  - reflexivity.
  - cbn. lia.
  - reflexivity.
  - reflexivity.
  - reflexivity.
  - split; [exact Hok | ].
    cbn [stress_var var_data] in Hheap. rewrite Hheap.
    unfold add_columns. cbn. repeat f_equal; lra.
Defined.

Lemma add_tracked_field_on_existing_witness :
  add_tracked_field (ext:=sound_ext) (PyFunction (UserFn 5)) "stress" "MPa"
                    "float" 2 false false (stress_state None)
  = (Raise ValueError, stress_state None)
  ∧ heap (add_tracked_field (ext:=sound_ext) (PyFunction (UserFn 5)) "stress" "MPa" "float" 2
                            true false (stress_state None)).2 !! 1
    = Some (mkArr 2 [[0; 0]]%R).
Proof.
  destruct (add_tracked_field_on_existing (ext:=sound_ext)
              (stress_state None) (UserFn 5) "stress" "MPa" "float" 2 false
              stress_field)
    as (Hrefuse & i & matched & _ & _ & _ & _ & Hreturns & _).
  - apply (bool_decide_unpack ("stress" ∉ own_attributes)).
    vm_compute. exact I.
  - change (stress_field ∈ [stress_field]). constructor.
  - left. reflexivity.
  - split; [exact Hrefuse | ].
    destruct Hreturns as (_ & svar & _ & _ & _ & Hfree & Hzero);
      [reflexivity | lia | reflexivity | ].
    assert (Hloc : var_data svar = 1); [ | rewrite Hloc in Hzero; exact Hzero].
    apply lookup_lt_Some in Hzero. apply lookup_ge_None_1 in Hfree.
    change (length (heap (stress_state None))) with 1 in Hfree.
    change (length (heap (add_tracked_field (ext:=sound_ext)
                            (PyFunction (UserFn 5)) "stress" "MPa" "float"
                            2 true false (stress_state None)).2))
      with 2 in Hzero.
    lia.
Defined.

Lemma save_writes_fields_without_barrier_between :
  ∃ content,
    trace (save (ext:=sound_ext) "out" "7" 0%R two_fields_state).2
    = [SwarmSave "out/tracers-7.h5"; Barrier;
       VariableSave "out/tracers_global_index-7.h5"; Barrier;
       VariableSave "out/tracers_a-7.h5";
       VariableSave "out/tracers_b-7.h5"; Barrier;
       OpenRead "out/tracers-7.h5";
       WriteText "out/tracers-7.xdmf" content; Barrier].
Proof. eexists. vm_compute. reflexivity. Qed.


(** Three markers on a line: the scalar ordinate is repeated. *)
Lemma seeding_line_example :
  init (ext:=sound_ext) 2 (mkArr 2 [[2; 3]]%R) "tracers"
       [Vector [0; 1; 2]%R; Scalar 7%R] true false
  = Ok (mkState (mkTracers "tracers" false true None [] ∅)
                (mkArr 2 [[2; 3]]%R)
                (mkSwarm 2 [[0; 7]; [1; 7]; [2; 7]]%R
                         [0; 4294967296; 8589934592]%Z [])
                [] ∅ []).
Proof. reflexivity. Qed.

(** The instance as the constructor leaves it, with the tensor field
    registered: [integrate] stops at [self.mesh]. *)
Lemma integrate_tensor_field_unbound_mesh_example :
  (integrate (ext:=sound_ext) 1%R (stress_state None)).1
  = Raise AttributeError
  ∧ heap (integrate (ext:=sound_ext) 1%R (stress_state None)).2 !! 0
    = Some (mkArr 3 [[1; 0; 0]]%R).
Proof.
  pose proof (advection_step_full (ext:=sound_ext) 1%R (stress_state None)
                eq_refl) as Hstep.
  cbv zeta in Hstep.
  cbn [sound_ext example_ext advector_integrate fst snd] in Hstep.
  unfold integrate. rewrite bind_run, Hstep. rewrite bind_run. cbn [gets].
  erewrite field_loop_unbound_mesh;
    [ | reflexivity | by apply list_elem_of_here | reflexivity ].
  split; reflexivity.
Qed.

(** *** The registry *)


Lemma add_tracked_field_releases_nothing_witness :
  heap two_fields_state
  `prefix_of` heap (add_tracked_field (ext:=sound_ext)
                      (PyFunction (UserFn 1)) "b" "K" "complex" 1 true false
                      two_fields_state).2
  ∧ variables (swarm two_fields_state)
    `prefix_of` variables (swarm (add_tracked_field (ext:=sound_ext)
                                    (PyFunction (UserFn 3)) "c" "K" "double"
                                    1 true false two_fields_state).2).
Proof.
  split.
  - refine (proj1 (proj2 (add_tracked_field_releases_nothing
                            (ext:=sound_ext) (PyFunction (UserFn 1)) "b" "K"
                            "complex" 1 true false two_fields_state _))).
    apply (bool_decide_unpack ("b" ∉ own_attributes)). vm_compute. exact I.
  - refine (proj1 (add_tracked_field_releases_nothing
                     (ext:=sound_ext) (PyFunction (UserFn 3)) "c" "K"
                     "double" 1 true false two_fields_state _)).
    apply (bool_decide_unpack ("c" ∉ own_attributes)). vm_compute. exact I.
Defined.

Lemma add_tracked_field_keeps_registry_unique_witness :
  NoDup (field_name
           <$> tracked_field
                 (self (add_tracked_field (ext:=sound_ext)
                          (PyFunction (UserFn 3)) "c" "K" "double" 1 false
                          false two_fields_state).2)).
Proof.
  refine (proj1 (add_tracked_field_keeps_registry_unique (ext:=sound_ext)
                   (PyFunction (UserFn 3)) "c" "K" "double" 1 false
                   two_fields_state _ _ _)).
  - apply (bool_decide_unpack ("c" ∉ own_attributes)). vm_compute. exact I.
  - apply (bool_decide_unpack (NoDup ["a"; "b"])). vm_compute. exact I.
  - apply (bool_decide_unpack (NoDup [UserFn 1; UserFn 2])). vm_compute.
    exact I.
Defined.

Lemma add_tracked_field_overwrite_duplicates_name_witness :
  field_name
    <$> tracked_field
          (self (add_tracked_field (ext:=sound_ext) (PyFunction (UserFn 1))
                                   "b" "K" "double" 1 true false
                                   two_fields_state).2)
  = ["b"; "b"]
  ∧ ¬ NoDup (field_name
               <$> tracked_field
                     (self (add_tracked_field (ext:=sound_ext)
                              (PyFunction (UserFn 1)) "b" "K" "double" 1
                              true false two_fields_state).2)).
Proof.
  split; [reflexivity | ].
  refine (proj1 (add_tracked_field_overwrite_duplicates_name
                   (ext:=sound_ext) two_fields_state (UserFn 1) "b" "K"
                   "double" 1 false 0 1 field_a field_b _ _ _ _ _ _ _)).
  - apply (bool_decide_unpack ("b" ∉ own_attributes)). vm_compute. exact I.
  - apply (bool_decide_unpack (NoDup ["a"; "b"])). vm_compute. exact I.
  - reflexivity.
  - reflexivity.
  - lia.
  - reflexivity.
  - reflexivity.
Defined.

(** *** [integrate] and [save] *)

Lemma integrate_without_accumulated_fields_witness :
  integrate (ext:=sound_ext) 1%R two_fields_state
  = advection_step (ext:=sound_ext) 1%R two_fields_state.
Proof.
  apply (integrate_without_accumulated_fields (ext:=sound_ext) 1%R
           two_fields_state).
  repeat constructor.
Defined.

Lemma integrate_full_leaves_velocity_witness :
  velocityField (integrate (ext:=sound_ext) 1%R (marker_state false)).2
  = mkArr 2 [[2; 3]]%R.
Proof.
  exact (proj1 (integrate_full_leaves_velocity (ext:=sound_ext) 1%R
                  (marker_state false) eq_refl)).
Defined.

Lemma integrate_on_constructed_instance_witness :
  mesh (self (after_calls (ext:=sound_ext) constructed_state example_calls))
  = None.
Proof.
  refine (proj1 (integrate_on_constructed_instance (ext:=sound_ext) 2
                   (mkArr 2 [[2; 3]]%R) "tracers" [Scalar 5%R; Scalar 7%R]
                   true false constructed_state example_calls 1%R _ _)).
  - reflexivity.
  - repeat constructor.
    apply (bool_decide_unpack ("T" ∉ own_attributes)). vm_compute. exact I.
Defined.


Lemma integrate_field_accumulates_witness :
  heap (integrate_field (ext:=sound_ext) 2%R stress_field
                        (stress_state (Some 3))).2 !! 0
  = Some (mkArr 3 [[1 + 0 * 2; 0 + 0 * 2; 0 + 0 * 2]]%R).
Proof.
  destruct (integrate_field_accumulates (ext:=sound_ext) 2%R stress_field
              (stress_state (Some 3)) stress_var (mkArr 3 [[1; 0; 0]]%R) 3)
    as (_ & Hheap & _).
  - reflexivity.
  - reflexivity.
  - reflexivity.
  - reflexivity.
  - reflexivity.
  - intros [? _]. lia.
  - reflexivity.
  - reflexivity.
  - exact Hheap.
Defined.

Lemma save_field_refreshes_storage_witness :
  heap (save_field (ext:=sound_ext) "out" "7" "<Xdmf>" field_a
                   two_fields_state).2 !! 0
  = Some (mkArr 1 [[1]]%R).
Proof.
  destruct (save_field_refreshes_storage (ext:=sound_ext) "out" "7" "<Xdmf>"
              field_a two_fields_state (mkVar "double" 1 0)
              (mkArr 1 [[0]]%R))
    as (_ & Hheap & _).
  - reflexivity.
  - reflexivity.
  - reflexivity.
  - reflexivity.
  - reflexivity.
  - reflexivity.
  - exact Hheap.
Defined.

(** *** [rotateTensor2D] *)

Lemma rotateTensor2D_too_few_columns_witness :
  (rotateTensor2D (mkView 0 0 3) [0%R] [mkArr 2 [[1; 2]]%R]).1
  = Raise IndexError.
Proof.
  apply (rotateTensor2D_too_few_columns (mkView 0 0 3) [0%R]
           [mkArr 2 [[1; 2]]%R] (mkArr 2 [[1; 2]]%R)).
  - reflexivity.
  - cbn. lia.
  - reflexivity.
Defined.

Lemma rotateTensor2D_angles_mismatch_witness :
  (rotateTensor2D (mkView 0 0 3) [0; 0]%R
                  [mkArr 3 [[1; 2; 3]; [4; 5; 6]; [7; 8; 9]]%R]).1
  = Raise ValueError.
Proof.
  apply (rotateTensor2D_angles_mismatch (mkView 0 0 3) [0; 0]%R
           [mkArr 3 [[1; 2; 3]; [4; 5; 6]; [7; 8; 9]]%R]
           (mkArr 3 [[1; 2; 3]; [4; 5; 6]; [7; 8; 9]]%R)).
  - reflexivity.
  - cbn. lia.
  - cbn. lia.
  - cbn. lia.
Defined.

Lemma rotateTensor2D_keeps_invariants_witness :
  ∃ out xx' yy' xy',
    rotateTensor2D (mkView 0 0 3) [(PI / 3)%R] [mkArr 3 [[4; 1; 2]]%R]
    = (Ok 1, [mkArr 3 [[4; 1; 2]]%R; out])
    ∧ rows out !! 0 = Some [xx'; yy'; xy']
    ∧ (xx' + yy' = 4 + 1)%R
    ∧ (xx' * yy' - xy' * xy' = 4 * 1 - 2 * 2)%R.
Proof.
  destruct (rotateTensor2D_keeps_invariants (mkView 0 0 3) [(PI / 3)%R]
              [mkArr 3 [[4; 1; 2]]%R] (mkArr 3 [[4; 1; 2]]%R))
    as (out & Hrun & _ & Hrows).
  - reflexivity.
  - cbn. lia.
  - reflexivity.
  - destruct (Hrows 0 4%R 1%R 2%R [] eq_refl)
      as (xx' & yy' & xy' & Hrow & Htr & Hdet).
    exists out, xx', yy', xy'.
    split_and!; [exact Hrun | exact Hrow | exact Htr | exact Hdet].
Defined.

Lemma rotateTensor2D_composes_witness :
  (r1 ← rotateTensor2D (mkView 0 0 3) [(PI / 3)%R];
   rotateTensor2D (mkView r1 0 3) [(PI / 6)%R]) [mkArr 3 [[4; 1; 2]]%R]
  = (Ok 2,
     [mkArr 3 [[4; 1; 2]]%R;
      rotated (mkArr 3 [[4; 1; 2]]%R) [(PI / 3)%R];
      rotated (mkArr 3 [[4; 1; 2]]%R) [(PI / 3 + PI / 6)%R]]).
Proof.
  refine (proj1 (rotateTensor2D_composes (mkView 0 0 3) [(PI / 3)%R]
                   [(PI / 6)%R] [mkArr 3 [[4; 1; 2]]%R]
                   (mkArr 3 [[4; 1; 2]]%R) _ _ _ _ _)).
  - reflexivity.
  - cbn. lia.
  - repeat constructor.
  - reflexivity.
  - reflexivity.
Defined.

Lemma rotateTensor2D_zero_angle_witness :
  rotateTensor2D (mkView 0 0 3) [0%R] [mkArr 3 [[4; 1; 2]]%R]
  = (Ok 1, [mkArr 3 [[4; 1; 2]]%R; mkArr 3 [[4; 1; 2]]%R]).
Proof.
  apply (rotateTensor2D_zero_angle (mkView 0 0 3) [mkArr 3 [[4; 1; 2]]%R]
           (mkArr 3 [[4; 1; 2]]%R)).
  - reflexivity.
  - cbn. lia.
  - repeat constructor.
Defined.

(** *** [_get_side_flow] *)

Ltac decide_reals :=
  repeat match goal with
         | |- context [bool_decide ?P] =>
             first [ rewrite (bool_decide_eq_true_2 P) by lra
                   | rewrite (bool_decide_eq_false_2 P) by lra ]
         end.

Lemma two_node_flow_closest :
  closest_node [0; 1]%R 1%R = Ok 1 ∧ closest_node [0; 1]%R 0%R = Ok 0.
Proof.
  unfold closest_node, argmin. cbn. unfold fisnan. cbn.
  by decide_reals.
Qed.

(** One pass is enough for the two nodes when the tolerance is 10 and
    [nitmin] is -1. *)
Lemma two_node_flow_run :
  _get_side_flow (ext:=sound_ext) 1 (two_node_flow 10 (-1))
  = Some (Ok ([(- (1) + 0) / 2; 1]%R,
              (1 / 2 * (1 + (- (1) + 0) / 2) * (1 - 0) + 0)%R)).
Proof.
  unfold _get_side_flow. cbv zeta.
  cbn [two_node_flow bf_ynodes bf_top bf_pt1 bf_pt2 bf_vtop bf_tol bf_nitmin
       bf_default_vel nd sound_ext example_ext fmap list_fmap].
  destruct two_node_flow_closest as [-> ->].
  cbn [side_flow_loop]. cbv zeta.
  rewrite side_flow_pass_value by done.
  unfold side_flow_value. cbn [length seq map].
  repeat (case_decide; try lia). cbn.
  rewrite bool_decide_eq_true_2; [done | ].
  apply Rabs_def1; lra.
Qed.

Lemma side_flow_profile_witness :
  ∃ Vbot,
    [(- (1) + 0) / 2; 1]%R
    = map (λ i, if decide (1 < i) then 0%R
                else side_flow_value 1%R Vbot [0; 1]%R 1 1 0 i)
          (seq 0 2).
Proof.
  destruct (side_flow_profile (ext:=sound_ext) 1 (two_node_flow 10 (-1)) _ _
              two_node_flow_run)
    as (top_idx & pt1_idx & pt2_idx & Vbot & Htop & Hpt1 & Hpt2 & _ & _ & _
        & Hv & _).
  cbn [two_node_flow bf_ynodes bf_top bf_pt1 bf_pt2 bf_vtop bf_default_vel
       nd sound_ext example_ext fmap list_fmap length] in Htop, Hpt1, Hpt2, Hv.
  destruct two_node_flow_closest as [H1 H0].
  rewrite H1 in Htop, Hpt1. rewrite H0 in Hpt2.
  injection Htop as <-. injection Hpt1 as <-. injection Hpt2 as <-.
  exists Vbot. exact Hv.
Defined.

Lemma side_flow_needs_passes_witness :
  _get_side_flow (ext:=sound_ext) 4 (two_node_flow 10 3) = None.
Proof.
  apply (side_flow_needs_passes (ext:=sound_ext) 4 (two_node_flow 10 3)).
  - discriminate.
  - cbn. lia.
Defined.

Lemma side_flow_never_returns_witness :
  _get_side_flow (ext:=sound_ext) 1000 (two_node_flow 0 3) = None.
Proof.
  apply (side_flow_never_returns (ext:=sound_ext) (two_node_flow 0 3)).
  - discriminate.
  - intros x. cbn. apply bool_decide_eq_false_2.
    pose proof (Rabs_pos x). lra.
Defined.

Lemma side_flow_bottom_velocity_bounded_witness :
  ∃ Vbot,
    (Rmin 0 (- (1)) <= Vbot <= Rmax 0 (- (1)))%R
    ∧ ([(- (1) + 0) / 2; 1]%R,
       (1 / 2 * (1 + (- (1) + 0) / 2) * (1 - 0) + 0)%R)
      = side_flow_result 1%R Vbot 0%R [0; 1]%R 1 1 0.
Proof.
  destruct two_node_flow_closest as [H1 H0].
  exact (side_flow_bottom_velocity_bounded (ext:=sound_ext) 1
           (two_node_flow 10 (-1)) _ 1 1 0 two_node_flow_run H1 H1 H0).
Defined.

(** *** [extract_profile] and the identities *)

Lemma extract_profile_vertical_line_witness :
  extract_profile (ext:=sound_ext) (pext:=serial_profile) (λ pts, pts)
                  [[0; 0]; [0; 2]]%R 3
  = Profile ((λ i, INR i * Rabs ((2 - 0) / INR 2))%R <$> seq 0 3)
            ((λ i, [0; 0 + INR i * ((2 - 0) / INR 2)]%R) <$> seq 0 3).
Proof.
  exact (extract_profile_vertical_line (ext:=sound_ext) (pext:=serial_profile)
           (λ pts, pts) [[0; 0]; [0; 2]]%R 3 [(0, 0); (0, 2)]%R 0%R 0%R 2%R
           eq_refl eq_refl eq_refl).
Defined.

Lemma extract_profile_refuses_line_witness :
  extract_profile (ext:=sound_ext) (pext:=serial_profile) (λ pts, pts)
                  [[0; 0; 0]; [0; 2; 0]]%R 3
  = ProfileRaise ValueError.
Proof.
  apply (extract_profile_refuses_line (ext:=sound_ext) (pext:=serial_profile)
           (λ pts, pts) [[0; 0; 0]; [0; 2; 0]]%R 3).
  - cbn. lia.
  - apply Exists_cons_hd. cbn. lia.
Defined.

Lemma identity_depends_on_byte_order_witness :
  global_index_values LittleEndian 1 3 !! 2 = Some 8589934593%Z
  ∧ global_index_values BigEndian 1 3 !! 2 = Some 4294967298%Z.
Proof.
  exact (identity_depends_on_byte_order 1 3 2 ltac:(lia) ltac:(lia)
           ltac:(lia)).
Defined.

(** *** [circles_grid] *)

Lemma circles_grid_2d_on_circles_witness :
  ∃ xs ys,
    circles_grid (ext:=sound_ext) 1%R [0; 0]%R [4; 4]%R 8
    = Ok (Grid2 xs ys)
    ∧ length ys = length xs.
Proof.
  destruct (proj2 (circles_grid_2d_on_circles (ext:=sound_ext) 1%R 0%R 0%R
                     4%R 4%R [] 8))
    as (xc & yc & xs & ys & _ & _ & Hrun & _ & Hlen & _).
  - cbn. lra.
  - by exists xs, ys.
Defined.

Lemma circles_grid_3d_reuses_second_offset_witness :
  ∃ xs ys zs,
    circles_grid (ext:=sound_ext) 1%R [0; 0; 0]%R [4; 4; 4]%R 8
    = Ok (Grid3 xs ys zs)
    ∧ length ys = length xs ∧ length zs = length xs.
Proof.
  pose proof (circles_grid_3d_reuses_second_offset (F:=R) (ext:=sound_ext)
                1%R 0%R 0%R 0%R 4%R 4%R 4%R [] 8) as H.
  repeat match type of H with
       | context [farange ?a ?b ?c] =>
           let l := fresh "l" in
           let Hl := fresh "Hl" in
           destruct (farange_real a b c) as [l Hl];
           [ first [ by (cbn; lra)
                   | by (apply centroid_step_nonzero; cbn; lra) ]
           | rewrite Hl in H ]
       end.
  destruct H as (xs & ys & zs & Hrun & Hy & Hz & _).
  by exists xs, ys, zs.
Defined.
